(** * XShaderCompiler: data-type algebra, literal typing, subscripts,
      indexed semantics and parts of the GLSL emitter

    A shallow embedding of [src/Compiler/AST/ASTEnums.cpp] and of the
    helper routines of [src/Compiler/Backend/GLSL/GLSLGenerator.cpp],
    followed by the properties established about them. *)

From Stdlib Require Import ZArith List String Ascii Lia Bool.
From Stdlib Require Import Decimal DecimalString DecimalPos.
From stdpp Require Import base option gmap strings.
From Equations Require Import Equations.

Import ListNotations.
Local Open Scope Z_scope.

(* ================================================================== *)
(** * The [DataType] enumeration *)
(* ================================================================== *)

(** Modelled from the spec: the declaration of [enum class DataType]
    (ASTEnums.h) is not part of the sources.  The enumerators are
    listed in the order that section 4.1 of the specification describes:
    the scalars [Bool..Double] are contiguous, the vectors
    [Bool2..Double4] follow in (base, size) order and the matrices
    [Bool2x2..Double4x4] in (base, rows, columns) order.  [Undefined] and
    [String] lie outside these three ranges; the enumerator [String] is
    spelled [String_] here because [String] is the constructor of Rocq
    strings. *)
Inductive DataType : Set :=
  | Undefined
  | String_
  | Bool | Int | UInt | Half | Float | Double
  | Bool2 | Bool3 | Bool4
  | Int2 | Int3 | Int4
  | UInt2 | UInt3 | UInt4
  | Half2 | Half3 | Half4
  | Float2 | Float3 | Float4
  | Double2 | Double3 | Double4
  | Bool2x2 | Bool2x3 | Bool2x4
  | Bool3x2 | Bool3x3 | Bool3x4
  | Bool4x2 | Bool4x3 | Bool4x4
  | Int2x2 | Int2x3 | Int2x4
  | Int3x2 | Int3x3 | Int3x4
  | Int4x2 | Int4x3 | Int4x4
  | UInt2x2 | UInt2x3 | UInt2x4
  | UInt3x2 | UInt3x3 | UInt3x4
  | UInt4x2 | UInt4x3 | UInt4x4
  | Half2x2 | Half2x3 | Half2x4
  | Half3x2 | Half3x3 | Half3x4
  | Half4x2 | Half4x3 | Half4x4
  | Float2x2 | Float2x3 | Float2x4
  | Float3x2 | Float3x3 | Float3x4
  | Float4x2 | Float4x3 | Float4x4
  | Double2x2 | Double2x3 | Double2x4
  | Double3x2 | Double3x3 | Double3x4
  | Double4x2 | Double4x3 | Double4x4.

(** The enumerators in declaration order. *)
Definition enumerators : list DataType :=
  [ Undefined; String_; Bool; Int; UInt; Half; Float; Double;
    Bool2; Bool3; Bool4; Int2; Int3; Int4; UInt2; UInt3; UInt4;
    Half2; Half3; Half4; Float2; Float3; Float4; Double2; Double3; Double4;
    Bool2x2; Bool2x3; Bool2x4; Bool3x2; Bool3x3; Bool3x4; Bool4x2; Bool4x3; Bool4x4;
    Int2x2; Int2x3; Int2x4; Int3x2; Int3x3; Int3x4; Int4x2; Int4x3; Int4x4;
    UInt2x2; UInt2x3; UInt2x4; UInt3x2; UInt3x3; UInt3x4; UInt4x2; UInt4x3; UInt4x4;
    Half2x2; Half2x3; Half2x4; Half3x2; Half3x3; Half3x4; Half4x2; Half4x3; Half4x4;
    Float2x2; Float2x3; Float2x4; Float3x2; Float3x3; Float3x4; Float4x2; Float4x3; Float4x4;
    Double2x2; Double2x3; Double2x4; Double3x2; Double3x3; Double3x4; Double4x2; Double4x3; Double4x4 ].

(** [static int Idx(const DataType t)]: the underlying integer. *)
Definition Idx (t : DataType) : Z :=
  match t with
  | Undefined => 0 | String_ => 1
  | Bool => 2 | Int => 3 | UInt => 4 | Half => 5 | Float => 6 | Double => 7
  | Bool2 => 8 | Bool3 => 9 | Bool4 => 10
  | Int2 => 11 | Int3 => 12 | Int4 => 13
  | UInt2 => 14 | UInt3 => 15 | UInt4 => 16
  | Half2 => 17 | Half3 => 18 | Half4 => 19
  | Float2 => 20 | Float3 => 21 | Float4 => 22
  | Double2 => 23 | Double3 => 24 | Double4 => 25
  | Bool2x2 => 26 | Bool2x3 => 27 | Bool2x4 => 28
  | Bool3x2 => 29 | Bool3x3 => 30 | Bool3x4 => 31
  | Bool4x2 => 32 | Bool4x3 => 33 | Bool4x4 => 34
  | Int2x2 => 35 | Int2x3 => 36 | Int2x4 => 37
  | Int3x2 => 38 | Int3x3 => 39 | Int3x4 => 40
  | Int4x2 => 41 | Int4x3 => 42 | Int4x4 => 43
  | UInt2x2 => 44 | UInt2x3 => 45 | UInt2x4 => 46
  | UInt3x2 => 47 | UInt3x3 => 48 | UInt3x4 => 49
  | UInt4x2 => 50 | UInt4x3 => 51 | UInt4x4 => 52
  | Half2x2 => 53 | Half2x3 => 54 | Half2x4 => 55
  | Half3x2 => 56 | Half3x3 => 57 | Half3x4 => 58
  | Half4x2 => 59 | Half4x3 => 60 | Half4x4 => 61
  | Float2x2 => 62 | Float2x3 => 63 | Float2x4 => 64
  | Float3x2 => 65 | Float3x3 => 66 | Float3x4 => 67
  | Float4x2 => 68 | Float4x3 => 69 | Float4x4 => 70
  | Double2x2 => 71 | Double2x3 => 72 | Double2x4 => 73
  | Double3x2 => 74 | Double3x3 => 75 | Double3x4 => 76
  | Double4x2 => 77 | Double4x3 => 78 | Double4x4 => 79
  end.

(** [static_cast<DataType>(idx)].  An integer that is the value of no
    enumerator has no counterpart in the inductive type; the embedding
    sends it to [Undefined].  Every cast of the source is applied to an
    index inside the enumeration (see [VectorDataType_idx_range] and
    [MatrixDataType_idx_range] below). *)
Definition to_DataType (idx : Z) : DataType :=
  if idx <? 0 then Undefined
  else nth (Z.to_nat idx) enumerators Undefined.

(** Comparison of enumerators, as the relational operators on a scoped
    enumeration compare the underlying values. *)
Definition between (lo t hi : DataType) : bool :=
  (Idx lo <=? Idx t) && (Idx t <=? Idx hi).

Definition IsScalarType (t : DataType) : bool := between Bool t Double.
Definition IsVectorType (t : DataType) : bool := between Bool2 t Double4.
Definition IsMatrixType (t : DataType) : bool := between Bool2x2 t Double4x4.

Definition VectorTypeDim (t : DataType) : Z :=
  match t with
  | Bool | Int | UInt | Half | Float | Double => 1
  | Bool2 | Int2 | UInt2 | Half2 | Float2 | Double2 => 2
  | Bool3 | Int3 | UInt3 | Half3 | Float3 | Double3 => 3
  | Bool4 | Int4 | UInt4 | Half4 | Float4 | Double4 => 4
  | _ => 0
  end.

Definition MatrixTypeDim (t : DataType) : Z * Z :=
  match t with
  | Bool | Int | UInt | Half | Float | Double => (1, 1)
  | Bool2 | Int2 | UInt2 | Half2 | Float2 | Double2 => (2, 1)
  | Bool3 | Int3 | UInt3 | Half3 | Float3 | Double3 => (3, 1)
  | Bool4 | Int4 | UInt4 | Half4 | Float4 | Double4 => (4, 1)
  | Bool2x2 | Int2x2 | UInt2x2 | Half2x2 | Float2x2 | Double2x2 => (2, 2)
  | Bool2x3 | Int2x3 | UInt2x3 | Half2x3 | Float2x3 | Double2x3 => (2, 3)
  | Bool2x4 | Int2x4 | UInt2x4 | Half2x4 | Float2x4 | Double2x4 => (2, 4)
  | Bool3x2 | Int3x2 | UInt3x2 | Half3x2 | Float3x2 | Double3x2 => (3, 2)
  | Bool3x3 | Int3x3 | UInt3x3 | Half3x3 | Float3x3 | Double3x3 => (3, 3)
  | Bool3x4 | Int3x4 | UInt3x4 | Half3x4 | Float3x4 | Double3x4 => (3, 4)
  | Bool4x2 | Int4x2 | UInt4x2 | Half4x2 | Float4x2 | Double4x2 => (4, 2)
  | Bool4x3 | Int4x3 | UInt4x3 | Half4x3 | Float4x3 | Double4x3 => (4, 3)
  | Bool4x4 | Int4x4 | UInt4x4 | Half4x4 | Float4x4 | Double4x4 => (4, 4)
  | _ => (0, 0)
  end.

(** The macro [FIND_BASETYPE(TYPENAME)] of [BaseDataType]: the test
    whether [t] is a vector or a matrix over the scalar whose vector row
    is [v2..v4] and whose matrix block is [m2x2..m4x4]. *)
Definition FIND_BASETYPE (t v2 v4 m2x2 m4x4 : DataType) : bool :=
  between v2 t v4 || between m2x2 t m4x4.

Definition BaseDataType (t : DataType) : DataType :=
  if FIND_BASETYPE t Bool2 Bool4 Bool2x2 Bool4x4 then Bool
  else if FIND_BASETYPE t Int2 Int4 Int2x2 Int4x4 then Int
  else if FIND_BASETYPE t UInt2 UInt4 UInt2x2 UInt4x4 then UInt
  else if FIND_BASETYPE t Half2 Half4 Half2x2 Half4x4 then Half
  else if FIND_BASETYPE t Float2 Float4 Float2x2 Float4x4 then Float
  else if FIND_BASETYPE t Double2 Double4 Double2x2 Double4x4 then Double
  else t.

Definition VectorDataType (baseDataType : DataType) (vectorSize : Z) : DataType :=
  if IsScalarType baseDataType then
    if (2 <=? vectorSize) && (vectorSize <=? 4) then
      let offset := Idx baseDataType - Idx Bool in
      let idx := Idx Bool2 + offset * 3 + (vectorSize - 2) in
      to_DataType idx
    else if vectorSize =? 1 then baseDataType
    else Undefined
  else Undefined.

Definition MatrixDataType (baseDataType : DataType) (rows columns : Z) : DataType :=
  if IsScalarType baseDataType then
    if (rows =? 1) && (columns =? 1) then baseDataType
    else if rows =? 1 then VectorDataType baseDataType columns
    else if columns =? 1 then VectorDataType baseDataType rows
    else if (2 <=? rows) && (rows <=? 4) && (2 <=? columns) && (columns <=? 4) then
      let offset := Idx baseDataType - Idx Bool in
      let idx := Idx Bool2x2 + offset * 9 + (rows - 2) * 3 + (columns - 2) in
      to_DataType idx
    else Undefined
  else Undefined.

(* ================================================================== *)
(** * Exceptions and [std::string] *)
(* ================================================================== *)

(** A computation that either returns or throws.  [E] is what the
    exception carries. *)
Inductive result (E A : Type) : Type :=
  | OK (a : A)
  | Throw (e : E).
Arguments OK {E A} a.
Arguments Throw {E A} e.

Definition bind {E A B} (m : result E A) (k : A -> result E B) : result E B :=
  match m with
  | OK a => k a
  | Throw e => Throw e
  end.

Notation "'do' x <- m ; k" := (bind m (fun x => k))
  (at level 10, x pattern, m at level 100, k at level 200).

Module Std.

(** [size_t] is [nat] and [int] is [Z] throughout. *)
Definition size (s : string) : nat := String.length s.

Definition NUL : ascii := "000"%char.

(** [s[i]]: the character at position [i < size()], and the
    terminating null character at [i = size()] (C++11).  Positions
    beyond that are undefined behaviour in C++ and are never read. *)
Definition at_ (s : string) (i : nat) : ascii :=
  match String.get i s with
  | Some c => c
  | None => NUL
  end.

Definition empty (s : string) : bool := (size s =? 0)%nat.

(** [s.back()], defined on non-empty strings. *)
Definition back (s : string) : ascii := at_ s (size s - 1).

(** [s.resize(n)]: keep the first [n] characters, pad with nulls. *)
Fixpoint resize (s : string) (n : nat) : string :=
  match n with
  | O => EmptyString
  | S n' =>
      match s with
      | EmptyString => String NUL (resize EmptyString n')
      | String c s' => String c (resize s' n')
      end
  end.

(** [s.find(chr)]: position of the first occurrence, [None] for [npos]. *)
Fixpoint find (s : string) (chr : ascii) : option nat :=
  match s with
  | EmptyString => None
  | String c s' =>
      if Ascii.eqb c chr then Some O
      else match find s' chr with
           | Some p => Some (S p)
           | None => None
           end
  end.

(** [s.find_last_not_of(set)]: the last position whose character does
    not occur in [set], [None] for [npos]. *)
Fixpoint find_last_not_of (s set : string) : option nat :=
  match s with
  | EmptyString => None
  | String c s' =>
      match find_last_not_of s' set with
      | Some p => Some (S p)
      | None =>
          match find set c with
          | Some _ => None
          | None => Some O
          end
      end
  end.

(** [s.substr(pos, n)] and [s.substr(pos)], for [pos <= size()]. *)
Definition substr (s : string) (pos n : nat) : string := String.substring pos n s.
Definition substr_from (s : string) (pos : nat) : string :=
  String.substring pos (size s - pos) s.

(** The value of a [char] converted to [int] (a signed 8-bit [char]). *)
Definition char_to_int (c : ascii) : Z :=
  let n := Z.of_N (N_of_ascii c) in
  if n <? 128 then n else n - 256.

(** [::toupper] in the "C" locale. *)
Definition toupper (c : ascii) : ascii :=
  let n := N_of_ascii c in
  if ((97 <=? n) && (n <=? 122))%N then ascii_of_N (n - 32) else c.

(** [std::transform(s.begin(), s.end(), s.begin(), ::toupper)]. *)
Fixpoint transform_toupper (s : string) : string :=
  match s with
  | EmptyString => EmptyString
  | String c s' => String (toupper c) (transform_toupper s')
  end.

Definition isdigit (c : ascii) : bool :=
  let n := N_of_ascii c in ((48 <=? n) && (n <=? 57))%N.

Definition isspace (c : ascii) : bool :=
  let n := N_of_ascii c in ((n =? 32) || ((9 <=? n) && (n <=? 13)))%N.

(** The digit loop of [atoi]: accumulate while decimal digits follow. *)
Fixpoint atoi_digits (s : string) (acc : Z) : Z :=
  match s with
  | EmptyString => acc
  | String c s' =>
      if isdigit c
      then atoi_digits s' (acc * 10 + (Z.of_N (N_of_ascii c) - 48))
      else acc
  end.

Fixpoint skip_spaces (s : string) : string :=
  match s with
  | EmptyString => EmptyString
  | String c s' => if isspace c then skip_spaces s' else s
  end.

(** [std::atoi]: leading white space, an optional sign, decimal
    digits.  The result is the mathematical value; [atoi] is undefined
    when that value does not fit an [int]. *)
Definition atoi (s : string) : Z :=
  match skip_spaces s with
  | EmptyString => 0
  | String c s' =>
      if Ascii.eqb c "-" then - atoi_digits s' 0
      else if Ascii.eqb c "+" then atoi_digits s' 0
      else atoi_digits (String c s') 0
  end.

(** [std::to_string(int)]: decimal digits, a leading minus sign for
    negative values. *)
Definition to_string (n : Z) : string := NilZero.string_of_int (Z.to_int n).

End Std.

(* ================================================================== *)
(** * Subscripts of vectors and matrices *)
(* ================================================================== *)

(** The messages passed to [InvalidArg], which throws
    [std::invalid_argument].  The report identifiers keep their names and
    arguments; their wording lives in ReportIdents.h.  Where the source
    passes [DataTypeToString(dataType)], the data type itself is kept. *)
Inductive Report : Type :=
  | R_VectorSubscriptCantHaveNComps (subscriptSize : nat)
  | R_InvalidVectorDimension (vectorSize : Z)
  | R_InvalidVectorSubscript (subscript : string) (dataType : DataType)
  | R_InvalidMatrixDimension (rows cols : Z)
  | R_IncompleteMatrixSubscript (s : string)
  | R_InvalidCharInMatrixSubscript (chr : string) (s : string) (base : option string).

Definition InvalidArg {A} (r : Report) : result Report A := Throw r.

(** The lambda [IsValidSubscript] of [SubscriptDataTypeVector]; the loop
    over the characters of the captured [subscript] is the recursion. *)
Fixpoint IsValidSubscript_loop (subscript compareSubscript : string) : bool :=
  match subscript with
  | EmptyString => true
  | String chr rest =>
      match Std.find compareSubscript chr with
      | None => false
      | Some _ => IsValidSubscript_loop rest compareSubscript
      end
  end.

Definition IsValidSubscript (subscript compareSubscript : string) (vectorSize : Z) : bool :=
  let compareSubscript := Std.resize compareSubscript (Z.to_nat vectorSize) in
  IsValidSubscript_loop subscript compareSubscript.

Definition SubscriptDataTypeVector
    (dataType : DataType) (subscript : string) (vectorSize : Z) : result Report DataType :=
  let subscriptSize := Std.size subscript in
  if ((subscriptSize <? 1) || (4 <? subscriptSize))%nat then
    InvalidArg (R_VectorSubscriptCantHaveNComps subscriptSize)
  else if (vectorSize <? 1) || (4 <? vectorSize) then
    InvalidArg (R_InvalidVectorDimension vectorSize)
  else
    let validSubscript :=
      IsValidSubscript subscript "xyzw" vectorSize ||
      IsValidSubscript subscript "rgba" vectorSize in
    if negb validSubscript then
      InvalidArg (R_InvalidVectorSubscript subscript dataType)
    else
      OK (VectorDataType (BaseDataType dataType) (Z.of_nat subscriptSize)).

(** One round of the [for (int j = 0; j < 2; ++j)] loop inside
    [ParseNextSubscript]: check the digit at [i] and step over it. *)
Definition ParseDigit (s : string) (i : nat) (zeroBase : Z) : result Report nat :=
  let c := Std.char_to_int (Std.at_ s i) in
  if (c <? Std.char_to_int "0" + zeroBase) || (Std.char_to_int "3" + zeroBase <? c) then
    InvalidArg
      (R_InvalidCharInMatrixSubscript
         (String (Std.at_ s i) EmptyString) s
         (Some (if zeroBase =? 0 then "zero"%string else "one"%string)))
  else OK (S i).

(** The lambda [ParseNextSubscript]: the index [i], passed by reference
    in the source, is returned. *)
Definition ParseNextSubscript (s : string) (i : nat) : result Report nat :=
  if (Std.size s <? i + 3)%nat then
    InvalidArg (R_IncompleteMatrixSubscript s)
  else if negb (Ascii.eqb (Std.at_ s i) "_") then
    InvalidArg (R_InvalidCharInMatrixSubscript (String (Std.at_ s i) EmptyString) s None)
  else
    let i := S i in
    do (i, zeroBase) <-
      (if Ascii.eqb (Std.at_ s i) "m" then
         let i := S i in
         if (Std.size s <? i + 2)%nat then InvalidArg (R_IncompleteMatrixSubscript s)
         else OK (i, 0)
       else OK (i, 1));
    do i <- ParseDigit s i zeroBase;
    do i <- ParseDigit s i zeroBase;
    OK i.

Lemma ParseNextSubscript_progress (s : string) (i i' : nat) :
  ParseNextSubscript s i = OK i' -> (i < i' <= Std.size s)%nat.
Proof.
  unfold ParseNextSubscript, ParseDigit, InvalidArg.
  destruct (Nat.ltb_spec (Std.size s) (i + 3)); [discriminate|].
  destruct (negb _); [discriminate|].
  destruct (Ascii.eqb (Std.at_ s (S i)) "m").
  - destruct (Nat.ltb_spec (Std.size s) (S (S i) + 2)); [discriminate|].
    cbn [bind].
    repeat (match goal with |- context [if ?b then _ else _] => destruct b end;
            cbn [bind]; try discriminate).
    intros [= <-]. lia.
  - cbn [bind].
    repeat (match goal with |- context [if ?b then _ else _] => destruct b end;
            cbn [bind]; try discriminate).
    intros [= <-]. lia.
Qed.

Definition inspect {A} (a : A) : {b : A | a = b} := exist _ a eq_refl.

(** The loop
    [for (std::size_t i = 0; i < subscript.size(); ++vectorSize)
         ParseNextSubscript(subscript, i);]
    of [SubscriptDataTypeMatrix].  It terminates because every
    successful call moves [i] forward. *)
Equations SubscriptLoop (subscript : string) (i : nat) (vectorSize : Z)
  : result Report Z by wf (Std.size subscript - i)%nat lt :=
  SubscriptLoop subscript i vectorSize with inspect (i <? Std.size subscript)%nat := {
    | exist _ false _ => OK vectorSize
    | exist _ true Hlt with inspect (ParseNextSubscript subscript i) := {
        | exist _ (Throw e) _ => Throw e
        | exist _ (OK i') Hp => SubscriptLoop subscript i' (vectorSize + 1) } }.
Next Obligation.
  apply ParseNextSubscript_progress in Hp. lia.
Qed.

Definition SubscriptDataTypeMatrix
    (dataType : DataType) (subscript : string) (rows cols : Z) : result Report DataType :=
  if (rows <? 1) || (4 <? rows) || (cols <? 1) || (4 <? cols) then
    InvalidArg (R_InvalidMatrixDimension rows cols)
  else
    do vectorSize <- SubscriptLoop subscript 0 0;
    OK (VectorDataType (BaseDataType dataType) vectorSize).

Definition SubscriptDataType (dataType : DataType) (subscript : string)
  : result Report DataType :=
  let matrixDim := MatrixTypeDim dataType in
  if snd matrixDim =? 1 then
    SubscriptDataTypeVector dataType subscript (fst matrixDim)
  else
    SubscriptDataTypeMatrix dataType subscript (fst matrixDim) (snd matrixDim).

(* ================================================================== *)
(** * Literal tokens *)
(* ================================================================== *)

Module Token.

(** Modelled from the spec: the class [Token] (Token.h) is not part of
    the sources.  Section 3.2 of the specification gives a
    token a kind from a closed set (identifier, keyword, the four
    literal kinds, punctuation) and its exact lexeme; the four literal
    kinds carry the names that [TokenToDataType] uses. *)
Inductive Types : Set :=
  | Ident
  | Keyword
  | BoolLiteral
  | IntLiteral
  | FloatLiteral
  | StringLiteral
  | Punctuation.

Record t : Set := mk { Type_ : Types; Spell : string }.

End Token.

Definition IntLiteralTokenToDataType (tkn : Token.t) : DataType :=
  let s := Token.Spell tkn in
  if negb (Std.empty s) then
    if Ascii.eqb (Std.back s) "u" || Ascii.eqb (Std.back s) "U" then UInt
    else Int
  else Int.

Definition FloatLiteralTokenToDataType (tkn : Token.t) : DataType :=
  let s := Token.Spell tkn in
  if negb (Std.empty s) then
    if Ascii.eqb (Std.back s) "f" || Ascii.eqb (Std.back s) "F" then Float
    else if Ascii.eqb (Std.back s) "h" || Ascii.eqb (Std.back s) "H" then Half
    else Double
  else Double.

Definition TokenToDataType (tkn : Token.t) : DataType :=
  match Token.Type_ tkn with
  | Token.BoolLiteral => Bool
  | Token.IntLiteral => IntLiteralTokenToDataType tkn
  | Token.FloatLiteral => FloatLiteralTokenToDataType tkn
  | Token.StringLiteral => String_
  | _ => Undefined
  end.

(* ================================================================== *)
(** * Semantics and indexed semantics *)
(* ================================================================== *)

Module Semantic.

(** The enumerators that [SemanticToString] switches over. *)
Inductive t : Set :=
  | Undefined
  | UserDefined
  | ClipDistance | CullDistance | Coverage | Depth
  | DepthGreaterEqual | DepthLessEqual | DispatchThreadID | DomainLocation
  | GroupID | GroupIndex | GroupThreadID | GSInstanceID
  | InnerCoverage | InsideTessFactor | InstanceID | IsFrontFace
  | OutputControlPointID | FragCoord | PrimitiveID | RenderTargetArrayIndex
  | SampleIndex | StencilRef | Target | TessFactor
  | VertexID | VertexPosition | ViewportArrayIndex.

#[global] Instance eq_dec : EqDecision t.
Proof. solve_decision. Defined.

End Semantic.

(** The report strings [R_Undefined] and [R_UserDefined] that
    [SemanticToString] returns for the two semantics that are no system
    values.  They are declared in ReportIdents.h, which is not part of the
    sources, and the specification does not give their wording: the code
    below takes them as parameters. *)
Class ReportIdents : Type := {
  R_Undefined : string;
  R_UserDefined : string
}.

(** The macro [CASE_TO_STRING(IDENT)]. *)
Definition CASE_TO_STRING (ident : string) : string := "SV_" ++ ident.

Definition SemanticToString `{ReportIdents} (t : Semantic.t) : string :=
  match t with
  | Semantic.Undefined => R_Undefined
  | Semantic.UserDefined => R_UserDefined
  | Semantic.ClipDistance => CASE_TO_STRING "ClipDistance"
  | Semantic.CullDistance => CASE_TO_STRING "CullDistance"
  | Semantic.Coverage => CASE_TO_STRING "Coverage"
  | Semantic.Depth => CASE_TO_STRING "Depth"
  | Semantic.DepthGreaterEqual => CASE_TO_STRING "DepthGreaterEqual"
  | Semantic.DepthLessEqual => CASE_TO_STRING "DepthLessEqual"
  | Semantic.DispatchThreadID => CASE_TO_STRING "DispatchThreadID"
  | Semantic.DomainLocation => CASE_TO_STRING "DomainLocation"
  | Semantic.GroupID => CASE_TO_STRING "GroupID"
  | Semantic.GroupIndex => CASE_TO_STRING "GroupIndex"
  | Semantic.GroupThreadID => CASE_TO_STRING "GroupThreadID"
  | Semantic.GSInstanceID => CASE_TO_STRING "GSInstanceID"
  | Semantic.InnerCoverage => CASE_TO_STRING "InnerCoverage"
  | Semantic.InsideTessFactor => CASE_TO_STRING "InsideTessFactor"
  | Semantic.InstanceID => CASE_TO_STRING "InstanceID"
  | Semantic.IsFrontFace => CASE_TO_STRING "IsFrontFace"
  | Semantic.OutputControlPointID => CASE_TO_STRING "OutputControlPointID"
  | Semantic.FragCoord => CASE_TO_STRING "FragCoord"
  | Semantic.PrimitiveID => CASE_TO_STRING "PrimitiveID"
  | Semantic.RenderTargetArrayIndex => CASE_TO_STRING "RenderTargetArrayIndex"
  | Semantic.SampleIndex => CASE_TO_STRING "SampleIndex"
  | Semantic.StencilRef => CASE_TO_STRING "StencilRef"
  | Semantic.Target => CASE_TO_STRING "Target"
  | Semantic.TessFactor => CASE_TO_STRING "TessFactor"
  | Semantic.VertexID => CASE_TO_STRING "VertexID"
  | Semantic.VertexPosition => CASE_TO_STRING "VertexPosition"
  | Semantic.ViewportArrayIndex => CASE_TO_STRING "ViewportArrayIndex"
  end.

Module IndexedSemantic.

(** The data members [semantic_], [index_] and [userDefined_]. *)
Record t : Set := mk {
  semantic_ : Semantic.t;
  index_ : Z;
  userDefined_ : string
}.

(** The value that [index_] has when a constructor does not set it:
    the default member initialiser of the class declaration
    (ASTEnums.h), which is not part of the sources.  The code below
    takes it as a parameter. *)
Class MemberInit : Type := { index_default : Z }.

(** [IndexedSemantic(Semantic semantic, int index)]. *)
Definition from_semantic (semantic : Semantic.t) (index : Z) : t :=
  {| semantic_ := semantic; index_ := index; userDefined_ := EmptyString |}.

(** [IndexedSemantic(const std::string& userDefined)]. *)
Definition from_string `{MemberInit} (userDefined : string) : t :=
  match Std.find_last_not_of userDefined "0123456789" with
  | Some pos =>
      if (pos + 1 <? Std.size userDefined)%nat then
        let pos := S pos in
        let indexStr := Std.substr_from userDefined pos in
        {| semantic_ := Semantic.UserDefined;
           index_ := Std.atoi indexStr;
           userDefined_ := Std.substr userDefined 0 pos |}
      else
        {| semantic_ := Semantic.UserDefined;
           index_ := index_default;
           userDefined_ := userDefined |}
  | None =>
      {| semantic_ := Semantic.UserDefined;
         index_ := index_default;
         userDefined_ := userDefined |}
  end.

(** [IndexedSemantic(const IndexedSemantic& rhs, int index)]. *)
Definition with_index (rhs : t) (index : Z) : t :=
  {| semantic_ := semantic_ rhs; index_ := index; userDefined_ := userDefined_ rhs |}.

Definition ToString `{ReportIdents} (this : t) : string :=
  let s :=
    if decide (semantic_ this = Semantic.UserDefined)
    then Std.transform_toupper (userDefined_ this)
    else SemanticToString (semantic_ this) in
  s ++ Std.to_string (index_ this).

End IndexedSemantic.

(* ================================================================== *)
(** * The GLSL emitter *)
(* ================================================================== *)

Module GLSLGenerator.

(** The enumeration [Intrinsic] is declared in ASTEnums.h, which is
    not part of the sources.  The emitter routines below need its
    values as keys of a map, and the enumerator [Clip]; they take the
    enumeration as a parameter. *)
Class IntrinsicEnum : Type := {
  Intrinsic : Type;
  Intrinsic_eq_dec :: EqDecision Intrinsic;
  Intrinsic_countable :: Countable Intrinsic;
  Clip : Intrinsic
}.

(** Modelled from the spec: [IntrinsicUsage], the value type of
    [Program::usedIntrinsics], is declared in a header that is not part
    of the sources; by section 3.7 of the specification it holds the
    argument-type signatures an intrinsic was called with. *)
Definition IntrinsicUsage : Type := list (list DataType).

Section Emitter.

(** Expression nodes; the emitter hands them to [Visit]. *)
Variable Expr : Type.

(** What the emitter does to its output, call by call.  The writer
    ([Write], [WriteLn], [Blank]) belongs to the base class
    [Generator] and [Visit] to the visitor interface; a call is
    recorded with its argument. *)
Inductive Emit : Type :=
  | E_Write (text : string)
  | E_WriteLn (text : string)
  | E_Blank
  | E_Visit (ast : Expr).

(** An emitter routine: it extends the record of calls, or it throws
    the message of an error. *)
Definition Gen (A : Type) : Type := list Emit -> result string (A * list Emit).

Definition ret {A} (a : A) : Gen A := fun out => OK (a, out).

Definition seq {A B} (m : Gen A) (k : A -> Gen B) : Gen B :=
  fun out =>
    match m out with
    | OK (a, out') => k a out'
    | Throw msg => Throw msg
    end.

Definition emit (e : Emit) : Gen unit := fun out => OK (tt, out ++ [e]).

Definition Write (text : string) : Gen unit := emit (E_Write text).
Definition WriteLn (text : string) : Gen unit := emit (E_WriteLn text).
Definition Blank : Gen unit := emit E_Blank.
Definition Visit (ast : Expr) : Gen unit := emit (E_Visit ast).

(** Modelled from the spec: [Generator::Error] is not part of the
    sources; by section 7 of the specification an emitter error
    aborts the pipeline by unwinding with its message.  The AST node
    that the source passes along only locates the message. *)
Definition Error {A} (msg : string) : Gen A := fun _ => Throw msg.

(** Runs a routine on an empty record. *)
Definition run {A} (m : Gen A) : result string (list Emit) :=
  match m [] with
  | OK (_, out) => OK out
  | Throw msg => Throw msg
  end.

Local Notation "m1 >> m2" := (seq m1 (fun _ => m2))
  (at level 65, right associativity).

(** A variable identifier with its optional successor ([a.b.c]). *)
#[warnings="-register-all"] Inductive VarIdent : Type :=
  | mkVarIdent (ident : string) (next : option VarIdent).

Definition ident (v : VarIdent) : string := let 'mkVarIdent i _ := v in i.
Definition next (v : VarIdent) : option VarIdent := let 'mkVarIdent _ n := v in n.

(** The members of [FunctionCall] that [WriteFunctionCallIntrinsicTex]
    reads.  [varIdent] is not null on the calls flagged [isTexFunc]. *)
Record FunctionCall : Type := mkFunctionCall {
  varIdent : VarIdent;
  arguments : list Expr
}.

Context `{IntrinsicEnum}.

(** The members of [Program] that [AppendAllReferencedIntrinsics]
    reads. *)
Record Program : Type := mkProgram {
  usedIntrinsics : gmap Intrinsic IntrinsicUsage
}.

(** The double quote character, for messages that quote a name. *)
Definition dquote : string := String (ascii_of_nat 34) EmptyString.

(** [EstablishMaps]: the table [texFuncMap_]. *)
Definition texFuncMap_ : gmap string string :=
  list_to_map
    [ ("GetDimensions ", "textureSize");
      ("Load",           "texelFetch");
      ("Sample",         "texture");
      ("SampleBias",     "textureOffset");
      ("SampleGrad",     "textureGrad");
      ("SampleLevel",    "textureLod") ]%string.

Definition AppendClipIntrinsics : Gen unit :=
  WriteLn "void clip(float x) { if (x < 0.0) discard; }" >>
  fold_right
    (fun typeName rest =>
       WriteLn ("void clip(" ++ typeName ++ " x) { if (any(lessThan(x, "
                ++ typeName ++ "(0.0)))) discard; }") >> rest)
    (ret tt) ["vec2"; "vec3"; "vec4"]%string >>
  Blank.

Definition AppendAllReferencedIntrinsics (ast : Program) : Gen unit :=
  let Used (intr : Intrinsic) : bool :=
    match usedIntrinsics ast !! intr with
    | Some _ => true
    | None => false
    end in
  if Used Clip then AppendClipIntrinsics else ret tt.

(** The parameter [ast] of the source only locates the error. *)
Definition ValidateRegisterPrefix (registerName : string) (prefix : ascii) : Gen unit :=
  if Std.empty registerName || negb (Ascii.eqb (Std.at_ registerName 0) prefix) then
    Error ("invalid register prefix '" ++ String (Std.at_ registerName 0) EmptyString
           ++ "' (expected '" ++ String prefix EmptyString ++ "')")
  else ret tt.

(** The argument loop of [WriteFunctionCallIntrinsicTex]: every
    argument is visited, and a separator follows it unless it is the
    last one. *)
Fixpoint WriteArguments (args : list Expr) : Gen unit :=
  match args with
  | [] => ret tt
  | arg :: rest =>
      Visit arg >>
      (match rest with
       | [] => ret tt
       | _ :: _ => Write ", "
       end) >>
      WriteArguments rest
  end.

Definition WriteFunctionCallIntrinsicTex (ast : FunctionCall) : Gen unit :=
  match next (varIdent ast) with
  | None => Error "missing member function in texture intrinsic"
  | Some n =>
      let memberFuncName := ident n in
      match texFuncMap_ !! memberFuncName with
      | None =>
          Error ("texture member function " ++ dquote ++ memberFuncName
                 ++ dquote ++ " is not supported")
      | Some funcName =>
          Write (funcName ++ "(") >>
          WriteArguments (arguments ast) >>
          Write ")"
      end
  end.

End Emitter.

Arguments E_Write {Expr} text.
Arguments E_WriteLn {Expr} text.
Arguments E_Blank {Expr}.
Arguments E_Visit {Expr} ast.
Arguments mkFunctionCall {Expr} varIdent arguments.
Arguments varIdent {Expr} f.
Arguments arguments {Expr} f.
Arguments run {Expr A} m.
Arguments AppendClipIntrinsics {Expr}.
Arguments AppendAllReferencedIntrinsics {Expr _} ast.
Arguments ValidateRegisterPrefix {Expr} registerName prefix.
Arguments WriteFunctionCallIntrinsicTex {Expr} ast.
Arguments WriteArguments {Expr} args.

End GLSLGenerator.

(* ================================================================== *)
(** * Vocabulary of the properties *)
(* ================================================================== *)

(** The lexeme [s] ends in the character [c]. *)
Definition ends_in (s : string) (c : ascii) : Prop :=
  exists p : string, s = (p ++ String c EmptyString)%string.

(** Every character of [s] is a decimal digit. *)
Fixpoint all_digits (s : string) : bool :=
  match s with
  | EmptyString => true
  | String c s' => Std.isdigit c && all_digits s'
  end.

(** Every character of [s] occurs in [set]. *)
Definition drawn_from (s set : string) : Prop :=
  forall c : ascii, In c (list_ascii_of_string s) -> In c (list_ascii_of_string set).

(** The first [n] characters of [set]. *)
Definition first_chars (n : Z) (set : string) : string :=
  String.substring 0 (Z.to_nat n) set.

(** The decimal digit character of [d], for [0 <= d <= 9]. *)
Definition digit_char (d : Z) : ascii := ascii_of_N (Z.to_N (48 + d)).

(** One component of a matrix subscript chain, written zero-based
    ([_mRC]) or one-based ([_RC]). *)
Definition zero_based (r c : Z) : string :=
  String "_" (String "m" (String (digit_char r) (String (digit_char c) EmptyString))).

Definition one_based (r c : Z) : string :=
  String "_" (String (digit_char r) (String (digit_char c) EmptyString)).

(** A component that is well formed on its own: row and column lie in
    [0..3] when zero-based and in [1..4] when one-based. *)
Inductive component : string -> Prop :=
  | component_zero (r c : Z) :
      0 <= r <= 3 -> 0 <= c <= 3 -> component (zero_based r c)
  | component_one (r c : Z) :
      1 <= r <= 4 -> 1 <= c <= 4 -> component (one_based r c).

(** The chain made of the components [cs], in order. *)
Definition chain (cs : list string) : string :=
  fold_right String.append EmptyString cs.

(** Sample values of the parameters, for the closed statements: the
    enumerators of [Intrinsic] that the emitter and ASTEnums.cpp name, a
    wording of the two report strings, and zero as initial index. *)
Inductive NamedIntrinsic : Set :=
  | Intrinsic_Undefined
  | Intrinsic_Abort | Intrinsic_Clip | Intrinsic_Mul | Intrinsic_Rcp | Intrinsic_Trunc
  | Intrinsic_Texture_GetDimensions | Intrinsic_Texture_QueryLodUnclamped
  | Intrinsic_StreamOutput_Append | Intrinsic_StreamOutput_RestartStrip
  | Intrinsic_InterlockedAdd | Intrinsic_InterlockedXor.

#[local] Instance NamedIntrinsic_eq_dec : EqDecision NamedIntrinsic.
Proof. solve_decision. Defined.

Definition NamedIntrinsic_to_nat (i : NamedIntrinsic) : nat :=
  match i with
  | Intrinsic_Undefined => 0 | Intrinsic_Abort => 1 | Intrinsic_Clip => 2
  | Intrinsic_Mul => 3 | Intrinsic_Rcp => 4 | Intrinsic_Trunc => 5
  | Intrinsic_Texture_GetDimensions => 6 | Intrinsic_Texture_QueryLodUnclamped => 7
  | Intrinsic_StreamOutput_Append => 8 | Intrinsic_StreamOutput_RestartStrip => 9
  | Intrinsic_InterlockedAdd => 10 | Intrinsic_InterlockedXor => 11
  end%nat.

Definition NamedIntrinsic_of_nat (n : nat) : NamedIntrinsic :=
  match n with
  | 1 => Intrinsic_Abort | 2 => Intrinsic_Clip | 3 => Intrinsic_Mul
  | 4 => Intrinsic_Rcp | 5 => Intrinsic_Trunc
  | 6 => Intrinsic_Texture_GetDimensions | 7 => Intrinsic_Texture_QueryLodUnclamped
  | 8 => Intrinsic_StreamOutput_Append | 9 => Intrinsic_StreamOutput_RestartStrip
  | 10 => Intrinsic_InterlockedAdd | 11 => Intrinsic_InterlockedXor
  | _ => Intrinsic_Undefined
  end%nat.

#[local] Instance NamedIntrinsic_countable : Countable NamedIntrinsic.
Proof.
  refine (inj_countable' NamedIntrinsic_to_nat NamedIntrinsic_of_nat _).
  intros []; reflexivity.
Defined.

Definition named_intrinsics : GLSLGenerator.IntrinsicEnum :=
  {| GLSLGenerator.Intrinsic := NamedIntrinsic;
     GLSLGenerator.Clip := Intrinsic_Clip |}.

Definition sample_reports : ReportIdents :=
  {| R_Undefined := "<undefined>"; R_UserDefined := "<user-defined>" |}.

Definition sample_init : IndexedSemantic.MemberInit :=
  {| IndexedSemantic.index_default := 0 |}.

Module ClipHelpers.
Import GLSLGenerator.

(** The overload of [clip] for the type [T] as section 4.5 of the
    specification words it. *)
Definition specified_overload (T : string) : string :=
  ("void clip(" ++ T ++ " x) { if (any(lessThan(x, " ++ T ++ "(0)))) discard; }")%string.

(** The overloads as [AppendClipIntrinsics] writes them. *)
Definition scalar_overload : string :=
  "void clip(float x) { if (x < 0.0) discard; }".

Definition vector_overload (T : string) : string :=
  ("void clip(" ++ T ++ " x) { if (any(lessThan(x, " ++ T ++ "(0.0)))) discard; }")%string.

Definition overloads : list string :=
  [ scalar_overload; vector_overload "vec2"; vector_overload "vec3";
    vector_overload "vec4" ].

(** How often the line [text] is written by [WriteLn] in a record. *)
Definition count_WriteLn {Expr} (text : string) (out : list (Emit Expr)) : nat :=
  length (List.filter (fun e => match e with
                           | E_WriteLn t => String.eqb t text
                           | _ => false
                           end) out).

(** The types for which the specification lists an overload. *)
Definition specified_types : list string := ["float"; "vec2"; "vec3"; "vec4"].

(** The record that the helpers leave: one line per overload, then a
    blank line. *)
Definition helpers {Expr} : list (Emit Expr) :=
  map E_WriteLn overloads ++ [E_Blank].

End ClipHelpers.

(** What a call [name(arg1, ..., argn)] leaves in the record: the
    arguments are visited in order, separated by [", "]. *)
Definition call_record {Expr} (name : string) (args : list Expr)
  : list (GLSLGenerator.Emit Expr) :=
  [GLSLGenerator.E_Write (name ++ "(")%string]
  ++ match args with
     | [] => []
     | a :: rest =>
         GLSLGenerator.E_Visit a
         :: flat_map (fun b => [GLSLGenerator.E_Write ", "%string; GLSLGenerator.E_Visit b]) rest
     end
  ++ [GLSLGenerator.E_Write ")"%string].

(** A texture call [receiver.method(args)]. *)
Definition texture_call {Expr} (receiver method : string) (args : list Expr)
  : GLSLGenerator.FunctionCall Expr :=
  GLSLGenerator.mkFunctionCall
    (GLSLGenerator.mkVarIdent receiver (Some (GLSLGenerator.mkVarIdent method None)))
    args.

(** The message of [ValidateRegisterPrefix] for the first character
    [found] where [expected] was required. *)
Definition register_prefix_message (found expected : ascii) : string :=
  ("invalid register prefix '" ++ String found EmptyString
   ++ "' (expected '" ++ String expected EmptyString ++ "')")%string.

(** The method names of texture objects with the free functions that the
    specification assigns to them. *)
Definition specified_texture_functions : list (string * string) :=
  [ ("Sample", "texture"); ("SampleBias", "textureOffset");
    ("SampleGrad", "textureGrad"); ("SampleLevel", "textureLod");
    ("Load", "texelFetch"); ("GetDimensions", "textureSize") ]%string.

(* ================================================================== *)
(** * Further routines of the data-type enumeration *)
(* ================================================================== *)

Definition IsBooleanType (t : DataType) : bool :=
  (Idx t =? Idx Bool) || between Bool2 t Bool4 || between Bool2x2 t Bool4x4.

Definition IsRealType (t : DataType) : bool :=
  between Half t Double || between Half2 t Double4 || between Half2x2 t Double4x4.

Definition IsHalfRealType (t : DataType) : bool :=
  (Idx t =? Idx Half) || between Half2 t Half4 || between Half2x2 t Half4x4.

Definition IsDoubleRealType (t : DataType) : bool :=
  (Idx t =? Idx Double) || between Double2 t Double4 || between Double2x2 t Double4x4.

Definition IsIntegralType (t : DataType) : bool :=
  between Int t UInt || between Int2 t UInt4 || between Int2x2 t UInt4x4.

Definition IsIntType (t : DataType) : bool :=
  (Idx t =? Idx Int) || between Int2 t Int4 || between Int2x2 t Int4x4.

Definition IsUIntType (t : DataType) : bool :=
  (Idx t =? Idx UInt) || between UInt2 t UInt4 || between UInt2x2 t UInt4x4.

Definition DoubleToFloatDataType (dataType : DataType) : DataType :=
  if Idx dataType =? Idx Double then Float
  else if between Double2 dataType Double4 then
    to_DataType (Idx dataType - Idx Double2 + Idx Float2)
  else if between Double2x2 dataType Double4x4 then
    to_DataType (Idx dataType - Idx Double2x2 + Idx Float2x2)
  else dataType.

(** The recursion of [DataTypeToString] goes from a vector or a matrix
    type to its base type, which is a scalar. *)
Definition shape_rank (t : DataType) : nat :=
  if IsScalarType t then 0%nat else 1%nat.

Lemma shape_rank_BaseDataType (t : DataType) :
  IsScalarType t = false ->
  IsVectorType t || IsMatrixType t = true ->
  (shape_rank (BaseDataType t) < shape_rank t)%nat.
Proof.
  destruct t; intros Hs Hvm; try discriminate Hs; try discriminate Hvm;
    vm_compute; constructor.
Qed.

(** [DataTypeToString].  In the recursive calls the source leaves out the
    second argument; its default value stands in the declaration
    (ASTEnums.h), which is not part of the sources, and is the parameter
    [defaultTemplateSyntax] here. *)
Equations DataTypeToString `{ReportIdents} (defaultTemplateSyntax : bool)
    (t : DataType) (useTemplateSyntax : bool) : string by wf (shape_rank t) lt :=
  DataTypeToString defaultTemplateSyntax t useTemplateSyntax
    with inspect (Idx t =? Idx String_) := {
    | exist _ true _ => "string"%string
    | exist _ false _ with inspect (IsScalarType t) := {
      | exist _ true _ =>
          match t with
          | Bool => "bool"
          | Int => "int"
          | UInt => "uint"
          | Half => "half"
          | Float => "float"
          | Double => "double"
          | _ => R_Undefined
          end%string
      | exist _ false Hscalar with inspect (IsVectorType t) := {
        | exist _ true Hvector =>
            let dim := VectorTypeDim t in
            if useTemplateSyntax then
              ("vector<"
               ++ DataTypeToString defaultTemplateSyntax (BaseDataType t) defaultTemplateSyntax
               ++ ", " ++ Std.to_string dim ++ ">")%string
            else
              (DataTypeToString defaultTemplateSyntax (BaseDataType t) defaultTemplateSyntax
               ++ Std.to_string dim)%string
        | exist _ false _ with inspect (IsMatrixType t) := {
          | exist _ true Hmatrix =>
              let dim := MatrixTypeDim t in
              if useTemplateSyntax then
                ("matrix<"
                 ++ DataTypeToString defaultTemplateSyntax (BaseDataType t) defaultTemplateSyntax
                 ++ ", " ++ Std.to_string (fst dim)
                 ++ ", " ++ Std.to_string (snd dim) ++ ">")%string
              else
                (DataTypeToString defaultTemplateSyntax (BaseDataType t) defaultTemplateSyntax
                 ++ Std.to_string (fst dim) ++ "x" ++ Std.to_string (snd dim))%string
          | exist _ false _ => R_Undefined } } } }.
Next Obligation. apply shape_rank_BaseDataType; [assumption|]. now rewrite Hvector. Qed.
Next Obligation. apply shape_rank_BaseDataType; [assumption|]. now rewrite Hvector. Qed.
Next Obligation. apply shape_rank_BaseDataType; [assumption|]. rewrite Hmatrix. apply orb_true_r. Qed.
Next Obligation. apply shape_rank_BaseDataType; [assumption|]. rewrite Hmatrix. apply orb_true_r. Qed.
(* ================================================================== *)
(** * The string tables of the operator and state enumerations *)
(* ================================================================== *)

(** [MapFailed] throws [std::invalid_argument] with the report
    [R_FailedToMap(from, to)]. *)
Inductive MapReport : Type :=
  | R_FailedToMap (from to : string).

Definition MapFailed {A} (from to : string) : result MapReport A :=
  Throw (R_FailedToMap from to).

(** The loop [for (const auto& entry : typeMap)
    if (entry.second == x) return entry.first;] over the entries of a
    map: the key of the first entry whose value is [x]. *)
Fixpoint find_second {K V : Type} `{EqDecision V} (entries : list (K * V)) (x : V)
  : option K :=
  match entries with
  | [] => None
  | entry :: rest =>
      if decide (snd entry = x) then Some (fst entry) else find_second rest x
  end.

Section MapTemplates.

(** A [std::map<K, V>] is a finite map; [find] is the lookup, and a
  range-based loop goes through [map_to_list].  C++ visits the entries
  in the order of the keys, [map_to_list] in an order of its own: the
  searches below return the same entry in every order when no two
  entries hold the value that is searched (see [find_second_Permutation]
  in the properties). *)
Context {T : Type} `{Countable T}.

Definition TypeToString (typeMap : gmap T string) (type : T) (typeName : string)
: result MapReport string :=
match typeMap !! type with
| Some s => OK s
| None => MapFailed typeName "string"
end.

Definition StringToType (typeMap : gmap T string) (str : string) (typeName : string)
: result MapReport T :=
match find_second (map_to_list typeMap) str with
| Some type => OK type
| None => MapFailed "string" typeName
end.

End MapTemplates.

Section MapTemplatesSecondary.

Context {T : Type} `{EqDecision T}.

Definition TypeToStringSecondary (typeMap : gmap string T) (type : T) (typeName : string)
: result MapReport string :=
match find_second (map_to_list typeMap) type with
| Some s => OK s
| None => MapFailed typeName "string"
end.

Definition StringToTypeSecondary (typeMap : gmap string T) (str : string) (typeName : string)
: result MapReport T :=
match typeMap !! str with
| Some type => OK type
| None => MapFailed "string" typeName
end.

End MapTemplatesSecondary.

(** The position of an enumerator in a list of all enumerators, which
    makes the enumerators the keys of a finite map. *)
Definition enum_index {A : Type} `{EqDecision A} (all : list A) (x : A) : nat :=
  match list_find (fun y => x = y) all with
  | Some (i, _) => i
  | None => 0%nat
  end.

Module AssignOp.

(** The enumerators that [g_mapAssignOp] names. *)
Inductive t : Set :=
| Set_ | Add | Sub | Mul | Div | Mod | LShift | RShift | Or | And | Xor.

#[global] Instance eq_dec : EqDecision t.
Proof. solve_decision. Defined.

Definition all : list t := [Set_; Add; Sub; Mul; Div; Mod; LShift; RShift; Or; And; Xor].

#[global] Instance countable : Countable t.
Proof.
refine (inj_countable' (enum_index all) (fun n => nth n all Set_) _).
intros []; reflexivity.
Defined.

End AssignOp.

Module BinaryOp.

(** The enumerators that [g_mapBinaryOp] and [AssignOpToBinaryOp] name. *)
Inductive t : Set :=
| Undefined
| LogicalAnd | LogicalOr | Or | Xor | And | LShift | RShift
| Add | Sub | Mul | Div | Mod
| Equal | NotEqual | Less | Greater | LessEqual | GreaterEqual.

#[global] Instance eq_dec : EqDecision t.
Proof. solve_decision. Defined.

Definition all : list t :=
[ Undefined; LogicalAnd; LogicalOr; Or; Xor; And; LShift; RShift;
  Add; Sub; Mul; Div; Mod; Equal; NotEqual; Less; Greater; LessEqual; GreaterEqual ].

#[global] Instance countable : Countable t.
Proof.
refine (inj_countable' (enum_index all) (fun n => nth n all Undefined) _).
intros []; reflexivity.
Defined.

End BinaryOp.

Module UnaryOp.

(** The enumerators that [g_mapUnaryOp] names. *)
Inductive t : Set :=
| LogicalNot | Not | Nop | Negate | Inc | Dec.

#[global] Instance eq_dec : EqDecision t.
Proof. solve_decision. Defined.

Definition all : list t := [LogicalNot; Not; Nop; Negate; Inc; Dec].

#[global] Instance countable : Countable t.
Proof.
refine (inj_countable' (enum_index all) (fun n => nth n all LogicalNot) _).
intros []; reflexivity.
Defined.

End UnaryOp.

Module CtrlTransfer.

(** The enumerators that [g_mapCtrlTransfer] names. *)
Inductive t : Set :=
| Break | Continue | Discard.

#[global] Instance eq_dec : EqDecision t.
Proof. solve_decision. Defined.

Definition all : list t := [Break; Continue; Discard].

#[global] Instance countable : Countable t.
Proof.
refine (inj_countable' (enum_index all) (fun n => nth n all Break) _).
intros []; reflexivity.
Defined.

End CtrlTransfer.

Definition g_mapAssignOp : gmap AssignOp.t string :=
  list_to_map
    [ (AssignOp.Set_,   "=");
      (AssignOp.Add,    "+=");
      (AssignOp.Sub,    "-=");
      (AssignOp.Mul,    "*=");
      (AssignOp.Div,    "/=");
      (AssignOp.Mod,    "%=");
      (AssignOp.LShift, "<<=");
      (AssignOp.RShift, ">>=");
      (AssignOp.Or,     "|=");
      (AssignOp.And,    "&=");
      (AssignOp.Xor,    "^=") ]%string.

Definition AssignOpToString (o : AssignOp.t) : result MapReport string :=
  TypeToString g_mapAssignOp o "AssignOp".

Definition StringToAssignOp (s : string) : result MapReport AssignOp.t :=
  StringToType g_mapAssignOp s "AssignOp".

Definition g_mapBinaryOp : gmap BinaryOp.t string :=
  list_to_map
    [ (BinaryOp.LogicalAnd,   "&&");
      (BinaryOp.LogicalOr,    "||");
      (BinaryOp.Or,           "|");
      (BinaryOp.Xor,          "^");
      (BinaryOp.And,          "&");
      (BinaryOp.LShift,       "<<");
      (BinaryOp.RShift,       ">>");
      (BinaryOp.Add,          "+");
      (BinaryOp.Sub,          "-");
      (BinaryOp.Mul,          "*");
      (BinaryOp.Div,          "/");
      (BinaryOp.Mod,          "%");
      (BinaryOp.Equal,        "==");
      (BinaryOp.NotEqual,     "!=");
      (BinaryOp.Less,         "<");
      (BinaryOp.Greater,      ">");
      (BinaryOp.LessEqual,    "<=");
      (BinaryOp.GreaterEqual, ">=") ]%string.

Definition BinaryOpToString (o : BinaryOp.t) : result MapReport string :=
  TypeToString g_mapBinaryOp o "BinaryOp".

Definition StringToBinaryOp (s : string) : result MapReport BinaryOp.t :=
  StringToType g_mapBinaryOp s "BinaryOp".

Definition AssignOpToBinaryOp (op : AssignOp.t) : BinaryOp.t :=
  match op with
  | AssignOp.Add => BinaryOp.Add
  | AssignOp.Sub => BinaryOp.Sub
  | AssignOp.Mul => BinaryOp.Mul
  | AssignOp.Div => BinaryOp.Div
  | AssignOp.Mod => BinaryOp.Mod
  | AssignOp.LShift => BinaryOp.LShift
  | AssignOp.RShift => BinaryOp.RShift
  | AssignOp.Or => BinaryOp.Or
  | AssignOp.And => BinaryOp.And
  | AssignOp.Xor => BinaryOp.Xor
  | _ => BinaryOp.Undefined
  end.

Definition g_mapUnaryOp : gmap UnaryOp.t string :=
  list_to_map
    [ (UnaryOp.LogicalNot, "!");
      (UnaryOp.Not,        "~");
      (UnaryOp.Nop,        "+");
      (UnaryOp.Negate,     "-");
      (UnaryOp.Inc,        "++");
      (UnaryOp.Dec,        "--") ]%string.

Definition UnaryOpToString (o : UnaryOp.t) : result MapReport string :=
  TypeToString g_mapUnaryOp o "UnaryOp".

Definition StringToUnaryOp (s : string) : result MapReport UnaryOp.t :=
  StringToType g_mapUnaryOp s "UnaryOp".

Definition g_mapCtrlTransfer : gmap CtrlTransfer.t string :=
  list_to_map
    [ (CtrlTransfer.Break,    "break");
      (CtrlTransfer.Continue, "continue");
      (CtrlTransfer.Discard,  "discard") ]%string.

Definition CtrlTransformToString (ct : CtrlTransfer.t) : result MapReport string :=
  TypeToString g_mapCtrlTransfer ct "CtrlTransfer".

Definition StringToCtrlTransfer (s : string) : result MapReport CtrlTransfer.t :=
  StringToType g_mapCtrlTransfer s "CtrlTransfer".

(** The enumerations of the sampler states ([Reflection::Filter],
    [Reflection::TextureAddressMode], [Reflection::ComparisonFunc]):
    the enumerators that the three tables name. *)
Module Reflection.

Inductive Filter : Set :=
| MinMagMipPoint | MinMagPointMipLinear | MinPointMagLinearMipPoint
| MinPointMagMipLinear | MinLinearMagMipPoint | MinLinearMagPointMipLinear
| MinMagLinearMipPoint | MinMagMipLinear | Anisotropic
| ComparisonMinMagMipPoint | ComparisonMinMagPointMipLinear
| ComparisonMinPointMagLinearMipPoint | ComparisonMinPointMagMipLinear
| ComparisonMinLinearMagMipPoint | ComparisonMinLinearMagPointMipLinear
| ComparisonMinMagLinearMipPoint | ComparisonMinMagMipLinear
| ComparisonAnisotropic | MinimumMinMagMipPoint
| MinimumMinMagPointMipLinear | MinimumMinPointMagLinearMipPoint
| MinimumMinPointMagMipLinear | MinimumMinLinearMagMipPoint
| MinimumMinLinearMagPointMipLinear | MinimumMinMagLinearMipPoint
| MinimumMinMagMipLinear | MinimumAnisotropic | MaximumMinMagMipPoint
| MaximumMinMagPointMipLinear | MaximumMinPointMagLinearMipPoint
| MaximumMinPointMagMipLinear | MaximumMinLinearMagMipPoint
| MaximumMinLinearMagPointMipLinear | MaximumMinMagLinearMipPoint
| MaximumMinMagMipLinear | MaximumAnisotropic.

#[global] Instance Filter_eq_dec : EqDecision Filter.
Proof. solve_decision. Defined.

Inductive TextureAddressMode : Set :=
| Wrap | Mirror | Clamp | Border | MirrorOnce.

#[global] Instance TextureAddressMode_eq_dec : EqDecision TextureAddressMode.
Proof. solve_decision. Defined.

Inductive ComparisonFunc : Set :=
| Never | Less | Equal | LessEqual | Greater | NotEqual | GreaterEqual
| Always.

#[global] Instance ComparisonFunc_eq_dec : EqDecision ComparisonFunc.
Proof. solve_decision. Defined.

End Reflection.

Definition g_mapFilter : gmap string Reflection.Filter :=
  list_to_map
    [ ("MIN_MAG_MIP_POINT",                           Reflection.MinMagMipPoint);
      ("MIN_MAG_POINT_MIP_LINEAR",                    Reflection.MinMagPointMipLinear);
      ("MIN_POINT_MAG_LINEAR_MIP_POINT",              Reflection.MinPointMagLinearMipPoint);
      ("MIN_POINT_MAG_MIP_LINEAR",                    Reflection.MinPointMagMipLinear);
      ("MIN_LINEAR_MAG_MIP_POINT",                    Reflection.MinLinearMagMipPoint);
      ("MIN_LINEAR_MAG_POINT_MIP_LINEAR",             Reflection.MinLinearMagPointMipLinear);
      ("MIN_MAG_LINEAR_MIP_POINT",                    Reflection.MinMagLinearMipPoint);
      ("MIN_MAG_MIP_LINEAR",                          Reflection.MinMagMipLinear);
      ("ANISOTROPIC",                                 Reflection.Anisotropic);
      ("COMPARISON_MIN_MAG_MIP_POINT",                Reflection.ComparisonMinMagMipPoint);
      ("COMPARISON_MIN_MAG_POINT_MIP_LINEAR",         Reflection.ComparisonMinMagPointMipLinear);
      ("COMPARISON_MIN_POINT_MAG_LINEAR_MIP_POINT",   Reflection.ComparisonMinPointMagLinearMipPoint);
      ("COMPARISON_MIN_POINT_MAG_MIP_LINEAR",         Reflection.ComparisonMinPointMagMipLinear);
      ("COMPARISON_MIN_LINEAR_MAG_MIP_POINT",         Reflection.ComparisonMinLinearMagMipPoint);
      ("COMPARISON_MIN_LINEAR_MAG_POINT_MIP_LINEAR",  Reflection.ComparisonMinLinearMagPointMipLinear);
      ("COMPARISON_MIN_MAG_LINEAR_MIP_POINT",         Reflection.ComparisonMinMagLinearMipPoint);
      ("COMPARISON_MIN_MAG_MIP_LINEAR",               Reflection.ComparisonMinMagMipLinear);
      ("COMPARISON_ANISOTROPIC",                      Reflection.ComparisonAnisotropic);
      ("MINIMUM_MIN_MAG_MIP_POINT",                   Reflection.MinimumMinMagMipPoint);
      ("MINIMUM_MIN_MAG_POINT_MIP_LINEAR",            Reflection.MinimumMinMagPointMipLinear);
      ("MINIMUM_MIN_POINT_MAG_LINEAR_MIP_POINT",      Reflection.MinimumMinPointMagLinearMipPoint);
      ("MINIMUM_MIN_POINT_MAG_MIP_LINEAR",            Reflection.MinimumMinPointMagMipLinear);
      ("MINIMUM_MIN_LINEAR_MAG_MIP_POINT",            Reflection.MinimumMinLinearMagMipPoint);
      ("MINIMUM_MIN_LINEAR_MAG_POINT_MIP_LINEAR",     Reflection.MinimumMinLinearMagPointMipLinear);
      ("MINIMUM_MIN_MAG_LINEAR_MIP_POINT",            Reflection.MinimumMinMagLinearMipPoint);
      ("MINIMUM_MIN_MAG_MIP_LINEAR",                  Reflection.MinimumMinMagMipLinear);
      ("MINIMUM_ANISOTROPIC",                         Reflection.MinimumAnisotropic);
      ("MAXIMUM_MIN_MAG_MIP_POINT",                   Reflection.MaximumMinMagMipPoint);
      ("MAXIMUM_MIN_MAG_POINT_MIP_LINEAR",            Reflection.MaximumMinMagPointMipLinear);
      ("MAXIMUM_MIN_POINT_MAG_LINEAR_MIP_POINT",      Reflection.MaximumMinPointMagLinearMipPoint);
      ("MAXIMUM_MIN_POINT_MAG_MIP_LINEAR",            Reflection.MaximumMinPointMagMipLinear);
      ("MAXIMUM_MIN_LINEAR_MAG_MIP_POINT",            Reflection.MaximumMinLinearMagMipPoint);
      ("MAXIMUM_MIN_LINEAR_MAG_POINT_MIP_LINEAR",     Reflection.MaximumMinLinearMagPointMipLinear);
      ("MAXIMUM_MIN_MAG_LINEAR_MIP_POINT",            Reflection.MaximumMinMagLinearMipPoint);
      ("MAXIMUM_MIN_MAG_MIP_LINEAR",                  Reflection.MaximumMinMagMipLinear);
      ("MAXIMUM_ANISOTROPIC",                         Reflection.MaximumAnisotropic) ]%string.

Definition FilterToString (t : Reflection.Filter) : result MapReport string :=
  TypeToStringSecondary g_mapFilter t "SamplerState::Filter".

Definition StringToFilter (s : string) : result MapReport Reflection.Filter :=
  StringToTypeSecondary g_mapFilter s "SamplerState::Filter".

Definition g_mapTexAddressMode : gmap string Reflection.TextureAddressMode :=
  list_to_map
    [ ("WRAP",         Reflection.Wrap);
      ("MIRROR",       Reflection.Mirror);
      ("CLAMP",        Reflection.Clamp);
      ("BORDER",       Reflection.Border);
      ("MIRROR_ONCE",  Reflection.MirrorOnce) ]%string.

Definition TexAddressModeToString (t : Reflection.TextureAddressMode)
  : result MapReport string :=
  TypeToStringSecondary g_mapTexAddressMode t "SamplerState::TextureAddressMode".

Definition StringToTexAddressMode (s : string)
  : result MapReport Reflection.TextureAddressMode :=
  StringToTypeSecondary g_mapTexAddressMode s "SamplerState::TextureAddressMode".

Definition g_mapCompareFunc : gmap string Reflection.ComparisonFunc :=
  list_to_map
    [ ("NEVER",          Reflection.Never);
      ("LESS",           Reflection.Less);
      ("EQUAL",          Reflection.Equal);
      ("LESS_EQUAL",     Reflection.LessEqual);
      ("GREATER",        Reflection.Greater);
      ("NOT_EQUAL",      Reflection.NotEqual);
      ("GREATER_EQUAL",  Reflection.GreaterEqual);
      ("ALWAYS",         Reflection.Always) ]%string.

Definition CompareFuncToString (t : Reflection.ComparisonFunc)
  : result MapReport string :=
  TypeToStringSecondary g_mapCompareFunc t "SamplerState::ComparisonFunc".

Definition StringToCompareFunc (s : string)
  : result MapReport Reflection.ComparisonFunc :=
  StringToTypeSecondary g_mapCompareFunc s "SamplerState::ComparisonFunc".

(* ================================================================== *)
(** * Register types *)
(* ================================================================== *)

Module RegisterType.

(** The enumerators that [RegisterTypeToChar] switches over. *)
Inductive t : Set :=
| Undefined
| ConstantBuffer
| TextureBuffer
| BufferOffset
| Sampler
| UnorderedAccessView.

End RegisterType.

Definition CharToRegisterType (c : ascii) : RegisterType.t :=
  if Ascii.eqb c "b" then RegisterType.ConstantBuffer
  else if Ascii.eqb c "t" then RegisterType.TextureBuffer
  else if Ascii.eqb c "c" then RegisterType.BufferOffset
  else if Ascii.eqb c "s" then RegisterType.Sampler
  else if Ascii.eqb c "u" then RegisterType.UnorderedAccessView
  else RegisterType.Undefined.

Definition RegisterTypeToChar (t : RegisterType.t) : ascii :=
  match t with
  | RegisterType.Undefined => Std.NUL
  | RegisterType.ConstantBuffer => "b"
  | RegisterType.TextureBuffer => "t"
  | RegisterType.BufferOffset => "c"
  | RegisterType.Sampler => "s"
  | RegisterType.UnorderedAccessView => "u"
  end%char.

Definition RegisterTypeToString (t : RegisterType.t) : string :=
  match t with
  | RegisterType.Undefined => ""
  | RegisterType.ConstantBuffer => "ConstantBuffer"
  | RegisterType.TextureBuffer => "TextureBuffer"
  | RegisterType.BufferOffset => "BufferOffset"
  | RegisterType.Sampler => "Sampler"
  | RegisterType.UnorderedAccessView => "UnorderedAccessView"
  end%string.

(* ================================================================== *)
(** * The order of indexed semantics *)
(* ================================================================== *)

(** The relational operators on [Semantic] compare the underlying
    values of the enumerators.  The declaration of the enumeration
    (ASTEnums.h) is not part of the sources: the values are a parameter,
    different for different enumerators. *)
Class SemanticValues : Type := {
  Semantic_value : Semantic.t -> Z;
  Semantic_value_inj :
    forall a b : Semantic.t, Semantic_value a = Semantic_value b -> a = b
}.

Module IndexedSemanticOrder.

(** [IndexedSemantic::operator <].  The comparison of [std::string]
  is lexicographic on the character codes, which is [String.ltb]. *)
Definition lt `{SemanticValues} (this rhs : IndexedSemantic.t) : bool :=
if Semantic_value (IndexedSemantic.semantic_ this)
   >? Semantic_value (IndexedSemantic.semantic_ rhs) then false
else if Semantic_value (IndexedSemantic.semantic_ this)
        <? Semantic_value (IndexedSemantic.semantic_ rhs) then true
else if IndexedSemantic.index_ this >? IndexedSemantic.index_ rhs then false
else if IndexedSemantic.index_ this <? IndexedSemantic.index_ rhs then true
else String.ltb (IndexedSemantic.userDefined_ this) (IndexedSemantic.userDefined_ rhs).

(** [IsValid] and [IsUserDefined] (through [IsUserSemantic]). *)
Definition IsValid (this : IndexedSemantic.t) : bool :=
negb (bool_decide (IndexedSemantic.semantic_ this = Semantic.Undefined)).

Definition IsUserSemantic (t : Semantic.t) : bool :=
bool_decide (t = Semantic.UserDefined).

Definition IsUserDefined (this : IndexedSemantic.t) : bool :=
IsUserSemantic (IndexedSemantic.semantic_ this).

End IndexedSemanticOrder.

(** The values of the enumerators in the order in which
    [SemanticToString] lists them, as a sample of the parameter. *)
Definition Semantic_listed : list Semantic.t :=
  [ Semantic.Undefined; Semantic.UserDefined;
    Semantic.ClipDistance; Semantic.CullDistance; Semantic.Coverage; Semantic.Depth;
    Semantic.DepthGreaterEqual; Semantic.DepthLessEqual; Semantic.DispatchThreadID;
    Semantic.DomainLocation; Semantic.GroupID; Semantic.GroupIndex;
    Semantic.GroupThreadID; Semantic.GSInstanceID; Semantic.InnerCoverage;
    Semantic.InsideTessFactor; Semantic.InstanceID; Semantic.IsFrontFace;
    Semantic.OutputControlPointID; Semantic.FragCoord; Semantic.PrimitiveID;
    Semantic.RenderTargetArrayIndex; Semantic.SampleIndex; Semantic.StencilRef;
    Semantic.Target; Semantic.TessFactor; Semantic.VertexID; Semantic.VertexPosition;
    Semantic.ViewportArrayIndex ].

Lemma Semantic_listed_inj (a b : Semantic.t) :
  Z.of_nat (enum_index Semantic_listed a) = Z.of_nat (enum_index Semantic_listed b) ->
  a = b.
Proof.
  intros Heq%Nat2Z.inj. destruct a, b; vm_compute in Heq; congruence.
Qed.

Definition sample_values : SemanticValues :=
  {| Semantic_value := fun s => Z.of_nat (enum_index Semantic_listed s);
     Semantic_value_inj := Semantic_listed_inj |}.

(* ================================================================== *)
(** * Further routines of the GLSL emitter *)
(* ================================================================== *)

Module AST.

(** [enum class Types] of the base class [AST]. *)
Inductive Types : Set :=
| Program | CodeBlock | FunctionCall | Attribute | SwitchCase | SamplerValue
| Register | PackOffset | ArrayDimension | TypeSpecifier | VarIdent
| VarDecl | BufferDecl | SamplerDecl | StructDecl | AliasDecl
| FunctionDecl | UniformBufferDecl | VarDeclStmnt | BufferDeclStmnt
| SamplerDeclStmnt | StructDeclStmnt | AliasDeclStmnt
| NullStmnt | CodeBlockStmnt | ForLoopStmnt | WhileLoopStmnt | DoWhileLoopStmnt
| IfStmnt | ElseStmnt | SwitchStmnt | ExprStmnt | ReturnStmnt | CtrlTransferStmnt
| NullExpr | ListExpr | LiteralExpr | TypeSpecifierExpr | TernaryExpr | BinaryExpr
| UnaryExpr | PostUnaryExpr | FunctionCallExpr | BracketExpr | SuffixExpr
| ArrayAccessExpr | CastExpr | VarAccessExpr | InitializerExpr.

#[global] Instance Types_eq_dec : EqDecision Types.
Proof. solve_decision. Defined.

End AST.

Module GLSLGeneratorRoutines.

Import GLSLGenerator.

Section Routines.

Variable Expr : Type.

(** [expr->Type()]: the type tag of an expression node. *)
Variable Type_ : Expr -> AST.Types.

Local Notation "m1 >> m2" := (seq Expr m1 (fun _ => m2))
(at level 65, right associativity).

(** [BRegister], [TRegister], [SRegister] and [URegister].  The call
[registerName.substr(1)] comes after the validation, which has left
by then when the name is empty. *)
Definition BRegister (registerName : string) : Gen Expr string :=
ValidateRegisterPrefix registerName "b" >> ret Expr (Std.substr_from registerName 1).

Definition TRegister (registerName : string) : Gen Expr string :=
ValidateRegisterPrefix registerName "t" >> ret Expr (Std.substr_from registerName 1).

Definition SRegister (registerName : string) : Gen Expr string :=
ValidateRegisterPrefix registerName "s" >> ret Expr (Std.substr_from registerName 1).

Definition URegister (registerName : string) : Gen Expr string :=
ValidateRegisterPrefix registerName "u" >> ret Expr (Std.substr_from registerName 1).

Definition AssertIntrinsicNumArgs (ast : FunctionCall Expr) (numArgsMin numArgsMax : nat)
: Gen Expr unit :=
if ((length (arguments ast) <? numArgsMin)%nat
  || (numArgsMax <? length (arguments ast))%nat)
then Error Expr "invalid number of arguments in intrinsic"
else ret Expr tt.

(** The lambda [WriteMulArgument] of [WriteFunctionCallIntrinsicMul]. *)
Definition WriteMulArgument (expr : Expr) : Gen Expr unit :=
let type := Type_ expr in
if bool_decide (type = AST.TernaryExpr) || bool_decide (type = AST.BinaryExpr)
 || bool_decide (type = AST.UnaryExpr) || bool_decide (type = AST.PostUnaryExpr)
then Write Expr "(" >> Visit Expr expr >> Write Expr ")"
else Visit Expr expr.

(** [WriteFunctionCallIntrinsicMul]; [arguments[0]] and [arguments[1]]
exist once the number of arguments has been asserted. *)
Definition WriteFunctionCallIntrinsicMul (ast : FunctionCall Expr) : Gen Expr unit :=
AssertIntrinsicNumArgs ast 2 2 >>
match arguments ast with
| arg0 :: arg1 :: _ =>
  Write Expr "(" >>
  WriteMulArgument arg0 >>
  Write Expr " * " >>
  WriteMulArgument arg1 >>
  Write Expr ")"
| _ => ret Expr tt
end.

End Routines.

Arguments BRegister {Expr} registerName.
Arguments TRegister {Expr} registerName.
Arguments SRegister {Expr} registerName.
Arguments URegister {Expr} registerName.
Arguments AssertIntrinsicNumArgs {Expr} ast numArgsMin numArgsMax.
Arguments WriteMulArgument {Expr} Type_ expr.
Arguments WriteFunctionCallIntrinsicMul {Expr} Type_ ast.

End GLSLGeneratorRoutines.

(* ================================================================== *)
(** * Register indices *)
(* ================================================================== *)

(** The operations of the standard library that [RegisterIndex] uses,
    with the exceptions they throw. *)
Module StdThrow.

Inductive exception : Set :=
| out_of_range
| invalid_argument.

(** [s.substr(pos)]: throws when [pos] is beyond the end of [s]. *)
Definition substr_from (s : string) (pos : nat) : result exception string :=
if (Std.size s <? pos)%nat then Throw out_of_range
else OK (Std.substr_from s pos).

(** The range of [int], of 32 bits. *)
Definition INT_MIN : Z := - 2147483648.
Definition INT_MAX : Z := 2147483647.

Definition starts_with_digit (s : string) : bool :=
match s with
| EmptyString => false
| String c _ => Std.isdigit c
end.

(** [std::stoi(str)] in base 10: leading white space, an optional sign,
  decimal digits; what follows the digits is left unread.  It throws
  [invalid_argument] when there is no digit to convert, and
  [out_of_range] when the value does not fit an [int]. *)
Definition stoi (str : string) : result exception Z :=
let '(negative, digits) :=
  match Std.skip_spaces str with
  | EmptyString => (false, EmptyString)
  | String c s' =>
      if Ascii.eqb c "-" then (true, s')
      else if Ascii.eqb c "+" then (false, s')
      else (false, String c s')
  end in
if starts_with_digit digits then
  let value :=
    if negative : bool then - Std.atoi_digits digits 0
    else Std.atoi_digits digits 0 in
  if (value <? INT_MIN) || (INT_MAX <? value) then Throw out_of_range
  else OK value
else Throw invalid_argument.

End StdThrow.

(** [GLSLGenerator::RegisterIndex]. *)
Definition RegisterIndex (registerName : string) : result StdThrow.exception Z :=
  do s <- StdThrow.substr_from registerName 1 ;
  StdThrow.stoi s.

(* ================================================================== *)
(** * Properties of the data-type algebra *)
(* ================================================================== *)

(** Splits on the outcome of every integer comparison of the goal,
    keeps the outcome as an arithmetic fact and drops the branches that
    the facts exclude. *)
Ltac compare_as_fact test yes no :=
  let Hcmp := fresh "Hcmp" in
  destruct test eqn:Hcmp; [apply yes in Hcmp | apply no in Hcmp].

Ltac case_compare :=
  repeat match goal with
    | |- context [(?a <=? ?b)] => compare_as_fact (a <=? b) Z.leb_le Z.leb_gt
    | |- context [(?a <? ?b)] => compare_as_fact (a <? b) Z.ltb_lt Z.ltb_ge
    | |- context [(?a =? ?b)] => compare_as_fact (a =? b) Z.eqb_eq Z.eqb_neq
    end;
  cbn [andb orb negb]; try lia.

Lemma to_DataType_Idx (t : DataType) : to_DataType (Idx t) = t.
Proof. destruct t; reflexivity. Qed.

Lemma Idx_enumerators (k : nat) :
  (k < length enumerators)%nat -> Idx (nth k enumerators Undefined) = Z.of_nat k.
Proof.
  intros H. do 80 (destruct k as [|k]; [reflexivity|]).
  simpl in H. lia.
Qed.

Lemma Idx_to_DataType (idx : Z) :
  0 <= idx < 80 -> Idx (to_DataType idx) = idx.
Proof.
  intros H. unfold to_DataType.
  destruct (idx <? 0) eqn:E; [lia|].
  rewrite Idx_enumerators; [lia|]. simpl. lia.
Qed.

Lemma IsScalarType_range (t : DataType) :
  IsScalarType t = true <-> Idx Bool <= Idx t <= Idx Double.
Proof. unfold IsScalarType, between. lia. Qed.

Lemma IsScalarType_cases (t : DataType) :
  IsScalarType t = true ->
  t = Bool \/ t = Int \/ t = UInt \/ t = Half \/ t = Float \/ t = Double.
Proof. destruct t; try discriminate; intros _; tauto. Qed.

(** The index that [VectorDataType] casts is the index of a vector type. *)
Lemma VectorDataType_idx_range (base : DataType) (n : Z) :
  IsScalarType base = true -> 2 <= n <= 4 ->
  Idx Bool2 <= Idx Bool2 + (Idx base - Idx Bool) * 3 + (n - 2) <= Idx Double4.
Proof. intros Hb%IsScalarType_range Hn. simpl in *. lia. Qed.

(** The index that [MatrixDataType] casts is the index of a matrix type. *)
Lemma MatrixDataType_idx_range (base : DataType) (r c : Z) :
  IsScalarType base = true -> 2 <= r <= 4 -> 2 <= c <= 4 ->
  Idx Bool2x2 <= Idx Bool2x2 + (Idx base - Idx Bool) * 9 + (r - 2) * 3 + (c - 2)
    <= Idx Double4x4.
Proof. intros Hb%IsScalarType_range Hr Hc. simpl in *. lia. Qed.

Lemma VectorDataType_one (base : DataType) :
  IsScalarType base = true -> VectorDataType base 1 = base.
Proof. intros H. unfold VectorDataType. rewrite H. reflexivity. Qed.

Lemma VectorDataType_Idx (base : DataType) (n : Z) :
  IsScalarType base = true -> 2 <= n <= 4 ->
  Idx (VectorDataType base n) = Idx Bool2 + (Idx base - Idx Bool) * 3 + (n - 2).
Proof.
  intros Hb Hn. unfold VectorDataType. rewrite Hb.
  case_compare.
  cbv zeta. apply Idx_to_DataType.
  pose proof (VectorDataType_idx_range base n Hb Hn) as Hrange. simpl in Hrange |- *. lia.
Qed.

Lemma MatrixDataType_Idx (base : DataType) (r c : Z) :
  IsScalarType base = true -> 2 <= r <= 4 -> 2 <= c <= 4 ->
  Idx (MatrixDataType base r c)
  = Idx Bool2x2 + (Idx base - Idx Bool) * 9 + (r - 2) * 3 + (c - 2).
Proof.
  intros Hb Hr Hc. unfold MatrixDataType. rewrite Hb.
  case_compare.
  cbv zeta. apply Idx_to_DataType.
  pose proof (MatrixDataType_idx_range base r c Hb Hr Hc) as Hrange. simpl in Hrange |- *. lia.
Qed.

Lemma MatrixDataType_row (base : DataType) (c : Z) :
  IsScalarType base = true -> MatrixDataType base 1 c = VectorDataType base c.
Proof.
  intros Hb. unfold MatrixDataType. rewrite Hb.
  destruct (Z.eqb_spec c 1) as [->|Hc]; simpl.
  - symmetry. now apply VectorDataType_one.
  - reflexivity.
Qed.

Lemma MatrixDataType_column (base : DataType) (r : Z) :
  IsScalarType base = true -> MatrixDataType base r 1 = VectorDataType base r.
Proof.
  intros Hb. unfold MatrixDataType. rewrite Hb.
  destruct (Z.eqb_spec r 1) as [->|Hr]; simpl.
  - symmetry. now apply VectorDataType_one.
  - reflexivity.
Qed.

(** C2. For every data type [t] that [IsVectorType] accepts, rebuilding
    the vector type from the scalar base of [t] and the dimension of [t]
    gives [t] back:
    [VectorDataType (BaseDataType t) (VectorTypeDim t) = t]. *)
Theorem VectorDataType_BaseDataType_VectorTypeDim (t : DataType) :
  IsVectorType t = true ->
  VectorDataType (BaseDataType t) (VectorTypeDim t) = t.
Proof.
  destruct t; intros H; try discriminate H; reflexivity.
Qed.

Lemma VectorDataType_BaseDataType_VectorTypeDim_witness :
  IsVectorType Float3 = true /\
  VectorDataType (BaseDataType Float3) (VectorTypeDim Float3) = Float3.
Proof.
  split; [reflexivity|].
  apply (VectorDataType_BaseDataType_VectorTypeDim Float3). reflexivity.
Defined.

(** C4. For every scalar base type: [VectorDataType base 1] is [base],
    and for [2 <= n <= 4] [VectorDataType base n] is the enumerator whose
    index is [Bool2 + (base - Bool) * 3 + (n - 2)];
    [MatrixDataType base 1 1] is [base], a matrix with one row or one
    column is the vector type of the other dimension, and for
    [2 <= r <= 4], [2 <= c <= 4] [MatrixDataType base r c] is the
    enumerator whose index is
    [Bool2x2 + (base - Bool) * 9 + (r - 2) * 3 + (c - 2)]. *)
Theorem VectorDataType_MatrixDataType_layout (base : DataType) :
  IsScalarType base = true ->
  VectorDataType base 1 = base /\
  (forall n, 2 <= n <= 4 ->
     VectorDataType base n
       = to_DataType (Idx Bool2 + (Idx base - Idx Bool) * 3 + (n - 2)) /\
     Idx (VectorDataType base n)
       = Idx Bool2 + (Idx base - Idx Bool) * 3 + (n - 2)) /\
  MatrixDataType base 1 1 = base /\
  (forall c, MatrixDataType base 1 c = VectorDataType base c) /\
  (forall r, MatrixDataType base r 1 = VectorDataType base r) /\
  (forall r c, 2 <= r <= 4 -> 2 <= c <= 4 ->
     MatrixDataType base r c
       = to_DataType (Idx Bool2x2 + (Idx base - Idx Bool) * 9 + (r - 2) * 3 + (c - 2)) /\
     Idx (MatrixDataType base r c)
       = Idx Bool2x2 + (Idx base - Idx Bool) * 9 + (r - 2) * 3 + (c - 2)).
Proof.
  intros Hb. repeat split.
  - now apply VectorDataType_one.
  - unfold VectorDataType. rewrite Hb.
    case_compare. reflexivity.
  - now apply VectorDataType_Idx.
  - unfold MatrixDataType. now rewrite Hb.
  - intros c. now apply MatrixDataType_row.
  - intros r. now apply MatrixDataType_column.
  - unfold MatrixDataType. rewrite Hb.
    case_compare. reflexivity.
  - now apply MatrixDataType_Idx.
Qed.

Lemma VectorDataType_MatrixDataType_layout_witness :
  IsScalarType Float = true /\
  VectorDataType Float 1 = Float /\
  VectorDataType Float 3 = Float3 /\
  Idx (VectorDataType Float 3) = Idx Bool2 + (Idx Float - Idx Bool) * 3 + (3 - 2) /\
  MatrixDataType Float 1 4 = Float4 /\
  MatrixDataType Float 3 4 = Float3x4 /\
  Idx (MatrixDataType Float 3 4)
    = Idx Bool2x2 + (Idx Float - Idx Bool) * 9 + (3 - 2) * 3 + (4 - 2).
Proof.
  destruct (VectorDataType_MatrixDataType_layout Float eq_refl)
    as (H1 & Hv & _ & Hrow & _ & Hm).
  destruct (Hv 3 ltac:(lia)) as [Hv1 Hv2].
  destruct (Hm 3 4 ltac:(lia) ltac:(lia)) as [Hm1 Hm2].
  refine (conj eq_refl (conj H1 (conj _ (conj Hv2 (conj _ (conj _ Hm2)))))).
  - rewrite Hv1. reflexivity.
  - rewrite Hrow. reflexivity.
  - rewrite Hm1. reflexivity.
Defined.

(* ================================================================== *)
(** * Facts about [std::string] *)
(* ================================================================== *)

Section StringFacts.

Local Open Scope string_scope.
Local Open Scope nat_scope.

Lemma append_nil (b : string) : "" ++ b = b.
Proof. reflexivity. Qed.

Lemma append_cons (c : ascii) (a b : string) : String c a ++ b = String c (a ++ b).
Proof. reflexivity. Qed.

Lemma size_cons (c : ascii) (a : string) : Std.size (String c a) = S (Std.size a).
Proof. reflexivity. Qed.

Lemma size_app (a b : string) : Std.size (a ++ b) = Std.size a + Std.size b.
Proof.
  induction a as [|c a IH]; [reflexivity|].
  rewrite append_cons, !size_cons, IH. reflexivity.
Qed.

Lemma app_empty_r (a : string) : a ++ "" = a.
Proof.
  induction a as [|c a IH]; [reflexivity|].
  now rewrite append_cons, IH.
Qed.

Lemma app_assoc_string (a b c : string) : (a ++ b) ++ c = a ++ (b ++ c).
Proof.
  induction a as [|x a IH]; [reflexivity|].
  now rewrite !append_cons, IH.
Qed.

Lemma at_cons_S (c : ascii) (s : string) (k : nat) :
  Std.at_ (String c s) (S k) = Std.at_ s k.
Proof. reflexivity. Qed.

Lemma at_app_r (p x : string) (k : nat) :
  Std.at_ (p ++ x) (Std.size p + k) = Std.at_ x k.
Proof.
  induction p as [|c p IH]; [reflexivity|].
  rewrite append_cons, size_cons. cbn [Nat.add]. now rewrite at_cons_S.
Qed.

Lemma back_cons (c : ascii) (s : string) :
  s <> "" -> Std.back (String c s) = Std.back s.
Proof.
  destruct s as [|d s]; [congruence|]. intros _.
  unfold Std.back. rewrite !size_cons. cbn [Nat.sub].
  rewrite Nat.sub_0_r. apply at_cons_S.
Qed.

Lemma back_snoc (p : string) (c : ascii) : Std.back (p ++ String c "") = c.
Proof.
  induction p as [|d p IH]; [reflexivity|].
  rewrite append_cons, back_cons; [exact IH|]. now destruct p.
Qed.

Lemma snoc_back (s : string) :
  s <> "" -> exists p, s = p ++ String (Std.back s) "".
Proof.
  induction s as [|c s IH]; [congruence|]. intros _.
  destruct s as [|d s].
  - exists "". reflexivity.
  - destruct IH as [p Hp]; [discriminate|].
    exists (String c p). rewrite back_cons by discriminate.
    rewrite append_cons. now rewrite <- Hp.
Qed.

Lemma ends_in_back (s : string) (c : ascii) :
  ends_in s c <-> Std.empty s = false /\ Std.back s = c.
Proof.
  split.
  - intros [p ->]. split; [now destruct p|apply back_snoc].
  - intros [Hne <-]. apply snoc_back. now destruct s.
Qed.

End StringFacts.

(* ================================================================== *)
(** * Literal tokens *)
(* ================================================================== *)

Lemma eqb_ends_in (s : string) (c : ascii) :
  Std.empty s = false ->
  Ascii.eqb (Std.back s) c = true <-> ends_in s c.
Proof.
  intros Hne. rewrite ends_in_back, Ascii.eqb_eq. tauto.
Qed.

Lemma IntLiteralTokenToDataType_spec (tkn : Token.t) :
  ((ends_in (Token.Spell tkn) "u" \/ ends_in (Token.Spell tkn) "U") ->
     IntLiteralTokenToDataType tkn = UInt) /\
  (~ (ends_in (Token.Spell tkn) "u" \/ ends_in (Token.Spell tkn) "U") ->
     IntLiteralTokenToDataType tkn = Int).
Proof.
  unfold IntLiteralTokenToDataType.
  destruct (Std.empty (Token.Spell tkn)) eqn:He; cbn [negb].
  - split; [|reflexivity].
    intros [H|H]; apply ends_in_back in H; destruct H; congruence.
  - pose proof (eqb_ends_in _ "u"%char He) as Hu.
    pose proof (eqb_ends_in _ "U"%char He) as HU.
    destruct (Ascii.eqb _ "u"), (Ascii.eqb _ "U"); cbn [orb];
      split; intros H; try reflexivity; exfalso;
      intuition congruence.
Qed.

Lemma FloatLiteralTokenToDataType_spec (tkn : Token.t) :
  ((ends_in (Token.Spell tkn) "f" \/ ends_in (Token.Spell tkn) "F") ->
     FloatLiteralTokenToDataType tkn = Float) /\
  ((ends_in (Token.Spell tkn) "h" \/ ends_in (Token.Spell tkn) "H") ->
     FloatLiteralTokenToDataType tkn = Half) /\
  (~ (ends_in (Token.Spell tkn) "f" \/ ends_in (Token.Spell tkn) "F" \/
      ends_in (Token.Spell tkn) "h" \/ ends_in (Token.Spell tkn) "H") ->
     FloatLiteralTokenToDataType tkn = Double).
Proof.
  unfold FloatLiteralTokenToDataType.
  destruct (Std.empty (Token.Spell tkn)) eqn:He; cbn [negb].
  - repeat split; try reflexivity;
      intros [H|H]; apply ends_in_back in H; destruct H; congruence.
  - pose proof (eqb_ends_in _ "f"%char He) as Hf.
    pose proof (eqb_ends_in _ "F"%char He) as HF.
    pose proof (eqb_ends_in _ "h"%char He) as Hh.
    pose proof (eqb_ends_in _ "H"%char He) as HH.
    destruct (Ascii.eqb_spec (Std.back (Token.Spell tkn)) "f") as [Ef|Ef];
    destruct (Ascii.eqb_spec (Std.back (Token.Spell tkn)) "F") as [EF|EF];
    destruct (Ascii.eqb_spec (Std.back (Token.Spell tkn)) "h") as [Eh|Eh];
    destruct (Ascii.eqb_spec (Std.back (Token.Spell tkn)) "H") as [EH|EH];
    try congruence; cbn [orb];
      repeat split; intros H; try reflexivity; exfalso;
      intuition congruence.
Qed.

(** C7. [TokenToDataType] maps an integer-literal token whose lexeme
    ends in 'u' or 'U' to [UInt] and every other integer-literal token to
    [Int]; it maps a float-literal token whose lexeme ends in 'f' or 'F'
    to [Float], one whose lexeme ends in 'h' or 'H' to [Half], and every
    other float-literal token to [Double]. *)
Theorem TokenToDataType_literal_suffix (tkn : Token.t) :
  (Token.Type_ tkn = Token.IntLiteral ->
     ((ends_in (Token.Spell tkn) "u" \/ ends_in (Token.Spell tkn) "U") ->
        TokenToDataType tkn = UInt) /\
     (~ (ends_in (Token.Spell tkn) "u" \/ ends_in (Token.Spell tkn) "U") ->
        TokenToDataType tkn = Int)) /\
  (Token.Type_ tkn = Token.FloatLiteral ->
     ((ends_in (Token.Spell tkn) "f" \/ ends_in (Token.Spell tkn) "F") ->
        TokenToDataType tkn = Float) /\
     ((ends_in (Token.Spell tkn) "h" \/ ends_in (Token.Spell tkn) "H") ->
        TokenToDataType tkn = Half) /\
     (~ (ends_in (Token.Spell tkn) "f" \/ ends_in (Token.Spell tkn) "F" \/
         ends_in (Token.Spell tkn) "h" \/ ends_in (Token.Spell tkn) "H") ->
        TokenToDataType tkn = Double)).
Proof.
  split; intros Hty; unfold TokenToDataType; rewrite Hty.
  - apply IntLiteralTokenToDataType_spec.
  - apply FloatLiteralTokenToDataType_spec.
Qed.

Lemma TokenToDataType_literal_suffix_witness :
  TokenToDataType (Token.mk Token.IntLiteral "42u") = UInt /\
  TokenToDataType (Token.mk Token.IntLiteral "42") = Int /\
  TokenToDataType (Token.mk Token.FloatLiteral "1.5F") = Float /\
  TokenToDataType (Token.mk Token.FloatLiteral "1.5h") = Half /\
  TokenToDataType (Token.mk Token.FloatLiteral "1.5") = Double.
Proof.
  assert (Hno : forall (s : string) (c : ascii),
             Ascii.eqb (Std.back s) c = false -> ~ ends_in s c).
  { intros s c Hb [_ He]%ends_in_back. apply Ascii.eqb_neq in Hb. contradiction. }
  refine (conj _ (conj _ (conj _ (conj _ _)))).
  - apply (TokenToDataType_literal_suffix (Token.mk Token.IntLiteral "42u"));
      [reflexivity|]. left. now exists "42"%string.
  - apply (TokenToDataType_literal_suffix (Token.mk Token.IntLiteral "42"));
      [reflexivity|]. intros [H|H]; revert H; apply Hno; reflexivity.
  - apply (TokenToDataType_literal_suffix (Token.mk Token.FloatLiteral "1.5F"));
      [reflexivity|]. right. now exists "1.5"%string.
  - apply (TokenToDataType_literal_suffix (Token.mk Token.FloatLiteral "1.5h"));
      [reflexivity|]. left. now exists "1.5"%string.
  - apply (TokenToDataType_literal_suffix (Token.mk Token.FloatLiteral "1.5"));
      [reflexivity|]. intros [H|[H|[H|H]]]; revert H; apply Hno; reflexivity.
Defined.

(* ================================================================== *)
(** * Subscripts *)
(* ================================================================== *)

(** C8. [SubscriptDataType] applied to the scalar type [Float] and the
    subscript "xyzw" throws (the subscript is invalid for that type);
    applied to [Float] and "x" it returns [Float]. *)
Theorem SubscriptDataType_Float_xyzw_x :
  SubscriptDataType Float "xyzw" = Throw (R_InvalidVectorSubscript "xyzw" Float) /\
  SubscriptDataType Float "x" = OK Float.
Proof. split; reflexivity. Qed.

Section VectorSubscripts.

Lemma find_In (set : string) (c : ascii) :
  Std.find set c <> None <-> In c (list_ascii_of_string set).
Proof.
  induction set as [|d set IH]; simpl.
  - tauto.
  - destruct (Ascii.eqb_spec d c) as [->|Hdc].
    + split; [auto|discriminate].
    + destruct (Std.find set c); split; intros H.
      * right. apply IH. discriminate.
      * discriminate.
      * congruence.
      * destruct H as [H|H]; [contradiction|]. apply IH in H. congruence.
Qed.

Lemma IsValidSubscript_loop_drawn_from (subscript compareSubscript : string) :
  IsValidSubscript_loop subscript compareSubscript = true
  <-> drawn_from subscript compareSubscript.
Proof.
  unfold drawn_from.
  induction subscript as [|chr rest IH]; simpl.
  - split; [intros _ c []|reflexivity].
  - pose proof (find_In compareSubscript chr) as Hf.
    destruct (Std.find compareSubscript chr).
    + rewrite IH. split.
      * intros H c [<-|Hc]; [apply Hf; discriminate|now apply H].
      * intros H c Hc. apply H. now right.
    + split; [discriminate|].
      intros H. exfalso. apply (proj2 Hf); [|reflexivity]. apply H. now left.
Qed.

Lemma resize_substring (s : string) (n : nat) :
  (n <= Std.size s)%nat -> Std.resize s n = String.substring 0 n s.
Proof.
  revert s. induction n as [|n IH]; intros s Hn.
  - now destruct s.
  - destruct s as [|c s]; [unfold Std.size in Hn; simpl in Hn; lia|].
    simpl. rewrite IH; [reflexivity|].
    unfold Std.size in *. simpl in Hn. lia.
Qed.

Lemma IsValidSubscript_drawn_from (subscript set : string) (vectorSize : Z) :
  (Z.to_nat vectorSize <= Std.size set)%nat ->
  IsValidSubscript subscript set vectorSize = true
  <-> drawn_from subscript (first_chars vectorSize set).
Proof.
  intros Hn. unfold IsValidSubscript, first_chars.
  rewrite resize_substring by assumption.
  apply IsValidSubscript_loop_drawn_from.
Qed.

Lemma VectorTypeDim_range (t : DataType) :
  IsScalarType t || IsVectorType t = true -> 1 <= VectorTypeDim t <= 4.
Proof. destruct t; try discriminate; intros _; simpl; lia. Qed.

Lemma VectorDataType_shape (base : DataType) (n : Z) :
  IsScalarType base = true -> 1 <= n <= 4 ->
  BaseDataType (VectorDataType base n) = base /\
  VectorTypeDim (VectorDataType base n) = n.
Proof.
  intros Hb Hn.
  assert (n = 1 \/ n = 2 \/ n = 3 \/ n = 4) as [-> | [-> | [-> | ->]]] by lia;
    destruct (IsScalarType_cases base Hb) as [-> | [-> | [-> | [-> | [-> | ->]]]]];
    split; reflexivity.
Qed.

Lemma BaseDataType_scalar (t : DataType) :
  IsScalarType t || IsVectorType t = true -> IsScalarType (BaseDataType t) = true.
Proof. destruct t; try discriminate; reflexivity. Qed.

Lemma MatrixTypeDim_vector (t : DataType) :
  IsScalarType t || IsVectorType t = true ->
  MatrixTypeDim t = (VectorTypeDim t, 1).
Proof. destruct t; try discriminate; reflexivity. Qed.

End VectorSubscripts.

(** C9. For every scalar or vector data type [t] of dimension [n] (from
    1 to 4) and every subscript of one to four characters that are all
    among the first [n] characters of "xyzw", or all among the first [n]
    characters of "rgba", [SubscriptDataTypeVector] accepts the
    subscript, whether or not characters repeat, and returns the vector
    type over the base of [t] whose dimension is the length of the
    subscript; [SubscriptDataType] takes this path for such a [t]. *)
Theorem SubscriptDataTypeVector_accepts_repetition (t : DataType) (subscript : string) :
  IsScalarType t || IsVectorType t = true ->
  (1 <= Std.size subscript <= 4)%nat ->
  drawn_from subscript (first_chars (VectorTypeDim t) "xyzw") \/
  drawn_from subscript (first_chars (VectorTypeDim t) "rgba") ->
  exists r : DataType,
    SubscriptDataTypeVector t subscript (VectorTypeDim t) = OK r /\
    SubscriptDataType t subscript = OK r /\
    r = VectorDataType (BaseDataType t) (Z.of_nat (Std.size subscript)) /\
    BaseDataType r = BaseDataType t /\
    VectorTypeDim r = Z.of_nat (Std.size subscript).
Proof.
  intros Ht Hsize Hdrawn.
  exists (VectorDataType (BaseDataType t) (Z.of_nat (Std.size subscript))).
  pose proof (VectorTypeDim_range t Ht) as Hdim.
  assert (Hvec : SubscriptDataTypeVector t subscript (VectorTypeDim t)
                 = OK (VectorDataType (BaseDataType t) (Z.of_nat (Std.size subscript)))).
  { unfold SubscriptDataTypeVector.
    destruct (Nat.ltb_spec (Std.size subscript) 1); [lia|].
    destruct (Nat.ltb_spec 4 (Std.size subscript)); [lia|].
    cbn [orb]. case_compare.
    assert (Hvalid : IsValidSubscript subscript "xyzw" (VectorTypeDim t)
                     || IsValidSubscript subscript "rgba" (VectorTypeDim t) = true).
    { apply orb_true_iff.
      destruct Hdrawn as [Hd|Hd]; [left|right];
        (apply IsValidSubscript_drawn_from; [|exact Hd]);
        change (Std.size _) with 4%nat; lia. }
    rewrite Hvalid. reflexivity. }
  destruct (VectorDataType_shape (BaseDataType t) (Z.of_nat (Std.size subscript)))
    as [Hbase Hd]; [now apply BaseDataType_scalar|lia|].
  split; [exact Hvec|]. split; [|split; [reflexivity|split]].
  - unfold SubscriptDataType. rewrite (MatrixTypeDim_vector t Ht). exact Hvec.
  - rewrite Hbase. destruct t; try discriminate Ht; reflexivity.
  - exact Hd.
Qed.

Lemma SubscriptDataTypeVector_accepts_repetition_witness :
  SubscriptDataTypeVector Float2 "xx" 2 = OK Float2 /\
  SubscriptDataTypeVector Int "rrrr" 1 = OK Int4.
Proof.
  split.
  - destruct (SubscriptDataTypeVector_accepts_repetition Float2 "xx")
      as (r & Hv & _ & -> & _); [reflexivity|vm_compute; lia| |exact Hv].
    left. intros c Hc. vm_compute in Hc |- *. tauto.
  - destruct (SubscriptDataTypeVector_accepts_repetition Int "rrrr")
      as (r & Hv & _ & -> & _); [reflexivity|vm_compute; lia| |exact Hv].
    right. intros c Hc. vm_compute in Hc |- *. tauto.
Defined.

Section MatrixSubscripts.

Local Open Scope string_scope.

(** The loop of [SubscriptDataTypeMatrix], one round unfolded. *)
Lemma SubscriptLoop_round (subscript : string) (i : nat) (vectorSize : Z) :
  SubscriptLoop subscript i vectorSize =
  if (i <? Std.size subscript)%nat then
    match ParseNextSubscript subscript i with
    | OK i' => SubscriptLoop subscript i' (vectorSize + 1)
    | Throw e => Throw e
    end
  else OK vectorSize.
Proof.
  funelim (SubscriptLoop subscript i vectorSize);
    repeat match goal with
      | H : (_ <? _)%nat = _ |- _ => rewrite H
      | H : ParseNextSubscript _ _ = _ |- _ => rewrite H
      end; reflexivity.
Qed.

(** Parsing does not look behind the index: what precedes it in the
    string only shifts the positions. *)
Lemma ParseDigit_shift (pre x : string) (k k' : nat) (zeroBase : Z) :
  ParseDigit x k zeroBase = OK k' ->
  ParseDigit (pre ++ x) (Std.size pre + k) zeroBase = OK (Std.size pre + k')%nat.
Proof.
  unfold ParseDigit, InvalidArg. rewrite at_app_r.
  destruct (_ || _); [discriminate|].
  intros [= <-]. f_equal. lia.
Qed.

Lemma ParseNextSubscript_shift (pre x : string) (k k' : nat) :
  ParseNextSubscript x k = OK k' ->
  ParseNextSubscript (pre ++ x) (Std.size pre + k) = OK (Std.size pre + k')%nat.
Proof.
  unfold ParseNextSubscript, InvalidArg.
  rewrite size_app, at_app_r.
  replace (S (Std.size pre + k)) with (Std.size pre + S k)%nat by lia.
  replace (S (Std.size pre + S k)) with (Std.size pre + S (S k))%nat by lia.
  rewrite at_app_r.
  destruct (Nat.ltb_spec (Std.size x) (k + 3));
    destruct (Nat.ltb_spec (Std.size pre + Std.size x) (Std.size pre + k + 3));
    try lia; [discriminate|].
  destruct (negb _); [discriminate|].
  destruct (Ascii.eqb (Std.at_ x (S k)) "m").
  - destruct (Nat.ltb_spec (Std.size x) (S (S k) + 2));
      destruct (Nat.ltb_spec (Std.size pre + Std.size x) (Std.size pre + S (S k) + 2));
      try lia; [discriminate|].
    cbn [bind].
    destruct (ParseDigit x (S (S k)) 0) as [k1|] eqn:Hd1; [|discriminate].
    rewrite (ParseDigit_shift pre x _ _ _ Hd1). cbn [bind].
    destruct (ParseDigit x k1 0) as [k2|] eqn:Hd2; [|discriminate].
    rewrite (ParseDigit_shift pre x _ _ _ Hd2). cbn [bind].
    now intros [= <-].
  - cbn [bind].
    destruct (ParseDigit x (S k) 1) as [k1|] eqn:Hd1; [|discriminate].
    rewrite (ParseDigit_shift pre x _ _ _ Hd1). cbn [bind].
    destruct (ParseDigit x k1 1) as [k2|] eqn:Hd2; [|discriminate].
    rewrite (ParseDigit_shift pre x _ _ _ Hd2). cbn [bind].
    now intros [= <-].
Qed.

Lemma component_size (c : string) :
  component c -> (3 <= Std.size c)%nat.
Proof. intros []; unfold zero_based, one_based, Std.size; simpl; lia. Qed.

(** A well-formed component at the head of a string is parsed whatever
    follows it, and whatever base the components before it had. *)
Lemma ParseNextSubscript_component (c rest : string) :
  component c -> ParseNextSubscript (c ++ rest) 0 = OK (Std.size c).
Proof.
  intros [r k Hr Hk|r k Hr Hk].
  - assert (r = 0 \/ r = 1 \/ r = 2 \/ r = 3) as [-> | [-> | [-> | ->]]] by lia;
    assert (k = 0 \/ k = 1 \/ k = 2 \/ k = 3) as [-> | [-> | [-> | ->]]] by lia;
    unfold ParseNextSubscript, zero_based; rewrite !append_cons, !size_cons;
    reflexivity.
  - assert (r = 1 \/ r = 2 \/ r = 3 \/ r = 4) as [-> | [-> | [-> | ->]]] by lia;
    assert (k = 1 \/ k = 2 \/ k = 3 \/ k = 4) as [-> | [-> | [-> | ->]]] by lia;
    unfold ParseNextSubscript, one_based; rewrite !append_cons, !size_cons;
    reflexivity.
Qed.

Lemma SubscriptLoop_chain (cs : list string) :
  Forall component cs ->
  forall (pre : string) (vectorSize : Z),
    SubscriptLoop (pre ++ chain cs) (Std.size pre) vectorSize
    = OK (vectorSize + Z.of_nat (length cs)).
Proof.
  induction 1 as [|c cs Hc Hcs IH]; intros pre vectorSize.
  - rewrite SubscriptLoop_round. cbn [chain fold_right].
    rewrite app_empty_r, Nat.ltb_irrefl. f_equal. simpl. lia.
  - rewrite SubscriptLoop_round. cbn [chain fold_right]. fold (chain cs).
    pose proof (component_size c Hc) as Hsize.
    rewrite !size_app.
    destruct (Nat.ltb_spec (Std.size pre) (Std.size pre + (Std.size c + Std.size (chain cs))));
      [|lia].
    pose proof (ParseNextSubscript_shift pre (c ++ chain cs) 0 (Std.size c)
                  (ParseNextSubscript_component c (chain cs) Hc)) as Hparse.
    rewrite Nat.add_0_r in Hparse. rewrite Hparse.
    rewrite <- app_assoc_string, <- size_app, IH.
    f_equal. rewrite length_cons. lia.
Qed.

Lemma MatrixTypeDim_matrix (t : DataType) :
  IsMatrixType t = true ->
  2 <= fst (MatrixTypeDim t) <= 4 /\ 2 <= snd (MatrixTypeDim t) <= 4.
Proof. destruct t; try discriminate; intros _; simpl; lia. Qed.

End MatrixSubscripts.

Section MatrixSubscriptInversion.

Local Open Scope string_scope.

Lemma ParseDigit_throw_shift (pre x : string) (k : nat) (zeroBase : Z) (e : Report) :
ParseDigit x k zeroBase = Throw e ->
exists e', ParseDigit (pre ++ x) (Std.size pre + k) zeroBase = Throw e'.
Proof.
unfold ParseDigit, InvalidArg. rewrite at_app_r.
destruct (_ || _); [eauto|discriminate].
Qed.

Lemma ParseNextSubscript_throw_shift (pre x : string) (k : nat) (e : Report) :
ParseNextSubscript x k = Throw e ->
exists e', ParseNextSubscript (pre ++ x) (Std.size pre + k) = Throw e'.
Proof.
unfold ParseNextSubscript, InvalidArg.
rewrite size_app, at_app_r.
replace (S (Std.size pre + k)) with (Std.size pre + S k)%nat by lia.
replace (S (Std.size pre + S k)) with (Std.size pre + S (S k))%nat by lia.
rewrite at_app_r.
destruct (Nat.ltb_spec (Std.size x) (k + 3));
  destruct (Nat.ltb_spec (Std.size pre + Std.size x) (Std.size pre + k + 3));
  try lia; [eauto|].
destruct (negb _); [eauto|].
destruct (Ascii.eqb (Std.at_ x (S k)) "m").
- destruct (Nat.ltb_spec (Std.size x) (S (S k) + 2));
    destruct (Nat.ltb_spec (Std.size pre + Std.size x) (Std.size pre + S (S k) + 2));
    try lia; [eauto|].
  cbn [bind].
  destruct (ParseDigit x (S (S k)) 0) as [k1|e1] eqn:Hd1.
  + rewrite (ParseDigit_shift pre x _ _ _ Hd1). cbn [bind].
    destruct (ParseDigit x k1 0) as [k2|e2] eqn:Hd2; [discriminate|].
    destruct (ParseDigit_throw_shift pre x _ _ _ Hd2) as [e' ->]. eauto.
  + destruct (ParseDigit_throw_shift pre x _ _ _ Hd1) as [e' ->]. eauto.
- cbn [bind].
  destruct (ParseDigit x (S k) 1) as [k1|e1] eqn:Hd1.
  + rewrite (ParseDigit_shift pre x _ _ _ Hd1). cbn [bind].
    destruct (ParseDigit x k1 1) as [k2|e2] eqn:Hd2; [discriminate|].
    destruct (ParseDigit_throw_shift pre x _ _ _ Hd2) as [e' ->]. eauto.
  + destruct (ParseDigit_throw_shift pre x _ _ _ Hd1) as [e' ->]. eauto.
Qed.

Lemma ParseNextSubscript_shift_inv (pre x : string) (j : nat) :
ParseNextSubscript (pre ++ x) (Std.size pre) = OK j ->
exists k', ParseNextSubscript x 0 = OK k' /\ j = (Std.size pre + k')%nat.
Proof.
intros Hj. rewrite <- (Nat.add_0_r (Std.size pre)) in Hj.
destruct (ParseNextSubscript x 0) as [k'|e] eqn:Hx.
- rewrite (ParseNextSubscript_shift pre x 0 k' Hx) in Hj.
  injection Hj as <-. eauto.
- destruct (ParseNextSubscript_throw_shift pre x 0 e Hx) as [e' He'].
  rewrite He' in Hj. discriminate Hj.
Qed.

(** The characters that [ParseDigit] lets pass. *)
Lemma ParseDigit_zero_based (c : ascii) (s : string) :
ParseDigit (String c s) 0 0 = OK 1%nat ->
exists d, 0 <= d <= 3 /\ c = digit_char d.
Proof.
unfold ParseDigit, InvalidArg. change (Std.at_ (String c s) 0) with c.
destruct c as [[] [] [] [] [] [] [] []]; intros Hc;
  first [ vm_compute in Hc; discriminate Hc
        | exists 0; split; [lia|reflexivity] | exists 1; split; [lia|reflexivity]
        | exists 2; split; [lia|reflexivity] | exists 3; split; [lia|reflexivity] ].
Qed.

Lemma ParseDigit_one_based (c : ascii) (s : string) :
ParseDigit (String c s) 0 1 = OK 1%nat ->
exists d, 1 <= d <= 4 /\ c = digit_char d.
Proof.
unfold ParseDigit, InvalidArg. change (Std.at_ (String c s) 0) with c.
destruct c as [[] [] [] [] [] [] [] []]; intros Hc;
  first [ vm_compute in Hc; discriminate Hc
        | exists 1; split; [lia|reflexivity] | exists 2; split; [lia|reflexivity]
        | exists 3; split; [lia|reflexivity] | exists 4; split; [lia|reflexivity] ].
Qed.

Lemma ParseDigit_at (s : string) (i j : nat) (zeroBase : Z) :
ParseDigit s i zeroBase = OK j ->
j = S i /\ ParseDigit (String (Std.at_ s i) "") 0 zeroBase = OK 1%nat.
Proof.
unfold ParseDigit, InvalidArg. change (Std.at_ (String (Std.at_ s i) "") 0) with (Std.at_ s i).
destruct (_ || _); [discriminate|]. intros [= <-]. split; reflexivity.
Qed.

(** What [ParseNextSubscript] accepts at the head of a string is a
  well-formed component. *)
Lemma ParseNextSubscript_head (rest : string) (j : nat) :
ParseNextSubscript rest 0 = OK j ->
exists c rest', component c /\ rest = c ++ rest' /\ j = Std.size c.
Proof.
unfold ParseNextSubscript, InvalidArg.
destruct (Nat.ltb_spec (Std.size rest) (0 + 3)) as [Hs|Hs]; [discriminate|].
destruct rest as [|a0 [|a1 [|a2 rest2]]];
  try (unfold Std.size in Hs; cbn in Hs; lia).
change (Std.at_ (String a0 (String a1 (String a2 rest2))) 0) with a0.
change (Std.at_ (String a0 (String a1 (String a2 rest2))) 1) with a1.
destruct (Ascii.eqb_spec a0 "_") as [->|]; cbn [negb]; [|discriminate].
destruct (Ascii.eqb_spec a1 "m") as [->|Hm].
- destruct (Nat.ltb_spec (Std.size (String "_" (String "m" (String a2 rest2)))) (2 + 2))
    as [Hs4|Hs4]; [discriminate|].
  destruct rest2 as [|a3 rest3]; [unfold Std.size in Hs4; cbn in Hs4; lia|].
  cbn [bind].
  destruct (ParseDigit _ 2 0) as [k1|] eqn:Hd1; [|discriminate].
  apply ParseDigit_at in Hd1 as [-> Hc2]. cbn [bind].
  destruct (ParseDigit _ 3 0) as [k2|] eqn:Hd2; [|discriminate].
  apply ParseDigit_at in Hd2 as [-> Hc3]. cbn [bind].
  intros [= <-].
  change (Std.at_ (String "_" (String "m" (String a2 (String a3 rest3)))) 2)
    with a2 in Hc2.
  change (Std.at_ (String "_" (String "m" (String a2 (String a3 rest3)))) 3)
    with a3 in Hc3.
  apply ParseDigit_zero_based in Hc2 as (r & Hr & ->).
  apply ParseDigit_zero_based in Hc3 as (k & Hk & ->).
  exists (zero_based r k), rest3. split; [now constructor|]. split; reflexivity.
- cbn [bind].
  destruct (ParseDigit _ 1 1) as [k1|] eqn:Hd1; [|discriminate].
  apply ParseDigit_at in Hd1 as [-> Hc1]. cbn [bind].
  destruct (ParseDigit _ 2 1) as [k2|] eqn:Hd2; [|discriminate].
  apply ParseDigit_at in Hd2 as [-> Hc2]. cbn [bind].
  intros [= <-].
  change (Std.at_ (String "_" (String a1 (String a2 rest2))) 1) with a1 in Hc1.
  change (Std.at_ (String "_" (String a1 (String a2 rest2))) 2) with a2 in Hc2.
  apply ParseDigit_one_based in Hc1 as (r & Hr & ->).
  apply ParseDigit_one_based in Hc2 as (k & Hk & ->).
  exists (one_based r k), rest2. split; [now constructor|]. split; reflexivity.
Qed.

Lemma SubscriptLoop_inv (n : nat) :
forall (pre rest : string) (vectorSize r : Z),
  (Std.size rest <= n)%nat ->
  SubscriptLoop (pre ++ rest) (Std.size pre) vectorSize = OK r ->
  exists cs, Forall component cs /\ rest = chain cs
             /\ r = vectorSize + Z.of_nat (length cs).
Proof.
induction n as [|n IH]; intros pre rest vectorSize r Hn;
  rewrite SubscriptLoop_round, size_app.
- destruct rest; [|rewrite size_cons in Hn; lia].
  change (Std.size "") with 0%nat. rewrite Nat.add_0_r, Nat.ltb_irrefl.
  intros [= <-]. exists []. split; [constructor|]. split; [reflexivity|cbn; lia].
- destruct (Nat.ltb_spec (Std.size pre) (Std.size pre + Std.size rest)) as [Hlt|Hge].
  + destruct (ParseNextSubscript (pre ++ rest) (Std.size pre)) as [i'|e] eqn:Hp;
      [|discriminate].
    apply ParseNextSubscript_shift_inv in Hp as (k' & Hhead & ->).
    apply ParseNextSubscript_head in Hhead as (c & rest' & Hc & -> & ->).
    pose proof (component_size c Hc) as Hsize.
    rewrite size_app in Hn.
    rewrite <- app_assoc_string, <- size_app. intros Hloop.
    apply IH in Hloop as (cs & Hcs & -> & ->); [|lia].
    exists (c :: cs). split; [now constructor|]. split; [reflexivity|].
    rewrite length_cons. lia.
  + destruct rest; [|rewrite size_cons in Hge; lia].
    intros [= <-]. exists []. split; [constructor|]. split; [reflexivity|cbn; lia].
Qed.

End MatrixSubscriptInversion.

(** C1, as the code has it.  For a matrix type, [SubscriptDataType]
    parses the chain one component at a time and checks each component
    against its own base only: [_mRC] with row and column in 0..3, or
    [_RC] with row and column in 1..4.  Nothing is carried over from one
    component to the next.  Hence [SubscriptDataType] returns a type
    exactly when the subscript is a chain of components that are well
    formed one by one, also when zero-based and one-based components
    are mixed, and the type it returns is
    [VectorDataType (BaseDataType t) n] for a chain of [n] components;
    every other subscript is rejected.  The rows and columns that a
    component names are not compared with the dimensions of the matrix
    type. *)
Theorem SubscriptDataType_matrix_criterion (t : DataType) (subscript : string) :
  IsMatrixType t = true ->
  forall r : DataType,
    SubscriptDataType t subscript = OK r <->
    exists cs : list string,
      Forall component cs /\ subscript = chain cs /\
      r = VectorDataType (BaseDataType t) (Z.of_nat (length cs)).
Proof.
  intros Ht r.
  destruct (MatrixTypeDim_matrix t Ht) as [Hrows Hcols].
  unfold SubscriptDataType, SubscriptDataTypeMatrix.
  case_compare. split.
  - destruct (SubscriptLoop subscript 0 0) as [n|e] eqn:Hloop; [|discriminate].
    cbn [bind]. intros [= <-].
    apply (SubscriptLoop_inv (Std.size subscript) EmptyString subscript 0 n) in Hloop
      as (cs & Hcs & -> & ->); [|lia].
    exists cs. repeat split; assumption || reflexivity.
  - intros (cs & Hcs & -> & ->).
    pose proof (SubscriptLoop_chain cs Hcs EmptyString 0) as Hloop.
    change (EmptyString ++ chain cs)%string with (chain cs) in Hloop.
    change (Std.size EmptyString) with 0%nat in Hloop.
    rewrite Hloop. reflexivity.
Qed.

Lemma SubscriptDataType_matrix_criterion_witness :
  SubscriptDataType Float4x4 "_m00_11" = OK Float2 /\
  ~ (exists cs, Forall component cs /\ "_m44"%string = chain cs).
Proof.
  split.
  - apply (SubscriptDataType_matrix_criterion Float4x4 "_m00_11" eq_refl Float2).
    exists [zero_based 0 0; one_based 1 1].
    split; [repeat constructor; lia|]. split; reflexivity.
  - intros (cs & Hcs & Hchain).
    assert (Hok : SubscriptDataType Float4x4 "_m44"
                  = OK (VectorDataType (BaseDataType Float4x4) (Z.of_nat (length cs)))).
    { apply (SubscriptDataType_matrix_criterion Float4x4 "_m44" eq_refl). eauto. }
    vm_compute in Hok. discriminate Hok.
Defined.

(** C1, as stated, fails: on the matrix type [Float4x4] the chain of the
    zero-based component [_m00] and the one-based component [_11] is not
    rejected; [SubscriptDataType] returns [Float2]. *)
Lemma SubscriptDataType_mixed_bases_not_rejected :
  IsMatrixType Float4x4 = true /\
  chain [zero_based 0 0; one_based 1 1] = "_m00_11"%string /\
  SubscriptDataType Float4x4 "_m00_11" = OK Float2 /\
  ~ (exists e : Report, SubscriptDataType Float4x4 "_m00_11" = Throw e).
Proof.
  repeat split; try reflexivity.
  intros [e He]. vm_compute in He. discriminate He.
Qed.

(* ================================================================== *)
(** * Indexed semantics *)
(* ================================================================== *)

Section DecimalFacts.

Local Open Scope string_scope.

Lemma isdigit_find (c : ascii) :
  Std.find "0123456789" c = None <-> Std.isdigit c = false.
Proof.
  destruct c as [[] [] [] [] [] [] [] []]; vm_compute; split; congruence.
Qed.

Lemma isdigit_not_space_sign (c : ascii) :
  Std.isdigit c = true ->
  Std.isspace c = false /\ Ascii.eqb c "-" = false /\ Ascii.eqb c "+" = false.
Proof.
  destruct c as [[] [] [] [] [] [] [] []]; vm_compute; intros H;
    try discriminate H; repeat split.
Qed.

Lemma isdigit_toupper (c : ascii) :
  Std.isdigit (Std.toupper c) = Std.isdigit c.
Proof. destruct c as [[] [] [] [] [] [] [] []]; reflexivity. Qed.

Lemma find_last_not_of_digits (D : string) :
  all_digits D = true -> Std.find_last_not_of D "0123456789" = None.
Proof.
  induction D as [|c D IH]; [reflexivity|].
  cbn [all_digits]. intros [Hc HD]%andb_true_iff.
  cbn [Std.find_last_not_of]. rewrite (IH HD).
  destruct (Std.find "0123456789" c) eqn:Hf; [reflexivity|].
  apply isdigit_find in Hf. congruence.
Qed.

Lemma find_last_not_of_app_digits (U D : string) :
  all_digits D = true ->
  Std.find_last_not_of (U ++ D) "0123456789" = Std.find_last_not_of U "0123456789".
Proof.
  intros HD. induction U as [|c U IH].
  - rewrite append_nil. now rewrite find_last_not_of_digits.
  - rewrite append_cons. cbn [Std.find_last_not_of]. now rewrite IH.
Qed.

Lemma find_last_not_of_back (U : string) :
  U <> "" -> Std.isdigit (Std.back U) = false ->
  Std.find_last_not_of U "0123456789" = Some (Std.size U - 1)%nat.
Proof.
  induction U as [|c U IH]; [congruence|]. intros _ Hb.
  destruct U as [|d U].
  - apply isdigit_find in Hb. cbn in Hb |- *.
    change (Std.back (String c "")) with c in Hb. now rewrite Hb.
  - rewrite back_cons in Hb by discriminate.
    cbn [Std.find_last_not_of] in IH |- *.
    rewrite IH by (discriminate || assumption).
    rewrite !size_cons. f_equal. lia.
Qed.

Lemma substring_all (s : string) : String.substring 0 (Std.size s) s = s.
Proof. induction s as [|c s IH]; [reflexivity|]. rewrite size_cons. simpl. now rewrite IH. Qed.

Lemma substr_app_l (U D : string) : Std.substr (U ++ D) 0 (Std.size U) = U.
Proof.
  unfold Std.substr. induction U as [|c U IH].
  - now destruct D.
  - rewrite append_cons, size_cons. simpl. now rewrite IH.
Qed.

Lemma substr_from_app_r (U D : string) : Std.substr_from (U ++ D) (Std.size U) = D.
Proof.
  unfold Std.substr_from. rewrite size_app.
  replace (Std.size U + Std.size D - Std.size U)%nat with (Std.size D) by lia.
  induction U as [|c U IH].
  - rewrite append_nil. apply substring_all.
  - rewrite append_cons, size_cons. simpl. exact IH.
Qed.

Lemma size_transform_toupper (u : string) :
  Std.size (Std.transform_toupper u) = Std.size u.
Proof. induction u as [|c u IH]; [reflexivity|]. cbn [Std.transform_toupper]. now rewrite !size_cons, IH. Qed.

Lemma back_transform_toupper (u : string) :
  u <> "" -> Std.back (Std.transform_toupper u) = Std.toupper (Std.back u).
Proof.
  induction u as [|c u IH]; [congruence|]. intros _.
  destruct u as [|d u]; [reflexivity|].
  cbn [Std.transform_toupper] in IH |- *.
  rewrite (back_cons (Std.toupper c)) by discriminate.
  rewrite (back_cons c) by discriminate. apply IH. discriminate.
Qed.

(** The digits that [std::to_string] prints. *)
Lemma all_digits_string_of_uint (d : uint) :
  all_digits (NilEmpty.string_of_uint d) = true.
Proof. induction d; simpl; auto. Qed.

Lemma atoi_digits_string_of_uint (d d' : uint) :
  Std.atoi_digits (NilEmpty.string_of_uint d) (Z.of_N (DecimalPos.Unsigned.of_lu d'))
  = Z.of_N (DecimalPos.Unsigned.of_lu (revapp d d')).
Proof.
  revert d'. induction d; intros d'; cbn [NilEmpty.string_of_uint revapp];
    [reflexivity|..];
    cbn [Std.atoi_digits];
    match goal with
    | |- context [Std.isdigit ?c] => change (Std.isdigit c) with true
    end; cbv iota; rewrite <- IHd; f_equal;
    cbn [DecimalPos.Unsigned.of_lu];
    match goal with
    | |- context [N_of_ascii ?c] =>
        let v := eval vm_compute in (N_of_ascii c) in
        change (N_of_ascii c) with v
    end; lia.
Qed.

Lemma atoi_string_of_uint (d : uint) :
  d <> Nil -> Std.atoi (NilEmpty.string_of_uint d) = Z.of_N (Pos.of_uint d).
Proof.
  intros Hd. rewrite DecimalPos.Unsigned.of_uint_alt. unfold Decimal.rev.
  rewrite <- atoi_digits_string_of_uint. cbn [DecimalPos.Unsigned.of_lu Z.of_N].
  pose proof (all_digits_string_of_uint d) as Hall.
  unfold Std.atoi.
  destruct (NilEmpty.string_of_uint d) as [|c s] eqn:Hs; [now destruct d|].
  cbn [all_digits] in Hall. apply andb_true_iff in Hall as [Hc _].
  destruct (isdigit_not_space_sign c Hc) as (Hsp & Hminus & Hplus).
  cbn [Std.skip_spaces]. rewrite Hsp, Hminus, Hplus. reflexivity.
Qed.

Lemma to_string_nonneg (i : Z) :
  0 <= i ->
  exists d : uint,
    d <> Nil /\ Std.to_string i = NilEmpty.string_of_uint d /\
    Z.of_N (Pos.of_uint d) = i.
Proof.
  intros Hi. destruct i as [|p|p]; [| |lia].
  - exists (D0 Nil). repeat split. discriminate.
  - exists (Pos.to_uint p). split; [apply DecimalPos.Unsigned.to_uint_nonnil|]. split.
    + unfold Std.to_string. cbn [Z.to_int NilZero.string_of_int].
      unfold NilZero.string_of_uint.
      pose proof (DecimalPos.Unsigned.to_uint_nonnil p) as Hn.
      now destruct (Pos.to_uint p).
    + now rewrite DecimalPos.Unsigned.of_to.
Qed.

(** [atoi] reads back what [to_string] printed. *)
Lemma atoi_to_string (i : Z) : 0 <= i -> Std.atoi (Std.to_string i) = i.
Proof.
  intros Hi. destruct (to_string_nonneg i Hi) as (d & Hd & -> & Hv).
  now rewrite atoi_string_of_uint.
Qed.

Lemma to_string_digits (i : Z) :
  0 <= i -> all_digits (Std.to_string i) = true /\ Std.to_string i <> "".
Proof.
  intros Hi. destruct (to_string_nonneg i Hi) as (d & Hd & -> & _).
  split; [apply all_digits_string_of_uint|now destruct d].
Qed.

End DecimalFacts.

(** The string constructor always yields a user-defined semantic. *)
Lemma from_string_UserDefined `{IndexedSemantic.MemberInit} (s : string) :
  IndexedSemantic.semantic_ (IndexedSemantic.from_string s) = Semantic.UserDefined.
Proof.
  unfold IndexedSemantic.from_string.
  destruct (Std.find_last_not_of s "0123456789"); [|reflexivity].
  destruct (_ <? _)%nat; reflexivity.
Qed.

(** C3, as the code has it.  The string constructor of
    [IndexedSemantic] only ever builds user-defined semantics, and it
    splits its argument at the trailing decimal digits.  For a
    user-defined semantic whose name [u] is not empty and does not end in
    a decimal digit, and for every index [i >= 0] (every non-negative
    [int] in particular), constructing an [IndexedSemantic] from its
    [ToString] gives the user-defined semantic with the same index and
    with the name in upper case; whatever the argument, the kind of the
    constructed value is [UserDefined]. *)
Theorem IndexedSemantic_ToString_from_string
    (reports : ReportIdents) (init : IndexedSemantic.MemberInit) (u : string) (i : Z) :
  u <> EmptyString ->
  Std.isdigit (Std.back u) = false ->
  0 <= i ->
  IndexedSemantic.from_string
    (IndexedSemantic.ToString
       (IndexedSemantic.mk Semantic.UserDefined i u))
  = IndexedSemantic.mk Semantic.UserDefined i (Std.transform_toupper u)
  /\ (forall s : string,
        IndexedSemantic.semantic_ (IndexedSemantic.from_string s)
        = Semantic.UserDefined).
Proof.
  intros Hu Hback Hi. split; [|apply from_string_UserDefined].
  unfold IndexedSemantic.ToString.
  cbn [IndexedSemantic.semantic_ IndexedSemantic.index_ IndexedSemantic.userDefined_].
  rewrite decide_True by reflexivity.
  destruct (to_string_digits i Hi) as [Hall Hne].
  pose proof (atoi_to_string i Hi) as Hatoi.
  assert (HU : Std.transform_toupper u <> EmptyString) by now destruct u.
  assert (HbU : Std.isdigit (Std.back (Std.transform_toupper u)) = false).
  { now rewrite back_transform_toupper, isdigit_toupper. }
  revert Hall Hne Hatoi HU HbU.
  generalize (Std.to_string i) as D. generalize (Std.transform_toupper u) as U.
  intros U D Hall Hne Hatoi HU HbU.
  assert (HsU : (1 <= Std.size U)%nat) by (destruct U; [congruence|rewrite size_cons; lia]).
  assert (HsD : (1 <= Std.size D)%nat) by (destruct D; [congruence|rewrite size_cons; lia]).
  unfold IndexedSemantic.from_string.
  rewrite find_last_not_of_app_digits by exact Hall.
  rewrite find_last_not_of_back by assumption.
  rewrite size_app.
  destruct (Nat.ltb_spec (Std.size U - 1 + 1) (Std.size U + Std.size D)); [|lia].
  replace (S (Std.size U - 1)) with (Std.size U) by lia.
  rewrite substr_app_l, substr_from_app_r, Hatoi. reflexivity.
Qed.

Lemma IndexedSemantic_ToString_from_string_witness :
  IndexedSemantic.from_string (H := sample_init)
    (IndexedSemantic.ToString (H := sample_reports)
       (IndexedSemantic.mk Semantic.UserDefined 3 "texcoord"))
  = IndexedSemantic.mk Semantic.UserDefined 3 "TEXCOORD".
Proof.
  exact (proj1 (IndexedSemantic_ToString_from_string sample_reports sample_init
                  "texcoord" 3 ltac:(discriminate) eq_refl ltac:(lia))).
Defined.

(** C3, as stated, fails: the indexed semantic [(Target, 0)] prints as
    "SV_Target0", and the string constructor turns that into the
    user-defined semantic named "SV_Target" with index 0; the pair
    [(UserDefined, 3)] prints as "3", which is read as a user-defined
    name without an index. *)
Lemma IndexedSemantic_from_string_loses_kind :
  IndexedSemantic.ToString (H := sample_reports)
    (IndexedSemantic.from_semantic Semantic.Target 0)
    = "SV_Target0"%string /\
  IndexedSemantic.from_string (H := sample_init)
    (IndexedSemantic.ToString (H := sample_reports)
       (IndexedSemantic.from_semantic Semantic.Target 0))
    = IndexedSemantic.mk Semantic.UserDefined 0 "SV_Target" /\
  IndexedSemantic.from_string (H := sample_init)
    (IndexedSemantic.ToString (H := sample_reports)
       (IndexedSemantic.from_semantic Semantic.Target 0))
    <> IndexedSemantic.from_semantic Semantic.Target 0 /\
  IndexedSemantic.from_string (H := sample_init)
    (IndexedSemantic.ToString (H := sample_reports)
       (IndexedSemantic.from_semantic Semantic.UserDefined 3))
    <> IndexedSemantic.from_semantic Semantic.UserDefined 3.
Proof.
  repeat split; try reflexivity; vm_compute; discriminate.
Qed.

(* ================================================================== *)
(** * The GLSL emitter *)
(* ================================================================== *)

Section EmitterFacts.

Import GLSLGenerator.
Context {Expr : Type}.

Lemma WriteArguments_record (args : list Expr) (out : list (Emit Expr)) :
  WriteArguments args out
  = OK (tt, out ++ match args with
                   | [] => []
                   | a :: rest =>
                       E_Visit a :: flat_map (fun b => [E_Write ", "; E_Visit b]) rest
                   end).
Proof.
  revert out. induction args as [|a rest IH]; intros out.
  - cbn. now rewrite app_nil_r.
  - cbn [WriteArguments]. unfold seq, Visit, Write, emit, ret.
    destruct rest as [|b rest'].
    + cbn. reflexivity.
    + rewrite IH. cbn [flat_map]. f_equal. f_equal.
      rewrite <- !app_assoc. reflexivity.
Qed.

(** A method name that [texFuncMap_] knows is written as a call of the
    mapped function: its name, the arguments in order, the closing
    bracket. *)
Lemma WriteFunctionCallIntrinsicTex_mapped
    (receiver method funcName : string) (args : list Expr) (out : list (Emit Expr)) :
  texFuncMap_ !! method = Some funcName ->
  WriteFunctionCallIntrinsicTex (texture_call receiver method args) out
  = OK (tt, out ++ call_record funcName args).
Proof.
  intros Hmap. unfold WriteFunctionCallIntrinsicTex, texture_call.
  cbn [varIdent arguments next ident]. rewrite Hmap.
  unfold seq, Write, emit. rewrite WriteArguments_record.
  unfold call_record. rewrite <- !app_assoc. reflexivity.
Qed.

(** Five of the six method names of the specification are lowered as
    it says. *)
Lemma WriteFunctionCallIntrinsicTex_lowered
    (receiver method funcName : string) (args : list Expr) (out : list (Emit Expr)) :
  In (method, funcName) specified_texture_functions ->
  method <> "GetDimensions" ->
  WriteFunctionCallIntrinsicTex (texture_call receiver method args) out
  = OK (tt, out ++ call_record funcName args).
Proof.
  intros Hin Hne. apply WriteFunctionCallIntrinsicTex_mapped.
  cbn in Hin.
  destruct Hin as [H|[H|[H|[H|[H|[H|[]]]]]]]; injection H as <- <-;
    try reflexivity.
  congruence.
Qed.

End EmitterFacts.

(** C5, on the method name that the code misses.  The table
    [texFuncMap_] holds the key "GetDimensions " with a trailing blank,
    so the method name "GetDimensions" is not found:
    [WriteFunctionCallIntrinsicTex] reports it as unsupported instead of
    writing a call of [textureSize]. *)
Theorem WriteFunctionCallIntrinsicTex_GetDimensions
    (Expr : Type) (receiver : string) (args : list Expr)
    (out : list (GLSLGenerator.Emit Expr)) :
  GLSLGenerator.texFuncMap_ !! "GetDimensions"%string = None /\
  GLSLGenerator.texFuncMap_ !! "GetDimensions "%string = Some "textureSize"%string /\
  GLSLGenerator.WriteFunctionCallIntrinsicTex
    (texture_call receiver "GetDimensions" args) out
  = Throw ("texture member function " ++ GLSLGenerator.dquote ++ "GetDimensions"
           ++ GLSLGenerator.dquote ++ " is not supported")%string.
Proof. repeat split. Qed.

Section ClipFacts.

Import GLSLGenerator ClipHelpers.
Context {Expr : Type}.

Lemma run_AppendClipIntrinsics :
  run (Expr := Expr) AppendClipIntrinsics = OK helpers.
Proof. reflexivity. Qed.

Lemma count_WriteLn_helpers :
  Forall (fun line => count_WriteLn (Expr := Expr) line helpers = 1%nat) overloads.
Proof. repeat constructor. Qed.

End ClipFacts.

(** C6, as the code has it.  [AppendAllReferencedIntrinsics], which the
    visitor of [Program] calls once, writes the helpers if and only if
    the intrinsic [Clip] is a key of [usedIntrinsics]: once each, the
    line [void clip(float x) { if (x < 0.0) discard; }] and, for [T] in
    vec2, vec3, vec4, the line
    [void clip(T x) { if (any(lessThan(x, T(0.0)))) discard; }], then a
    blank line.  It writes nothing otherwise. *)
Theorem AppendAllReferencedIntrinsics_clip
    (Expr : Type) (intrinsics : GLSLGenerator.IntrinsicEnum) (ast : GLSLGenerator.Program) :
  exists out : list (GLSLGenerator.Emit Expr),
    GLSLGenerator.run (GLSLGenerator.AppendAllReferencedIntrinsics ast) = OK out /\
    (is_Some (GLSLGenerator.usedIntrinsics ast !! GLSLGenerator.Clip) ->
       out = ClipHelpers.helpers) /\
    (GLSLGenerator.usedIntrinsics ast !! GLSLGenerator.Clip = None -> out = []) /\
    Forall (fun line =>
              ClipHelpers.count_WriteLn line out = 1%nat
              <-> is_Some (GLSLGenerator.usedIntrinsics ast !! GLSLGenerator.Clip))
           ClipHelpers.overloads.
Proof.
  unfold GLSLGenerator.AppendAllReferencedIntrinsics.
  destruct (GLSLGenerator.usedIntrinsics ast !! GLSLGenerator.Clip) as [usage|] eqn:Hused.
  - exists ClipHelpers.helpers. split; [reflexivity|].
    split; [reflexivity|]. split; [discriminate|].
    eapply Forall_impl; [apply (count_WriteLn_helpers (Expr := Expr))|].
    intros line Hline. split; [eauto|intros _; exact Hline].
  - exists []. split; [reflexivity|].
    split; [intros [x Hx]; discriminate Hx|]. split; [reflexivity|].
    repeat constructor; try discriminate; intros [x Hx]; discriminate Hx.
Qed.

Lemma AppendAllReferencedIntrinsics_clip_witness :
  GLSLGenerator.run (Expr := unit)
    (GLSLGenerator.AppendAllReferencedIntrinsics
       (GLSLGenerator.mkProgram (H := named_intrinsics)
          {[ Intrinsic_Clip := [[Float3]] ]}))
  = OK ClipHelpers.helpers /\
  GLSLGenerator.run (Expr := unit)
    (GLSLGenerator.AppendAllReferencedIntrinsics
       (GLSLGenerator.mkProgram (H := named_intrinsics)
          {[ Intrinsic_Mul := [[Float4x4; Float4]] ]}))
  = OK [].
Proof.
  split.
  - destruct (AppendAllReferencedIntrinsics_clip unit named_intrinsics
                (GLSLGenerator.mkProgram (H := named_intrinsics)
                   {[ Intrinsic_Clip := [[Float3]] ]}))
      as (out & Hrun & Hused & _).
    rewrite Hrun, Hused; [reflexivity|]. vm_compute. eauto.
  - destruct (AppendAllReferencedIntrinsics_clip unit named_intrinsics
                (GLSLGenerator.mkProgram (H := named_intrinsics)
                   {[ Intrinsic_Mul := [[Float4x4; Float4]] ]}))
      as (out & Hrun & _ & Hunused & _).
    rewrite Hrun, Hunused; reflexivity.
Defined.

(** C6, as stated, fails: with [Clip] registered as used, none of the
    four overloads is written in the wording of the specification; the
    overload for [float] compares with [x < 0.0], and the vector
    overloads build their zero as [T(0.0)]. *)
Lemma clip_overloads_not_as_specified :
  is_Some (GLSLGenerator.usedIntrinsics
             (GLSLGenerator.mkProgram (H := named_intrinsics) {[ Intrinsic_Clip := [] ]})
           !! Intrinsic_Clip) /\
  exists out : list (GLSLGenerator.Emit unit),
    GLSLGenerator.run
      (GLSLGenerator.AppendAllReferencedIntrinsics
         (GLSLGenerator.mkProgram (H := named_intrinsics) {[ Intrinsic_Clip := [] ]}))
    = OK out /\
    Forall (fun T => ClipHelpers.count_WriteLn (ClipHelpers.specified_overload T) out = 0%nat)
           ClipHelpers.specified_types /\
    ~ In (GLSLGenerator.E_WriteLn (ClipHelpers.specified_overload "float")) out.
Proof.
  split; [vm_compute; eauto|].
  eexists. split; [reflexivity|]. split.
  - repeat constructor.
  - vm_compute. intros H.
    repeat (destruct H as [H|H]; [discriminate H|]). exact H.
Qed.

(** C10. A register name that is empty, or whose first character is not
    the expected prefix, is reported as an error; on the empty name the
    message is built from the character read at index 0 of the empty
    string, which is the terminating null character. *)
Theorem ValidateRegisterPrefix_rejects
    (Expr : Type) (prefix : ascii) (out : list (GLSLGenerator.Emit Expr)) :
  GLSLGenerator.ValidateRegisterPrefix EmptyString prefix out
    = Throw (register_prefix_message (Std.at_ EmptyString 0) prefix) /\
  Std.at_ EmptyString 0 = Std.NUL /\
  (forall (c : ascii) (rest : string),
      c <> prefix ->
      GLSLGenerator.ValidateRegisterPrefix (String c rest) prefix out
      = Throw (register_prefix_message c prefix)).
Proof.
  split; [reflexivity|]. split; [reflexivity|].
  intros c rest Hc. unfold GLSLGenerator.ValidateRegisterPrefix.
  change (Std.empty (String c rest)) with false.
  change (Std.at_ (String c rest) 0) with c.
  apply Ascii.eqb_neq in Hc. rewrite Hc. reflexivity.
Qed.

Lemma ValidateRegisterPrefix_rejects_witness :
  GLSLGenerator.ValidateRegisterPrefix (Expr := unit) "" "b" []
    = Throw (register_prefix_message Std.NUL "b") /\
  GLSLGenerator.ValidateRegisterPrefix (Expr := unit) "t3" "b" []
    = Throw "invalid register prefix 't' (expected 'b')"%string.
Proof.
  destruct (ValidateRegisterPrefix_rejects unit "b" []) as (Hempty & _ & Hfirst).
  split; [exact Hempty|].
  apply (Hfirst "t"%char "3"%string). discriminate.
Defined.

(** A register name that starts with the expected prefix passes. *)
Lemma ValidateRegisterPrefix_accepts
    (Expr : Type) (prefix : ascii) (rest : string) (out : list (GLSLGenerator.Emit Expr)) :
  GLSLGenerator.ValidateRegisterPrefix (String prefix rest) prefix out = OK (tt, out).
Proof.
  unfold GLSLGenerator.ValidateRegisterPrefix.
  change (Std.empty (String prefix rest)) with false.
  change (Std.at_ (String prefix rest) 0) with prefix.
  rewrite Ascii.eqb_refl. reflexivity.
Qed.

(* ================================================================== *)
(** * The classes and shapes of the data types *)
(* ================================================================== *)

(** The data types with a numeric shape: scalars, vectors, matrices. *)
Lemma numeric_cases (t : DataType) :
  IsScalarType t || IsVectorType t || IsMatrixType t = true <->
  t <> Undefined /\ t <> String_.
Proof.
  destruct t; split; intros H;
    try discriminate H; try (split; discriminate); try reflexivity;
    destruct H as [H1 H2]; congruence.
Qed.

(** X1. Every class predicate of [DataType] is decided by the base
    type: a vector or a matrix is boolean, integral (signed or
    unsigned), or real (half or double) exactly when its scalar base
    is. *)
Theorem type_class_of_base (t : DataType) :
  IsBooleanType t = IsBooleanType (BaseDataType t) /\
  IsIntegralType t = IsIntegralType (BaseDataType t) /\
  IsIntType t = IsIntType (BaseDataType t) /\
  IsUIntType t = IsUIntType (BaseDataType t) /\
  IsRealType t = IsRealType (BaseDataType t) /\
  IsHalfRealType t = IsHalfRealType (BaseDataType t) /\
  IsDoubleRealType t = IsDoubleRealType (BaseDataType t).
Proof. destruct t; vm_compute; intuition reflexivity. Qed.

(** X2. The class predicates partition the numeric types: a scalar,
    vector or matrix type is exactly one of boolean, integral and real,
    and [Undefined] and [String] are none of them; an integral type is
    either signed or unsigned, never both; half and double types are
    real, and no type is both. *)
Theorem type_classes_partition (t : DataType) :
  IsBooleanType t || IsIntegralType t || IsRealType t
    = IsScalarType t || IsVectorType t || IsMatrixType t /\
  IsBooleanType t && IsIntegralType t = false /\
  IsBooleanType t && IsRealType t = false /\
  IsIntegralType t && IsRealType t = false /\
  IsIntegralType t = IsIntType t || IsUIntType t /\
  IsIntType t && IsUIntType t = false /\
  (IsHalfRealType t || IsDoubleRealType t = true -> IsRealType t = true) /\
  IsHalfRealType t && IsDoubleRealType t = false.
Proof. destruct t; vm_compute; intuition congruence. Qed.

Lemma type_classes_partition_witness :
  IsDoubleRealType Double3x3 = true /\ IsRealType Double3x3 = true.
Proof.
  split; [reflexivity|].
  apply (type_classes_partition Double3x3). reflexivity.
Defined.

(** X3. The shape predicates and the two dimension tables agree: a type
    is a scalar exactly when [MatrixTypeDim] gives 1x1, a vector exactly
    when it gives n x 1 with n from 2 to 4, a matrix exactly when both
    dimensions are from 2 to 4; [VectorTypeDim] is the row count of the
    types with one column and 0 for every other type. *)
Theorem shapes_and_dimensions (t : DataType) :
  (IsScalarType t = true <-> MatrixTypeDim t = (1, 1)) /\
  (IsVectorType t = true <->
     2 <= fst (MatrixTypeDim t) <= 4 /\ snd (MatrixTypeDim t) = 1) /\
  (IsMatrixType t = true <->
     2 <= fst (MatrixTypeDim t) <= 4 /\ 2 <= snd (MatrixTypeDim t) <= 4) /\
  VectorTypeDim t
    = (if snd (MatrixTypeDim t) =? 1 then fst (MatrixTypeDim t) else 0) /\
  (MatrixTypeDim t = (0, 0) <-> t = Undefined \/ t = String_).
Proof.
  destruct t; cbn [MatrixTypeDim VectorTypeDim fst snd];
    (split; [|split; [|split; [|split]]]);
    try reflexivity;
    (split; [intros H|intros H]);
    try reflexivity; try discriminate H; try lia;
    try (left; reflexivity); try (right; reflexivity);
    try (destruct H as [H|H]; discriminate H);
    try (vm_compute in H; discriminate H).
Qed.

(** X4. [MatrixDataType] rebuilds every numeric type from its base type
    and its dimensions:
    [MatrixDataType (BaseDataType t) rows columns = t] where
    [(rows, columns) = MatrixTypeDim t]. *)
Theorem MatrixDataType_BaseDataType_MatrixTypeDim (t : DataType) :
  IsScalarType t || IsVectorType t || IsMatrixType t = true ->
  MatrixDataType (BaseDataType t) (fst (MatrixTypeDim t)) (snd (MatrixTypeDim t)) = t.
Proof. destruct t; intros H; try discriminate H; reflexivity. Qed.

Lemma MatrixDataType_BaseDataType_MatrixTypeDim_witness :
  MatrixDataType (BaseDataType UInt4x2) 4 2 = UInt4x2.
Proof.
  exact (MatrixDataType_BaseDataType_MatrixTypeDim UInt4x2 eq_refl).
Defined.

(** X5. For a scalar base and dimensions from 1 to 4, [MatrixDataType]
    returns a type over that base; its dimensions are the requested ones
    except for a single row of several columns, which is returned as the
    vector of that many components, that is with the dimensions
    exchanged. *)
Theorem MatrixDataType_shape (base : DataType) (rows columns : Z) :
  IsScalarType base = true ->
  1 <= rows <= 4 -> 1 <= columns <= 4 ->
  BaseDataType (MatrixDataType base rows columns) = base /\
  MatrixTypeDim (MatrixDataType base rows columns)
    = (if rows =? 1 then (columns, 1) else (rows, columns)).
Proof.
  intros Hb Hr Hc.
  assert (rows = 1 \/ rows = 2 \/ rows = 3 \/ rows = 4) as [-> | [-> | [-> | ->]]] by lia;
  assert (columns = 1 \/ columns = 2 \/ columns = 3 \/ columns = 4)
    as [-> | [-> | [-> | ->]]] by lia;
  destruct (IsScalarType_cases base Hb) as [-> | [-> | [-> | [-> | [-> | ->]]]]];
  split; reflexivity.
Qed.

Lemma MatrixDataType_shape_witness :
  MatrixTypeDim (MatrixDataType Half 1 3) = (3, 1) /\
  MatrixTypeDim (MatrixDataType Half 2 3) = (2, 3).
Proof.
  split.
  - exact (proj2 (MatrixDataType_shape Half 1 3 eq_refl ltac:(lia) ltac:(lia))).
  - exact (proj2 (MatrixDataType_shape Half 2 3 eq_refl ltac:(lia) ltac:(lia))).
Defined.

(** X6. [VectorDataType] and [MatrixDataType] never fail: for a base
    that is no scalar or a dimension outside 1..4 they return
    [Undefined], and they return [Undefined] in no other case. *)
Theorem VectorDataType_MatrixDataType_Undefined
    (base : DataType) (vectorSize rows columns : Z) :
  (VectorDataType base vectorSize = Undefined <->
     ~ (IsScalarType base = true /\ 1 <= vectorSize <= 4)) /\
  (MatrixDataType base rows columns = Undefined <->
     ~ (IsScalarType base = true /\ 1 <= rows <= 4 /\ 1 <= columns <= 4)).
Proof.
  assert (Hvec : forall n, VectorDataType base n = Undefined <->
                   ~ (IsScalarType base = true /\ 1 <= n <= 4)).
  { intros n. destruct (IsScalarType base) eqn:Hb.
    - destruct (Z_le_dec 1 n) as [H1|H1]; [destruct (Z_le_dec n 4) as [H4|H4]|].
      + assert (n = 1 \/ n = 2 \/ n = 3 \/ n = 4) as [-> | [-> | [-> | ->]]] by lia;
        destruct (IsScalarType_cases base Hb) as [-> | [-> | [-> | [-> | [-> | ->]]]]];
        (split; [intros H; discriminate H|intros H; exfalso; apply H; split; [reflexivity|lia]]).
      + unfold VectorDataType. rewrite Hb.
        case_compare; (split; [intros _ [_ ?]; lia|reflexivity]).
      + unfold VectorDataType. rewrite Hb.
        case_compare; (split; [intros _ [_ ?]; lia|reflexivity]).
    - unfold VectorDataType. rewrite Hb.
      split; [intros _ [? _]; discriminate|reflexivity]. }
  split; [apply Hvec|].
  destruct (IsScalarType base) eqn:Hb.
  - unfold MatrixDataType. rewrite Hb.
    destruct (Z.eqb_spec rows 1) as [->|Hr1].
    + destruct (Z.eqb_spec columns 1) as [->|Hc1]; cbn [andb].
      * destruct (IsScalarType_cases base Hb) as [-> | [-> | [-> | [-> | [-> | ->]]]]];
          (split; [intros H; discriminate H|intros H; exfalso; apply H; repeat split; lia]).
      * rewrite (Hvec columns), ?Hb. intuition lia.
    + cbn [andb]. destruct (Z.eqb_spec columns 1) as [->|Hc1].
      * rewrite (Hvec rows), ?Hb. intuition lia.
      * destruct (Z_le_dec 2 rows) as [Hr2|Hr2];
        [destruct (Z_le_dec rows 4) as [Hr4|Hr4];
         [destruct (Z_le_dec 2 columns) as [Hc2|Hc2];
          [destruct (Z_le_dec columns 4) as [Hc4|Hc4]|]|]|].
        -- assert (rows = 2 \/ rows = 3 \/ rows = 4) as [-> | [-> | ->]] by lia;
           assert (columns = 2 \/ columns = 3 \/ columns = 4) as [-> | [-> | ->]] by lia;
           destruct (IsScalarType_cases base Hb) as [-> | [-> | [-> | [-> | [-> | ->]]]]];
           (split; [intros H; discriminate H
                   |intros H; exfalso; apply H; repeat split; lia]).
        -- case_compare; (split; [intros _ (_ & _ & ?); lia|reflexivity]).
        -- case_compare; (split; [intros _ (_ & _ & ?); lia|reflexivity]).
        -- case_compare; (split; [intros _ (_ & ? & _); lia|reflexivity]).
        -- case_compare; (split; [intros _ (_ & ? & _); lia|reflexivity]).
  - unfold MatrixDataType. rewrite Hb.
    split; [intros _ [? _]; discriminate|reflexivity].
Qed.

(** X7. [DoubleToFloatDataType] narrows the base and keeps the shape:
    the dimensions of the result are those of the argument, the base of
    the result is the narrowed base of the argument, the result is never
    a double type, a type that is no double type is returned as it is,
    and narrowing twice is narrowing once. *)
Theorem DoubleToFloatDataType_shape (t : DataType) :
  MatrixTypeDim (DoubleToFloatDataType t) = MatrixTypeDim t /\
  BaseDataType (DoubleToFloatDataType t) = DoubleToFloatDataType (BaseDataType t) /\
  IsDoubleRealType (DoubleToFloatDataType t) = false /\
  (IsDoubleRealType t = false -> DoubleToFloatDataType t = t) /\
  (IsDoubleRealType t = true ->
     BaseDataType (DoubleToFloatDataType t) = Float) /\
  DoubleToFloatDataType (DoubleToFloatDataType t) = DoubleToFloatDataType t.
Proof.
  destruct t; vm_compute;
    (split; [|split; [|split; [|split; [|split]]]]);
    try reflexivity; intros H; try reflexivity; discriminate H.
Qed.

Lemma DoubleToFloatDataType_shape_witness :
  DoubleToFloatDataType Int3 = Int3 /\
  BaseDataType (DoubleToFloatDataType Double4x3) = Float.
Proof.
  destruct (DoubleToFloatDataType_shape Int3) as (_ & _ & _ & Hsame & _).
  destruct (DoubleToFloatDataType_shape Double4x3) as (_ & _ & _ & _ & Hbase & _).
  split; [apply Hsame|apply Hbase]; reflexivity.
Defined.

Section TypeNames.

Context `{ReportIdents}.

(** The name of a type other than [Undefined] depends neither on the
  report strings nor on the default of the second argument. *)
Lemma DataTypeToString_defined (d : bool) (t : DataType) (useTemplateSyntax : bool) :
t <> Undefined ->
DataTypeToString d t useTemplateSyntax
= DataTypeToString (H := sample_reports) false t useTemplateSyntax.
Proof.
intros Ht. destruct t; try congruence; destruct useTemplateSyntax; reflexivity.
Qed.

End TypeNames.

(** The names of the types behind [Undefined], in both syntaxes. *)
Lemma type_names_NoDup (useTemplateSyntax : bool) :
  NoDup (map (fun t => DataTypeToString (H := sample_reports) false t useTemplateSyntax)
             (tl enumerators)).
Proof.
  destruct useTemplateSyntax;
    apply (bool_decide_unpack _); vm_compute; exact I.
Qed.



(* ================================================================== *)
(** * Further properties of literals and subscripts *)
(* ================================================================== *)

(** X9. The class of the data type of a token follows its kind, whatever
    the lexeme: a bool literal has type [Bool], an integer literal an
    integral scalar type, a float literal a real scalar type, a string
    literal the type [String], and [TokenToDataType] returns [Undefined]
    exactly for the tokens that are no literals.  The result is never a
    vector or a matrix type. *)
Theorem TokenToDataType_kind (tkn : Token.t) :
  (Token.Type_ tkn = Token.BoolLiteral <-> TokenToDataType tkn = Bool) /\
  (Token.Type_ tkn = Token.IntLiteral <-> IsIntegralType (TokenToDataType tkn) = true) /\
  (Token.Type_ tkn = Token.FloatLiteral <-> IsRealType (TokenToDataType tkn) = true) /\
  (Token.Type_ tkn = Token.StringLiteral <-> TokenToDataType tkn = String_) /\
  (TokenToDataType tkn = Undefined <->
     Token.Type_ tkn <> Token.BoolLiteral /\ Token.Type_ tkn <> Token.IntLiteral /\
     Token.Type_ tkn <> Token.FloatLiteral /\ Token.Type_ tkn <> Token.StringLiteral) /\
  IsVectorType (TokenToDataType tkn) || IsMatrixType (TokenToDataType tkn) = false.
Proof.
  destruct tkn as [ty s]. unfold TokenToDataType. cbn [Token.Type_].
  assert (Hint : IntLiteralTokenToDataType (Token.mk ty s) = Int \/
                 IntLiteralTokenToDataType (Token.mk ty s) = UInt).
  { unfold IntLiteralTokenToDataType. destruct (negb _); [|now left].
    destruct (_ || _); [now right|now left]. }
  assert (Hfloat : FloatLiteralTokenToDataType (Token.mk ty s) = Float \/
                   FloatLiteralTokenToDataType (Token.mk ty s) = Half \/
                   FloatLiteralTokenToDataType (Token.mk ty s) = Double).
  { unfold FloatLiteralTokenToDataType. destruct (negb _); [|now right; right].
    destruct (_ || _); [now left|].
    destruct (_ || _); [now right; left|now right; right]. }
  destruct ty;
    try (destruct Hint as [-> | ->]);
    try (destruct Hfloat as [-> | [-> | ->]]);
    repeat split; intros; try reflexivity; try discriminate;
    try (exfalso; intuition congruence).
Qed.

Section VectorSubscriptErrors.

Lemma SubscriptDataType_vector_path (t : DataType) (subscript : string) :
IsScalarType t || IsVectorType t = true ->
SubscriptDataType t subscript
= SubscriptDataTypeVector t subscript (VectorTypeDim t).
Proof.
intros Ht. unfold SubscriptDataType. now rewrite (MatrixTypeDim_vector t Ht).
Qed.

Lemma IsValidSubscript_sets (t : DataType) (subscript : string) :
IsScalarType t || IsVectorType t = true ->
IsValidSubscript subscript "xyzw" (VectorTypeDim t)
|| IsValidSubscript subscript "rgba" (VectorTypeDim t) = true
<-> drawn_from subscript (first_chars (VectorTypeDim t) "xyzw") \/
    drawn_from subscript (first_chars (VectorTypeDim t) "rgba").
Proof.
intros Ht. pose proof (VectorTypeDim_range t Ht) as Hdim.
rewrite orb_true_iff, !IsValidSubscript_drawn_from;
  [reflexivity| |]; change (Std.size _) with 4%nat; lia.
Qed.

Lemma SubscriptDataType_vector_accepted (t r : DataType) (subscript : string) :
IsScalarType t || IsVectorType t = true ->
SubscriptDataType t subscript = OK r ->
drawn_from subscript (first_chars (VectorTypeDim t) "xyzw") \/
drawn_from subscript (first_chars (VectorTypeDim t) "rgba").
Proof.
intros Ht. rewrite (SubscriptDataType_vector_path t subscript Ht).
unfold SubscriptDataTypeVector, InvalidArg.
destruct ((Std.size subscript <? 1)%nat || (4 <? Std.size subscript)%nat);
  [intros Hr; discriminate Hr|].
destruct ((VectorTypeDim t <? 1) || (4 <? VectorTypeDim t));
  [intros Hr; discriminate Hr|].
destruct (IsValidSubscript subscript "xyzw" (VectorTypeDim t)
          || IsValidSubscript subscript "rgba" (VectorTypeDim t)) eqn:Hvalid;
  cbn [negb]; [|intros Hr; discriminate Hr].
intros _. now apply IsValidSubscript_sets.
Qed.

Lemma first_chars_subset (n : Z) (set : string) (c : ascii) :
In c (list_ascii_of_string (first_chars n set)) -> In c (list_ascii_of_string set).
Proof.
unfold first_chars. generalize (Z.to_nat n) as k. intros k. revert k.
induction set as [|d set IH]; intros [|k]; cbn; try tauto.
intros [->|Hc]; [now left|right; eauto].
Qed.

End VectorSubscriptErrors.

(** X10. The acceptance criterion of vector subscripts.  For a scalar
    or vector type of dimension n, [SubscriptDataType] returns a type
    exactly when the subscript has one to four characters that are all
    among the first n of "xyzw" or all among the first n of "rgba".  A
    subscript of another length is rejected for its length, before its
    characters are looked at; any other subscript is rejected as an
    invalid subscript of the type. *)
Theorem SubscriptDataType_vector_criterion (t : DataType) (subscript : string) :
  IsScalarType t || IsVectorType t = true ->
  ((exists r, SubscriptDataType t subscript = OK r) <->
     (1 <= Std.size subscript <= 4)%nat /\
     (drawn_from subscript (first_chars (VectorTypeDim t) "xyzw") \/
      drawn_from subscript (first_chars (VectorTypeDim t) "rgba"))) /\
  (~ (1 <= Std.size subscript <= 4)%nat ->
     SubscriptDataType t subscript
     = Throw (R_VectorSubscriptCantHaveNComps (Std.size subscript))) /\
  ((1 <= Std.size subscript <= 4)%nat ->
   ~ (drawn_from subscript (first_chars (VectorTypeDim t) "xyzw") \/
      drawn_from subscript (first_chars (VectorTypeDim t) "rgba")) ->
     SubscriptDataType t subscript = Throw (R_InvalidVectorSubscript subscript t)).
Proof.
  intros Ht. rewrite (SubscriptDataType_vector_path t subscript Ht).
  pose proof (VectorTypeDim_range t Ht) as Hdim.
  pose proof (IsValidSubscript_sets t subscript Ht) as Hsets.
  unfold SubscriptDataTypeVector, InvalidArg.
  destruct (Nat.ltb_spec (Std.size subscript) 1) as [Hlo|Hlo]; cbn [orb].
  { split; [|split]; [split| |]; try reflexivity;
      [intros [r Hr]; discriminate Hr|intros [? _]; lia|intros; lia]. }
  destruct (Nat.ltb_spec 4 (Std.size subscript)) as [Hhi|Hhi].
  { split; [|split]; [split| |]; try reflexivity;
      [intros [r Hr]; discriminate Hr|intros [? _]; lia|intros; lia]. }
  replace ((VectorTypeDim t <? 1) || (4 <? VectorTypeDim t)) with false
    by (symmetry; apply orb_false_iff; split; [apply Z.ltb_ge|apply Z.ltb_ge]; lia).
  destruct (IsValidSubscript subscript "xyzw" (VectorTypeDim t)
            || IsValidSubscript subscript "rgba" (VectorTypeDim t)) eqn:Hvalid;
    cbn [negb].
  - split; [|split].
    + split; [intros _; split; [lia|now apply Hsets]|intros _; eauto].
    + intros Hn. lia.
    + intros _ Hn. exfalso. apply Hn. now apply Hsets.
  - split; [|split].
    + split; [intros [r Hr]; discriminate Hr|].
      intros [_ Hd]. apply Hsets in Hd. discriminate Hd.
    + intros Hn. lia.
    + reflexivity.
Qed.

Lemma SubscriptDataType_vector_criterion_witness :
  SubscriptDataType Float3 "" = Throw (R_VectorSubscriptCantHaveNComps 0) /\
  SubscriptDataType Float3 "xyzxy" = Throw (R_VectorSubscriptCantHaveNComps 5) /\
  SubscriptDataType Float3 "xw" = Throw (R_InvalidVectorSubscript "xw" Float3).
Proof.
  destruct (SubscriptDataType_vector_criterion Float3 "" eq_refl) as (_ & H0 & _).
  destruct (SubscriptDataType_vector_criterion Float3 "xyzxy" eq_refl) as (_ & H5 & _).
  destruct (SubscriptDataType_vector_criterion Float3 "xw" eq_refl) as (_ & _ & Hw).
  split; [apply H0; vm_compute; lia|].
  split; [apply H5; vm_compute; lia|].
  apply Hw; [vm_compute; lia|].
  intros [Hd|Hd]; specialize (Hd "w"%char); vm_compute in Hd; intuition discriminate.
Defined.

(** X11. The two naming sets are never mixed: a subscript that holds a
    character of "xyzw" and a character of "rgba" is rejected for every
    scalar and vector type. *)
Theorem SubscriptDataType_sets_not_mixed (t : DataType) (subscript : string) (c1 c2 : ascii) :
  IsScalarType t || IsVectorType t = true ->
  In c1 (list_ascii_of_string subscript) ->
  In c2 (list_ascii_of_string subscript) ->
  In c1 (list_ascii_of_string "xyzw") ->
  In c2 (list_ascii_of_string "rgba") ->
  exists e : Report, SubscriptDataType t subscript = Throw e.
Proof.
  intros Ht H1 H2 Hx Hr.
  destruct (SubscriptDataType t subscript) as [r|e] eqn:Hres; [|eauto].
  exfalso.
  destruct (SubscriptDataType_vector_accepted t r subscript Ht Hres) as [Hd|Hd].
  - pose proof (first_chars_subset _ _ _ (Hd c2 H2)) as Hin.
    cbn in Hin, Hr. intuition congruence.
  - pose proof (first_chars_subset _ _ _ (Hd c1 H1)) as Hin.
    cbn in Hin, Hx. intuition congruence.
Qed.

Lemma SubscriptDataType_sets_not_mixed_witness :
  exists e : Report, SubscriptDataType Float4 "xg" = Throw e.
Proof.
  apply (SubscriptDataType_sets_not_mixed Float4 "xg" "x" "g");
    [reflexivity|cbn; tauto..].
Defined.

(* ================================================================== *)
(** * The string tables *)
(* ================================================================== *)

Section FindSecond.

Context {K V : Type} `{EqDecision V}.

Lemma find_second_Some (entries : list (K * V)) (x : V) (k : K) :
find_second entries x = Some k -> (k, x) ∈ entries.
Proof.
induction entries as [|[k' v'] rest IH]; cbn; [discriminate|].
destruct (decide (v' = x)) as [->|Hne].
- intros [= ->]. apply list_elem_of_here.
- intros Hrest. apply list_elem_of_further. auto.
Qed.

Lemma find_second_None (entries : list (K * V)) (x : V) :
find_second entries x = None <-> forall k, (k, x) ∉ entries.
Proof.
induction entries as [|[k' v'] rest IH]; cbn.
- split; [intros _ k Hk; inversion Hk|reflexivity].
- destruct (decide (v' = x)) as [->|Hne].
  + split; [discriminate|]. intros Hno. exfalso. apply (Hno k'). apply list_elem_of_here.
  + rewrite IH. split.
    * intros Hno k Hk. apply elem_of_cons in Hk as [[= _ Hv]|Hk];
        [congruence|now apply (Hno k)].
    * intros Hno k Hk. apply (Hno k). now apply list_elem_of_further.
Qed.

(** When a single key holds the value, the search finds that key. *)
Lemma find_second_unique (entries : list (K * V)) (x : V) (k : K) :
(forall k', (k', x) ∈ entries -> k' = k) ->
(k, x) ∈ entries ->
find_second entries x = Some k.
Proof.
intros Huniq Hin.
destruct (find_second entries x) as [k'|] eqn:Hfind.
- apply find_second_Some in Hfind. f_equal. auto.
- exfalso. rewrite find_second_None in Hfind. now apply (Hfind k).
Qed.

(** The order in which the entries are visited does not matter when no
  two entries hold the value that is searched. *)
Lemma find_second_Permutation (entries entries' : list (K * V)) (x : V) :
entries ≡ₚ entries' ->
(forall k1 k2, (k1, x) ∈ entries -> (k2, x) ∈ entries -> k1 = k2) ->
find_second entries x = find_second entries' x.
Proof.
intros Hperm Huniq.
destruct (find_second entries x) as [k|] eqn:Hfind.
- apply find_second_Some in Hfind. symmetry. apply find_second_unique.
  + intros k' Hk'. rewrite <- Hperm in Hk'. eauto.
  + now rewrite <- Hperm.
- symmetry. rewrite find_second_None in Hfind |- *.
  intros k Hk. rewrite <- Hperm in Hk. now apply (Hfind k).
Qed.

End FindSecond.

(** A table whose values are all different has at most one key for a
    value. *)
Lemma NoDup_values_distinct {K V : Type} `{Countable K} (m : gmap K V) :
  NoDup (map snd (map_to_list m)) ->
  forall (k1 k2 : K) (v : V), m !! k1 = Some v -> m !! k2 = Some v -> k1 = k2.
Proof.
  intros Hnodup k1 k2 v H1 H2.
  apply elem_of_map_to_list, list_elem_of_lookup in H1 as [i Hi].
  apply elem_of_map_to_list, list_elem_of_lookup in H2 as [j Hj].
  assert (Hvi : map snd (map_to_list m) !! i = Some v)
    by (rewrite list_lookup_fmap, Hi; reflexivity).
  assert (Hvj : map snd (map_to_list m) !! j = Some v)
    by (rewrite list_lookup_fmap, Hj; reflexivity).
  pose proof (NoDup_lookup _ _ _ _ Hnodup Hvi Hvj) as ->.
  rewrite Hi in Hj. now injection Hj.
Qed.

(** X12. The templates [TypeToString] and [StringToType] on any table:
    [StringToType] returns only a key whose entry holds the string, so
    [TypeToString] maps the result back to the string; it fails exactly
    when no entry holds the string; and when no two entries hold the same
    string, [StringToType] maps the string of every key back to the
    key. *)
Theorem StringToType_TypeToString
    (T : Type) (eq_dec : EqDecision T) (countable : Countable T)
    (typeMap : gmap T string) (typeName : string) :
  (forall (str : string) (type : T),
      StringToType typeMap str typeName = OK type ->
      TypeToString typeMap type typeName = OK str) /\
  (forall str : string,
      StringToType typeMap str typeName = Throw (R_FailedToMap "string" typeName)
      <-> forall type : T, typeMap !! type <> Some str) /\
  ((forall (k1 k2 : T) (s : string),
       typeMap !! k1 = Some s -> typeMap !! k2 = Some s -> k1 = k2) ->
   forall (type : T) (str : string),
     TypeToString typeMap type typeName = OK str ->
     StringToType typeMap str typeName = OK type).
Proof.
  unfold StringToType, TypeToString, MapFailed. split; [|split].
  - intros str type.
    destruct (find_second (map_to_list typeMap) str) as [k|] eqn:Hfind; [|discriminate].
    intros [= ->]. apply find_second_Some, elem_of_map_to_list in Hfind.
    now rewrite Hfind.
  - intros str.
    destruct (find_second (map_to_list typeMap) str) as [k|] eqn:Hfind.
    + split; [discriminate|]. intros Hno. exfalso.
      apply find_second_Some, elem_of_map_to_list in Hfind. now apply (Hno k).
    + split; [|reflexivity]. intros _ type Htype.
      rewrite find_second_None in Hfind. apply (Hfind type).
      now apply elem_of_map_to_list.
  - intros Hinj type str.
    destruct (typeMap !! type) as [s|] eqn:Hlook; [|discriminate].
    intros [= ->]. rewrite (find_second_unique _ str type); [reflexivity| |].
    + intros k' Hk'. apply elem_of_map_to_list in Hk'. eauto.
    + now apply elem_of_map_to_list.
Qed.

Lemma g_mapUnaryOp_distinct (k1 k2 : UnaryOp.t) (s : string) :
  g_mapUnaryOp !! k1 = Some s -> g_mapUnaryOp !! k2 = Some s -> k1 = k2.
Proof.
  apply NoDup_values_distinct. apply (bool_decide_unpack _). vm_compute. exact I.
Qed.

Lemma StringToType_TypeToString_witness :
  StringToType g_mapUnaryOp "--" "UnaryOp" = OK UnaryOp.Dec /\
  TypeToString g_mapUnaryOp UnaryOp.Dec "UnaryOp" = OK "--"%string.
Proof.
  destruct (StringToType_TypeToString UnaryOp.t _ _ g_mapUnaryOp "UnaryOp")
    as (Hback & _ & Hround).
  assert (Hs : StringToType g_mapUnaryOp "--" "UnaryOp" = OK UnaryOp.Dec).
  { apply (Hround g_mapUnaryOp_distinct). reflexivity. }
  split; [exact Hs|]. apply Hback. exact Hs.
Defined.

(** X13. The secondary templates, whose tables are keyed by the string:
    [TypeToStringSecondary] returns only a string whose entry holds the
    value, so [StringToTypeSecondary] maps the result back; it fails
    exactly when no entry holds the value; and when no two strings hold
    the same value, it maps the value of every string back to the
    string. *)
Theorem TypeToStringSecondary_StringToTypeSecondary
    (T : Type) (eq_dec : EqDecision T)
    (typeMap : gmap string T) (typeName : string) :
  (forall (type : T) (str : string),
      TypeToStringSecondary typeMap type typeName = OK str ->
      StringToTypeSecondary typeMap str typeName = OK type) /\
  (forall type : T,
      TypeToStringSecondary typeMap type typeName = Throw (R_FailedToMap typeName "string")
      <-> forall str : string, typeMap !! str <> Some type) /\
  ((forall (s1 s2 : string) (type : T),
       typeMap !! s1 = Some type -> typeMap !! s2 = Some type -> s1 = s2) ->
   forall (str : string) (type : T),
     StringToTypeSecondary typeMap str typeName = OK type ->
     TypeToStringSecondary typeMap type typeName = OK str).
Proof.
  unfold StringToTypeSecondary, TypeToStringSecondary, MapFailed. split; [|split].
  - intros type str.
    destruct (find_second (map_to_list typeMap) type) as [k|] eqn:Hfind; [|discriminate].
    intros [= ->]. apply find_second_Some, elem_of_map_to_list in Hfind.
    now rewrite Hfind.
  - intros type.
    destruct (find_second (map_to_list typeMap) type) as [k|] eqn:Hfind.
    + split; [discriminate|]. intros Hno. exfalso.
      apply find_second_Some, elem_of_map_to_list in Hfind. now apply (Hno k).
    + split; [|reflexivity]. intros _ str Hstr.
      rewrite find_second_None in Hfind. apply (Hfind str).
      now apply elem_of_map_to_list.
  - intros Hinj str type.
    destruct (typeMap !! str) as [v|] eqn:Hlook; [|discriminate].
    intros [= ->]. rewrite (find_second_unique _ type str); [reflexivity| |].
    + intros k' Hk'. apply elem_of_map_to_list in Hk'. eauto.
    + now apply elem_of_map_to_list.
Qed.

Lemma g_mapTexAddressMode_distinct (s1 s2 : string) (t : Reflection.TextureAddressMode) :
  g_mapTexAddressMode !! s1 = Some t -> g_mapTexAddressMode !! s2 = Some t -> s1 = s2.
Proof.
  apply NoDup_values_distinct. apply (bool_decide_unpack _). vm_compute. exact I.
Qed.

Lemma TypeToStringSecondary_StringToTypeSecondary_witness :
  StringToTypeSecondary g_mapTexAddressMode "MIRROR_ONCE" "SamplerState::TextureAddressMode"
    = OK Reflection.MirrorOnce /\
  TypeToStringSecondary g_mapTexAddressMode Reflection.MirrorOnce
    "SamplerState::TextureAddressMode" = OK "MIRROR_ONCE"%string.
Proof.
  destruct (TypeToStringSecondary_StringToTypeSecondary _ _ g_mapTexAddressMode
              "SamplerState::TextureAddressMode") as (_ & _ & Hround).
  split; [reflexivity|].
  apply (Hround g_mapTexAddressMode_distinct). reflexivity.
Defined.

Section TableDistinct.

Lemma g_mapAssignOp_distinct (k1 k2 : AssignOp.t) (s : string) :
g_mapAssignOp !! k1 = Some s -> g_mapAssignOp !! k2 = Some s -> k1 = k2.
Proof.
apply NoDup_values_distinct. apply (bool_decide_unpack _). vm_compute. exact I.
Qed.

Lemma g_mapBinaryOp_distinct (k1 k2 : BinaryOp.t) (s : string) :
g_mapBinaryOp !! k1 = Some s -> g_mapBinaryOp !! k2 = Some s -> k1 = k2.
Proof.
apply NoDup_values_distinct. apply (bool_decide_unpack _). vm_compute. exact I.
Qed.

Lemma g_mapCtrlTransfer_distinct (k1 k2 : CtrlTransfer.t) (s : string) :
g_mapCtrlTransfer !! k1 = Some s -> g_mapCtrlTransfer !! k2 = Some s -> k1 = k2.
Proof.
apply NoDup_values_distinct. apply (bool_decide_unpack _). vm_compute. exact I.
Qed.

Lemma g_mapFilter_distinct (s1 s2 : string) (t : Reflection.Filter) :
g_mapFilter !! s1 = Some t -> g_mapFilter !! s2 = Some t -> s1 = s2.
Proof.
apply NoDup_values_distinct. apply (bool_decide_unpack _). vm_compute. exact I.
Qed.

Lemma g_mapCompareFunc_distinct (s1 s2 : string) (t : Reflection.ComparisonFunc) :
g_mapCompareFunc !! s1 = Some t -> g_mapCompareFunc !! s2 = Some t -> s1 = s2.
Proof.
apply NoDup_values_distinct. apply (bool_decide_unpack _). vm_compute. exact I.
Qed.

(** The round trip of a table with distinct strings, in the shape the
  operator tables use it. *)
Lemma table_round_trip {T : Type} `{Countable T}
  (typeMap : gmap T string) (typeName : string) (type : T) (str : string) :
(forall (k1 k2 : T) (s : string),
    typeMap !! k1 = Some s -> typeMap !! k2 = Some s -> k1 = k2) ->
typeMap !! type = Some str ->
TypeToString typeMap type typeName = OK str /\
StringToType typeMap str typeName = OK type.
Proof.
intros Hinj Hlook. unfold TypeToString, StringToType. rewrite Hlook.
split; [reflexivity|].
rewrite (find_second_unique _ str type); [reflexivity| |].
- intros k' Hk'. apply elem_of_map_to_list in Hk'. eauto.
- now apply elem_of_map_to_list.
Qed.

Lemma table_back {T : Type} `{Countable T}
  (typeMap : gmap T string) (typeName : string) (type : T) (str : string) :
StringToType typeMap str typeName = OK type ->
TypeToString typeMap type typeName = OK str.
Proof.
unfold StringToType, TypeToString, MapFailed.
destruct (find_second (map_to_list typeMap) str) as [k|] eqn:Hfind; [|discriminate].
intros [= ->]. apply find_second_Some, elem_of_map_to_list in Hfind.
now rewrite Hfind.
Qed.

Lemma secondary_round_trip {T : Type} `{EqDecision T}
  (typeMap : gmap string T) (typeName : string) (type : T) (str : string) :
(forall (s1 s2 : string) (t : T),
    typeMap !! s1 = Some t -> typeMap !! s2 = Some t -> s1 = s2) ->
typeMap !! str = Some type ->
TypeToStringSecondary typeMap type typeName = OK str /\
StringToTypeSecondary typeMap str typeName = OK type.
Proof.
intros Hinj Hlook. unfold TypeToStringSecondary, StringToTypeSecondary. rewrite Hlook.
split; [|reflexivity].
rewrite (find_second_unique _ type str); [reflexivity| |].
- intros k' Hk'. apply elem_of_map_to_list in Hk'. eauto.
- now apply elem_of_map_to_list.
Qed.

Lemma secondary_back {T : Type} `{EqDecision T}
  (typeMap : gmap string T) (typeName : string) (type : T) (str : string) :
TypeToStringSecondary typeMap type typeName = OK str ->
StringToTypeSecondary typeMap str typeName = OK type.
Proof.
unfold StringToTypeSecondary, TypeToStringSecondary, MapFailed.
destruct (find_second (map_to_list typeMap) type) as [k|] eqn:Hfind; [|discriminate].
intros [= ->]. apply find_second_Some, elem_of_map_to_list in Hfind.
now rewrite Hfind.
Qed.

End TableDistinct.





(** X16. The three tables of the sampler states are one-to-one: every
    filter, texture address mode and comparison function that the
    tables name has a name, the name is mapped back to the enumerator,
    and a name that maps to an enumerator is the name of that
    enumerator. *)
Theorem sampler_state_tables_one_to_one :
  (forall t : Reflection.Filter,
      exists s, FilterToString t = OK s /\ StringToFilter s = OK t) /\
  (forall t : Reflection.TextureAddressMode,
      exists s, TexAddressModeToString t = OK s /\ StringToTexAddressMode s = OK t) /\
  (forall t : Reflection.ComparisonFunc,
      exists s, CompareFuncToString t = OK s /\ StringToCompareFunc s = OK t) /\
  (forall s t, StringToFilter s = OK t -> FilterToString t = OK s) /\
  (forall s t, StringToTexAddressMode s = OK t -> TexAddressModeToString t = OK s) /\
  (forall s t, StringToCompareFunc s = OK t -> CompareFuncToString t = OK s).
Proof.
  repeat match goal with |- _ /\ _ => split end.
  - intros t. destruct (FilterToString t) as [s|e] eqn:Hs.
    + exists s. split; [reflexivity|]. unfold FilterToString in Hs. unfold StringToFilter.
      exact (secondary_back _ _ _ _ Hs).
    + exfalso. destruct t; vm_compute in Hs; discriminate Hs.
  - intros t. destruct (TexAddressModeToString t) as [s|e] eqn:Hs.
    + exists s. split; [reflexivity|]. unfold TexAddressModeToString in Hs. unfold StringToTexAddressMode.
      exact (secondary_back _ _ _ _ Hs).
    + exfalso. destruct t; vm_compute in Hs; discriminate Hs.
  - intros t. destruct (CompareFuncToString t) as [s|e] eqn:Hs.
    + exists s. split; [reflexivity|]. unfold CompareFuncToString in Hs. unfold StringToCompareFunc.
      exact (secondary_back _ _ _ _ Hs).
    + exfalso. destruct t; vm_compute in Hs; discriminate Hs.
  - intros s t Hs. unfold StringToFilter, StringToTypeSecondary, MapFailed in Hs.
    destruct (g_mapFilter !! s) as [v|] eqn:Hl; [|discriminate Hs].
    injection Hs as ->. unfold FilterToString.
    exact (proj1 (secondary_round_trip g_mapFilter _ _ s g_mapFilter_distinct Hl)).
  - intros s t Hs. unfold StringToTexAddressMode, StringToTypeSecondary, MapFailed in Hs.
    destruct (g_mapTexAddressMode !! s) as [v|] eqn:Hl; [|discriminate Hs].
    injection Hs as ->. unfold TexAddressModeToString.
    exact (proj1 (secondary_round_trip g_mapTexAddressMode _ _ s g_mapTexAddressMode_distinct Hl)).
  - intros s t Hs. unfold StringToCompareFunc, StringToTypeSecondary, MapFailed in Hs.
    destruct (g_mapCompareFunc !! s) as [v|] eqn:Hl; [|discriminate Hs].
    injection Hs as ->. unfold CompareFuncToString.
    exact (proj1 (secondary_round_trip g_mapCompareFunc _ _ s g_mapCompareFunc_distinct Hl)).
Qed.

(* ================================================================== *)
(** * Register types and register names *)
(* ================================================================== *)

(** X17. [CharToRegisterType] and [RegisterTypeToChar] are inverse to
    each other on the register types: every register type is recovered
    from its character ([Undefined] from the null character), a
    character is recovered from its register type exactly when it is one
    of 'b', 't', 'c', 's', 'u' or the null character, and every other
    character has the register type [Undefined]. *)
Theorem CharToRegisterType_RegisterTypeToChar (t : RegisterType.t) (c : ascii) :
  CharToRegisterType (RegisterTypeToChar t) = t /\
  (RegisterTypeToChar (CharToRegisterType c) = c <->
     In c (list_ascii_of_string "btcsu") \/ c = Std.NUL) /\
  (CharToRegisterType c = RegisterType.Undefined <->
     ~ In c (list_ascii_of_string "btcsu")).
Proof.
  split; [destruct t; reflexivity|].
  destruct c as [[] [] [] [] [] [] [] []]; vm_compute;
    (split; split; intros Hc);
    try reflexivity; try discriminate Hc; try tauto;
    try (intuition discriminate).
Qed.

Section RegisterNames.

Import GLSLGenerator GLSLGeneratorRoutines.
Context {Expr : Type}.

(** The four routines differ in the prefix only. *)
Lemma Register_with_prefix (prefix : ascii) (registerName : string)
  (out : list (Emit Expr)) :
seq Expr (ValidateRegisterPrefix registerName prefix)
    (fun _ => ret Expr (Std.substr_from registerName 1)) out
= if Std.empty registerName || negb (Ascii.eqb (Std.at_ registerName 0) prefix)
  then Throw (register_prefix_message (Std.at_ registerName 0) prefix)
  else OK (Std.substr_from registerName 1, out).
Proof.
unfold seq, ValidateRegisterPrefix, ret, Error.
destruct (Std.empty registerName || negb (Ascii.eqb (Std.at_ registerName 0) prefix));
  reflexivity.
Qed.

Lemma substr_from_one (c : ascii) (rest : string) :
Std.substr_from (String c rest) 1 = rest.
Proof.
unfold Std.substr_from. rewrite size_cons. cbn [Nat.sub].
rewrite Nat.sub_0_r. cbn [String.substring]. apply substring_all.
Qed.

Lemma Register_accepts (prefix : ascii) (registerName : string)
  (out : list (Emit Expr)) (r : string * list (Emit Expr)) :
seq Expr (ValidateRegisterPrefix registerName prefix)
    (fun _ => ret Expr (Std.substr_from registerName 1)) out = OK r
<-> registerName = String prefix (fst r) /\ snd r = out.
Proof.
rewrite Register_with_prefix. destruct registerName as [|c rest].
- cbn. split; [discriminate|]. intros [Hn _]. discriminate Hn.
- change (Std.empty (String c rest)) with false.
  change (Std.at_ (String c rest) 0) with c. cbn [orb].
  rewrite substr_from_one.
  destruct (Ascii.eqb_spec c prefix) as [->|Hc]; cbn [negb].
  + split; [intros [= <-]; now split|].
    destruct r as [r1 r2]. cbn. intros [[= ->] ->]. reflexivity.
  + split; [discriminate|]. intros [[= Hp _] _]. contradiction.
Qed.

End RegisterNames.

(** X18. The four register routines of the emitter return the register
    name without its first character exactly when the name starts with
    their letter, leave the record of the output as it is, and throw on
    every other name, the empty one included; the names they accept are
    those whose first character [CharToRegisterType] maps to the
    constant buffer, the texture buffer, the sampler and the unordered
    access view respectively. *)
Theorem Register_routines
    (Expr : Type) (registerName : string) (out : list (GLSLGenerator.Emit Expr))
    (r : string * list (GLSLGenerator.Emit Expr)) :
  (GLSLGeneratorRoutines.BRegister registerName out = OK r <->
     registerName = String "b" (fst r) /\ snd r = out) /\
  (GLSLGeneratorRoutines.TRegister registerName out = OK r <->
     registerName = String "t" (fst r) /\ snd r = out) /\
  (GLSLGeneratorRoutines.SRegister registerName out = OK r <->
     registerName = String "s" (fst r) /\ snd r = out) /\
  (GLSLGeneratorRoutines.URegister registerName out = OK r <->
     registerName = String "u" (fst r) /\ snd r = out) /\
  ((exists r', GLSLGeneratorRoutines.BRegister registerName out = OK r') <->
     Std.empty registerName = false /\
     CharToRegisterType (Std.at_ registerName 0) = RegisterType.ConstantBuffer) /\
  ((exists r', GLSLGeneratorRoutines.TRegister registerName out = OK r') <->
     Std.empty registerName = false /\
     CharToRegisterType (Std.at_ registerName 0) = RegisterType.TextureBuffer) /\
  ((exists r', GLSLGeneratorRoutines.SRegister registerName out = OK r') <->
     Std.empty registerName = false /\
     CharToRegisterType (Std.at_ registerName 0) = RegisterType.Sampler) /\
  ((exists r', GLSLGeneratorRoutines.URegister registerName out = OK r') <->
     Std.empty registerName = false /\
     CharToRegisterType (Std.at_ registerName 0) = RegisterType.UnorderedAccessView).
Proof.
  unfold GLSLGeneratorRoutines.BRegister, GLSLGeneratorRoutines.TRegister,
    GLSLGeneratorRoutines.SRegister, GLSLGeneratorRoutines.URegister.
  repeat match goal with |- _ /\ _ => split end;
    try apply Register_accepts;
    rewrite Register_with_prefix;
    (destruct registerName as [|c rest];
     [cbn; split; [intros [r' Hr]; discriminate Hr|intros [Hn _]; discriminate Hn]|]);
    change (Std.empty (String c rest)) with false;
    change (Std.at_ (String c rest) 0) with c; cbn [orb];
    destruct c as [[] [] [] [] [] [] [] []]; vm_compute;
    (split; [intros [r' Hr]; first [discriminate Hr|split; reflexivity]
            |intros [_ Hc]; first [discriminate Hc|eauto]]).
Qed.

Lemma Register_routines_witness :
  GLSLGeneratorRoutines.BRegister (Expr := unit) "b3" [] = OK ("3"%string, []).
Proof.
  apply (proj1 (Register_routines unit "b3" [] ("3"%string, []))).
  split; reflexivity.
Defined.

(* ================================================================== *)
(** * The order of indexed semantics *)
(* ================================================================== *)

Section StringOrder.

Lemma ascii_compare_refl (c : ascii) : Ascii.compare c c = Eq.
Proof. unfold Ascii.compare. apply N.compare_refl. Qed.

Lemma ascii_compare_Eq (c d : ascii) : Ascii.compare c d = Eq -> c = d.
Proof.
unfold Ascii.compare. intros Hc%N.compare_eq_iff.
rewrite <- (ascii_N_embedding c), <- (ascii_N_embedding d). now f_equal.
Qed.

Lemma ascii_compare_Lt_trans (c d e : ascii) :
Ascii.compare c d = Lt -> Ascii.compare d e = Lt -> Ascii.compare c e = Lt.
Proof.
unfold Ascii.compare. rewrite !N.compare_lt_iff. apply N.lt_trans.
Qed.

Lemma string_compare_refl (s : string) : String.compare s s = Eq.
Proof.
induction s as [|c s IH]; [reflexivity|].
cbn [String.compare]. now rewrite ascii_compare_refl.
Qed.

Lemma string_compare_Lt_trans (s1 : string) :
forall s2 s3, String.compare s1 s2 = Lt -> String.compare s2 s3 = Lt ->
String.compare s1 s3 = Lt.
Proof.
induction s1 as [|c1 s1 IH]; intros [|c2 s2] [|c3 s3]; cbn [String.compare];
  try discriminate; try reflexivity.
destruct (Ascii.compare c1 c2) eqn:H12; try discriminate;
  destruct (Ascii.compare c2 c3) eqn:H23; try discriminate.
- apply ascii_compare_Eq in H12, H23. subst.
  rewrite ascii_compare_refl. apply IH.
- apply ascii_compare_Eq in H12. subst. now rewrite H23.
- apply ascii_compare_Eq in H23. subst. now rewrite H12.
- now rewrite (ascii_compare_Lt_trans _ _ _ H12 H23).
Qed.

Lemma string_ltb_irrefl (s : string) : String.ltb s s = false.
Proof. unfold String.ltb. now rewrite string_compare_refl. Qed.

Lemma string_ltb_asym (s1 s2 : string) :
String.ltb s1 s2 = true -> String.ltb s2 s1 = false.
Proof.
unfold String.ltb. rewrite (String.compare_antisym s1 s2).
destruct (String.compare s2 s1); cbn; congruence.
Qed.

Lemma string_ltb_trans (s1 s2 s3 : string) :
String.ltb s1 s2 = true -> String.ltb s2 s3 = true -> String.ltb s1 s3 = true.
Proof.
unfold String.ltb.
destruct (String.compare s1 s2) eqn:H12; try discriminate.
destruct (String.compare s2 s3) eqn:H23; try discriminate.
now rewrite (string_compare_Lt_trans _ _ _ H12 H23).
Qed.

Lemma string_ltb_total (s1 s2 : string) :
String.ltb s1 s2 = false -> String.ltb s2 s1 = false -> s1 = s2.
Proof.
unfold String.ltb. rewrite (String.compare_antisym s1 s2).
destruct (String.compare s2 s1) eqn:H21; cbn; try discriminate.
intros _ _. symmetry. now apply String.compare_eq_iff.
Qed.

End StringOrder.

(** X19. [IndexedSemantic::operator <] is a strict total order on the
    records, whatever distinct values the enumerators of [Semantic]
    have: no record is below itself, the relation is asymmetric and
    transitive, and two records neither of which is below the other are
    the same record.  It is the order by semantic, then by index, then
    by the user-defined name. *)
Theorem IndexedSemantic_lt_strict_total_order
    (values : SemanticValues) (a b c : IndexedSemantic.t) :
  IndexedSemanticOrder.lt a a = false /\
  (IndexedSemanticOrder.lt a b = true -> IndexedSemanticOrder.lt b a = false) /\
  (IndexedSemanticOrder.lt a b = true -> IndexedSemanticOrder.lt b c = true ->
   IndexedSemanticOrder.lt a c = true) /\
  (IndexedSemanticOrder.lt a b = false -> IndexedSemanticOrder.lt b a = false ->
   a = b).
Proof.
  destruct a as [ka ia ua], b as [kb ib ub], c as [kc ic uc].
  unfold IndexedSemanticOrder.lt. cbn [IndexedSemantic.semantic_
    IndexedSemantic.index_ IndexedSemantic.userDefined_].
  pose proof (Semantic_value_inj ka kb) as Hab.
  pose proof (string_ltb_irrefl ua) as Hirr.
  pose proof (string_ltb_asym ua ub) as Hasym.
  pose proof (string_ltb_trans ua ub uc) as Htrans.
  pose proof (string_ltb_total ua ub) as Htot.
  refine (conj _ (conj _ (conj _ _))).
  - rewrite !Z.gtb_ltb, !Z.ltb_irrefl. exact Hirr.
  - rewrite !Z.gtb_ltb.
    destruct (Z.ltb_spec (Semantic_value kb) (Semantic_value ka)),
      (Z.ltb_spec (Semantic_value ka) (Semantic_value kb)),
      (Z.ltb_spec ib ia), (Z.ltb_spec ia ib);
      try discriminate; try reflexivity; try lia; exact Hasym.
  - rewrite !Z.gtb_ltb.
    destruct (Z.ltb_spec (Semantic_value kb) (Semantic_value ka)),
      (Z.ltb_spec (Semantic_value ka) (Semantic_value kb)),
      (Z.ltb_spec (Semantic_value kc) (Semantic_value kb)),
      (Z.ltb_spec (Semantic_value kb) (Semantic_value kc)),
      (Z.ltb_spec (Semantic_value kc) (Semantic_value ka)),
      (Z.ltb_spec (Semantic_value ka) (Semantic_value kc));
      try discriminate; try reflexivity; try lia;
      destruct (Z.ltb_spec ib ia), (Z.ltb_spec ia ib),
        (Z.ltb_spec ic ib), (Z.ltb_spec ib ic),
        (Z.ltb_spec ic ia), (Z.ltb_spec ia ic);
      try discriminate; try reflexivity; try lia; exact Htrans.
  - rewrite !Z.gtb_ltb.
    destruct (Z.ltb_spec (Semantic_value kb) (Semantic_value ka)),
      (Z.ltb_spec (Semantic_value ka) (Semantic_value kb)),
      (Z.ltb_spec ib ia), (Z.ltb_spec ia ib);
      try discriminate; try lia.
    intros Hu1 Hu2. rewrite (Hab ltac:(lia)), (Htot Hu1 Hu2).
    f_equal. lia.
Qed.

Lemma IndexedSemantic_lt_strict_total_order_witness :
  IndexedSemanticOrder.lt (H := sample_values)
    (IndexedSemantic.mk Semantic.UserDefined 0 "NORMAL")
    (IndexedSemantic.from_semantic Semantic.Target 1) = true.
Proof.
  apply (proj1 (proj2 (proj2
           (IndexedSemantic_lt_strict_total_order sample_values
              (IndexedSemantic.mk Semantic.UserDefined 0 "NORMAL")
              (IndexedSemantic.from_semantic Semantic.Depth 4)
              (IndexedSemantic.from_semantic Semantic.Target 1)))));
    reflexivity.
Defined.

(* ================================================================== *)
(** * The string constructor of indexed semantics *)
(* ================================================================== *)

Section StringConstructor.

Local Open Scope string_scope.

Context {init : IndexedSemantic.MemberInit}.

Lemma from_string_all_digits (s : string) :
all_digits s = true ->
IndexedSemantic.from_string s
= IndexedSemantic.mk Semantic.UserDefined IndexedSemantic.index_default s.
Proof.
intros Hs. unfold IndexedSemantic.from_string.
now rewrite find_last_not_of_digits.
Qed.

Lemma from_string_no_digits (U : string) :
U <> "" -> Std.isdigit (Std.back U) = false ->
IndexedSemantic.from_string U
= IndexedSemantic.mk Semantic.UserDefined IndexedSemantic.index_default U.
Proof.
intros HU Hb. unfold IndexedSemantic.from_string.
rewrite find_last_not_of_back by assumption.
assert (1 <= Std.size U)%nat by (destruct U; [congruence|rewrite size_cons; lia]).
destruct (Nat.ltb_spec (Std.size U - 1 + 1) (Std.size U)); [lia|reflexivity].
Qed.

Lemma from_string_app (U D : string) :
U <> "" -> Std.isdigit (Std.back U) = false ->
D <> "" -> all_digits D = true ->
IndexedSemantic.from_string (U ++ D)
= IndexedSemantic.mk Semantic.UserDefined (Std.atoi D) U.
Proof.
intros HU Hb HD Hall. unfold IndexedSemantic.from_string.
assert (1 <= Std.size U)%nat by (destruct U; [congruence|rewrite size_cons; lia]).
assert (1 <= Std.size D)%nat by (destruct D; [congruence|rewrite size_cons; lia]).
rewrite find_last_not_of_app_digits by exact Hall.
rewrite find_last_not_of_back by assumption.
rewrite size_app.
destruct (Nat.ltb_spec (Std.size U - 1 + 1) (Std.size U + Std.size D)); [|lia].
replace (S (Std.size U - 1)) with (Std.size U) by lia.
now rewrite substr_app_l, substr_from_app_r.
Qed.

(** Every string is a run of decimal digits, or a part that ends in
  another character followed by a run of decimal digits. *)
Lemma trailing_digits (s : string) :
all_digits s = true \/
exists U D : string,
  s = U ++ D /\ U <> "" /\ Std.isdigit (Std.back U) = false /\ all_digits D = true.
Proof.
induction s as [|c s IH]; [now left|].
destruct IH as [Hs|(U & D & -> & HU & Hb & HD)].
- destruct (Std.isdigit c) eqn:Hc.
  + left. cbn [all_digits]. now rewrite Hc, Hs.
  + right. exists (String c ""), s. now repeat split.
- right. exists (String c U), D. rewrite append_cons.
  split; [reflexivity|]. split; [discriminate|].
  split; [|exact HD]. now rewrite back_cons.
Qed.

Lemma SemanticToString_system `{ReportIdents} (k : Semantic.t) :
k <> Semantic.Undefined -> k <> Semantic.UserDefined ->
SemanticToString k <> "" /\ Std.isdigit (Std.back (SemanticToString k)) = false.
Proof.
intros H1 H2. destruct k; try contradiction; split; try discriminate; reflexivity.
Qed.

Lemma SemanticToString_system_inj `{ReportIdents} (k k' : Semantic.t) :
k <> Semantic.Undefined -> k <> Semantic.UserDefined ->
k' <> Semantic.Undefined -> k' <> Semantic.UserDefined ->
SemanticToString k = SemanticToString k' -> k = k'.
Proof.
intros H1 H2 H3 H4 Heq.
destruct k; try contradiction; destruct k'; try contradiction;
  try reflexivity; vm_compute in Heq; discriminate Heq.
Qed.

Lemma from_string_system `{ReportIdents} (k : Semantic.t) (i : Z) :
k <> Semantic.Undefined -> k <> Semantic.UserDefined -> 0 <= i ->
IndexedSemantic.from_string
  (IndexedSemantic.ToString (IndexedSemantic.from_semantic k i))
= IndexedSemantic.mk Semantic.UserDefined i (SemanticToString k).
Proof.
intros H1 H2 Hi. unfold IndexedSemantic.ToString, IndexedSemantic.from_semantic.
cbn [IndexedSemantic.semantic_ IndexedSemantic.index_ IndexedSemantic.userDefined_].
rewrite decide_False by exact H2.
destruct (SemanticToString_system k H1 H2) as [Hne Hb].
destruct (to_string_digits i Hi) as [Hall HD].
rewrite from_string_app by assumption.
now rewrite atoi_to_string.
Qed.

End StringConstructor.



(** X21. A system-value semantic and its index can be read off what
    [ToString] prints.  For a semantic other than [Undefined] and
    [UserDefined] and an index [i >= 0], the string constructor applied
    to the printed text gives the name of the semantic and the index
    [i]; hence two such indexed semantics that print the same text have
    the same semantic and the same index. *)
Theorem IndexedSemantic_ToString_system
    (reports : ReportIdents) (init : IndexedSemantic.MemberInit)
    (k k' : Semantic.t) (i i' : Z) :
  k <> Semantic.Undefined -> k <> Semantic.UserDefined ->
  k' <> Semantic.Undefined -> k' <> Semantic.UserDefined ->
  0 <= i -> 0 <= i' ->
  IndexedSemantic.from_string
    (IndexedSemantic.ToString (IndexedSemantic.from_semantic k i))
  = IndexedSemantic.mk Semantic.UserDefined i (SemanticToString k) /\
  (IndexedSemantic.ToString (IndexedSemantic.from_semantic k i)
   = IndexedSemantic.ToString (IndexedSemantic.from_semantic k' i') ->
   k = k' /\ i = i').
Proof.
  intros Hk1 Hk2 Hk1' Hk2' Hi Hi'.
  split; [now apply from_string_system|].
  intros Heq. apply (f_equal IndexedSemantic.from_string) in Heq.
  rewrite !from_string_system in Heq by assumption.
  injection Heq as Hindex Hname.
  split; [|exact Hindex]. now apply (SemanticToString_system_inj k k').
Qed.

Lemma IndexedSemantic_ToString_system_witness :
  IndexedSemantic.from_string (H := sample_init)
    (IndexedSemantic.ToString (H := sample_reports)
       (IndexedSemantic.from_semantic Semantic.Target 2))
  = IndexedSemantic.mk Semantic.UserDefined 2
      (SemanticToString (H := sample_reports) Semantic.Target) /\
  (IndexedSemantic.ToString (H := sample_reports)
     (IndexedSemantic.from_semantic Semantic.Target 2)
   = IndexedSemantic.ToString (H := sample_reports)
       (IndexedSemantic.from_semantic Semantic.Depth 0) ->
   Semantic.Target = Semantic.Depth /\ 2 = 0).
Proof.
  apply (IndexedSemantic_ToString_system sample_reports sample_init
           Semantic.Target Semantic.Depth 2 0);
    first [discriminate | lia].
Defined.

(* ================================================================== *)
(** * The intrinsic [mul] *)
(* ================================================================== *)

Section MulIntrinsic.

Import GLSLGenerator GLSLGeneratorRoutines.
Context {Expr : Type} (Type_ : Expr -> AST.Types).

(** What [WriteMulArgument] appends to the record. *)
Lemma WriteMulArgument_record (expr : Expr) (out : list (Emit Expr)) :
exists w : list (Emit Expr),
  WriteMulArgument Type_ expr out = OK (tt, out ++ w) /\
  ((In (Type_ expr)
       [AST.TernaryExpr; AST.BinaryExpr; AST.UnaryExpr; AST.PostUnaryExpr] /\
    w = [E_Write "("; E_Visit expr; E_Write ")"]) \/
   (~ In (Type_ expr)
       [AST.TernaryExpr; AST.BinaryExpr; AST.UnaryExpr; AST.PostUnaryExpr] /\
    w = [E_Visit expr])).
Proof.
unfold WriteMulArgument.
destruct (Type_ expr);
  repeat first [rewrite bool_decide_eq_true_2 by reflexivity
               |rewrite bool_decide_eq_false_2 by discriminate];
  cbn [orb];
  eexists; (split; [unfold seq, Write, Visit, emit; cbn; rewrite <- ?app_assoc;
                    reflexivity|]);
  cbn [In app]; first [left; split; [tauto|reflexivity]
                      |right; split; [intuition discriminate|reflexivity]].
Qed.

End MulIntrinsic.



(* ================================================================== *)
(** * Subscripts: the number of components and the other types *)
(* ================================================================== *)

Lemma VectorDataType_scalar_Undefined (base : DataType) (n : Z) :
  IsScalarType base = true ->
  VectorDataType base n = Undefined <-> ~ 1 <= n <= 4.
Proof.
  intros Hb. destruct (Z_le_dec 1 n) as [H1|H1]; [destruct (Z_le_dec n 4) as [H4|H4]|].
  - assert (n = 1 \/ n = 2 \/ n = 3 \/ n = 4) as [-> | [-> | [-> | ->]]] by lia;
      destruct (IsScalarType_cases base Hb) as [-> | [-> | [-> | [-> | [-> | ->]]]]];
      (split; [intros Hu; discriminate Hu|intros Hn; exfalso; apply Hn; lia]).
  - unfold VectorDataType. rewrite Hb.
    case_compare; (split; [intros _ ?; lia|reflexivity]).
  - unfold VectorDataType. rewrite Hb.
    case_compare; (split; [intros _ ?; lia|reflexivity]).
Qed.

Lemma BaseDataType_matrix_scalar (t : DataType) :
  IsMatrixType t = true -> IsScalarType (BaseDataType t) = true.
Proof. destruct t; try discriminate; reflexivity. Qed.

(** X23. The subscripts of a matrix type are never rejected for their
    number of components, unlike those of a vector type: for a chain of
    well-formed components, [SubscriptDataType] returns the type
    [Undefined] without an error exactly when the chain is empty or has
    more than four components.  On the types that are neither scalar,
    vector nor matrix types ([Undefined] and [String]) every subscript is
    rejected with the report of an invalid matrix dimension 0 x 0. *)
Theorem SubscriptDataType_component_count (t : DataType) (cs : list string) :
  (IsMatrixType t = true -> Forall component cs ->
   (SubscriptDataType t (chain cs) = OK Undefined <->
      (length cs = 0 \/ 4 < length cs)%nat) /\
   SubscriptDataType t EmptyString = OK Undefined) /\
  (IsScalarType t || IsVectorType t || IsMatrixType t = false ->
   forall subscript : string,
     SubscriptDataType t subscript = Throw (R_InvalidMatrixDimension 0 0)).
Proof.
  split.
  - intros Ht Hcs.
    destruct (MatrixTypeDim_matrix t Ht) as [Hrows Hcols].
    pose proof (BaseDataType_matrix_scalar t Ht) as Hbase.
    assert (Hres : forall ds, Forall component ds ->
              SubscriptDataType t (chain ds)
              = OK (VectorDataType (BaseDataType t) (Z.of_nat (length ds)))).
    { intros ds Hds. unfold SubscriptDataType, SubscriptDataTypeMatrix.
      case_compare.
      pose proof (SubscriptLoop_chain ds Hds EmptyString 0) as Hloop.
      change (EmptyString ++ chain ds)%string with (chain ds) in Hloop.
      change (Std.size EmptyString) with 0%nat in Hloop.
      rewrite Hloop. reflexivity. }
    split.
    + rewrite (Hres cs Hcs). split.
      * intros [= Hu]. apply VectorDataType_scalar_Undefined in Hu; [lia|exact Hbase].
      * intros Hlen. f_equal. apply VectorDataType_scalar_Undefined; [exact Hbase|lia].
    + change EmptyString with (chain []). rewrite (Hres [] (List.Forall_nil component)).
      f_equal. apply VectorDataType_scalar_Undefined; [exact Hbase|cbn; lia].
  - intros Ht subscript. destruct t; try discriminate Ht; reflexivity.
Qed.

Lemma SubscriptDataType_component_count_witness :
  (SubscriptDataType Float4x4
     (chain [zero_based 0 0; one_based 1 1; zero_based 1 1; one_based 2 2; zero_based 3 3])
   = OK Undefined <-> (5 = 0 \/ 4 < 5)%nat) /\
  SubscriptDataType Float4x4 EmptyString = OK Undefined.
Proof.
  apply (SubscriptDataType_component_count Float4x4
           [zero_based 0 0; one_based 1 1; zero_based 1 1; one_based 2 2; zero_based 3 3]).
  - reflexivity.
  - repeat constructor; lia.
Defined.

(* ================================================================== *)
(** * Register indices *)
(* ================================================================== *)

Section RegisterIndices.

Local Open Scope string_scope.

Lemma atoi_digits_app (D rest : string) :
all_digits D = true -> StdThrow.starts_with_digit rest = false ->
forall acc : Z, Std.atoi_digits (D ++ rest) acc = Std.atoi_digits D acc.
Proof.
intros HD Hrest. induction D as [|c D IH]; intros acc.
- rewrite append_nil. destruct rest as [|c rest]; [reflexivity|].
  cbn in Hrest |- *. now rewrite Hrest.
- cbn [all_digits] in HD. apply andb_true_iff in HD as [Hc HD].
  rewrite append_cons. cbn [Std.atoi_digits]. rewrite Hc. now apply IH.
Qed.

Lemma stoi_digits (D rest : string) :
D <> "" -> all_digits D = true -> StdThrow.starts_with_digit rest = false ->
StdThrow.INT_MIN <= Std.atoi D <= StdThrow.INT_MAX ->
StdThrow.stoi (D ++ rest) = OK (Std.atoi D).
Proof.
intros Hne HD Hrest Hrange.
destruct D as [|c D]; [congruence|].
pose proof HD as Hall. cbn [all_digits] in HD.
apply andb_true_iff in HD as [Hc HD].
destruct (isdigit_not_space_sign c Hc) as (Hsp & Hminus & Hplus).
unfold StdThrow.stoi, Std.atoi in *. rewrite append_cons.
cbn [Std.skip_spaces] in *. rewrite Hsp, Hminus, Hplus in *.
cbn [StdThrow.starts_with_digit]. rewrite Hc.
rewrite <- append_cons, (atoi_digits_app _ _ Hall Hrest).
destruct (Z.ltb_spec (Std.atoi_digits (String c D) 0) StdThrow.INT_MIN); [lia|].
destruct (Z.ltb_spec StdThrow.INT_MAX (Std.atoi_digits (String c D) 0)); [lia|].
reflexivity.
Qed.

End RegisterIndices.

(** X24. [RegisterIndex] reads the decimal number that follows the first
    character of a register name.  For every first character and every
    index [i] of the range of [int] that is not negative, the name made
    of the character and the decimal digits of [i] gives [i], also when
    text that does not start with a digit follows the digits; the first
    character is not looked at.  The empty name makes [substr] throw
    [out_of_range], and a name of one character makes [stoi] throw
    [invalid_argument]. *)
Theorem RegisterIndex_to_string (c : ascii) (i : Z) (rest : string) :
  0 <= i <= StdThrow.INT_MAX ->
  StdThrow.starts_with_digit rest = false ->
  RegisterIndex (String c (Std.to_string i ++ rest)) = OK i /\
  RegisterIndex (String c (Std.to_string i)) = OK i /\
  RegisterIndex EmptyString = Throw StdThrow.out_of_range /\
  RegisterIndex (String c EmptyString) = Throw StdThrow.invalid_argument.
Proof.
  intros Hi Hrest.
  destruct (to_string_digits i ltac:(lia)) as [Hall Hne].
  pose proof (atoi_to_string i ltac:(lia)) as Hatoi.
  assert (Hgen : forall tail : string,
             StdThrow.starts_with_digit tail = false ->
             RegisterIndex (String c (Std.to_string i ++ tail)) = OK i).
  { intros tail Htail. unfold RegisterIndex, StdThrow.substr_from.
    rewrite size_cons. cbn [Nat.ltb Nat.leb bind].
    rewrite substr_from_one, stoi_digits; try assumption.
    - now rewrite Hatoi.
    - rewrite Hatoi. unfold StdThrow.INT_MIN. lia. }
  refine (conj (Hgen rest Hrest) (conj _ (conj eq_refl eq_refl))).
  rewrite <- (app_empty_r (Std.to_string i)) at 1. now apply Hgen.
Qed.

Lemma RegisterIndex_to_string_witness :
  RegisterIndex "b12" = OK 12 /\ RegisterIndex "x7;" = OK 7.
Proof.
  split.
  - exact (proj1 (proj2 (RegisterIndex_to_string "b" 12 EmptyString
                           ltac:(unfold StdThrow.INT_MAX; lia) eq_refl))).
  - exact (proj1 (RegisterIndex_to_string "x" 7 ";"
                    ltac:(unfold StdThrow.INT_MAX; lia) eq_refl)).
Defined.

